(** * HUB SOBERANO: the case ledger, the roster and the commission calculator

    A shallow embedding of [server.ts]: the six SQLite tables created at
    start-up, the SQL statements the Express handlers run against them, the
    handlers themselves, and the two client-side helpers that classify a
    total ([calculateCommission], [isPremium]).

    Conventions of the embedding.
    - A JavaScript number that carries money and an SQLite [REAL] column are
      rationals ([Q]), where the program computes on binary64.  A statement
      that equates two amounts with [=] equates the results of the same
      operations applied in the same order, and its proof uses no law of
      addition or multiplication: it is true of the program's numbers as it
      is of the model's.  (The closed examples over [Q] use whole amounts,
      which binary64 adds and multiplies exactly.)  A statement with [==]
      ([Qeq]) regroups a sum and is about exact amounts.  (The order in
      which SQLite's [SUM] adds its rows is not fixed by the source, so a
      rounding model of the aggregates would not be one either.)  Where
      rounding decides a statement, [Binary64] runs the code in question on
      binary64: the boundary cases of the two client-side helpers, and the
      loop that accumulates a case's total.
    - A JavaScript string of which a handler takes a [substring] is the
      sequence of its UTF-16 code units; any other text is an opaque
      [string].
    - Row ids, quantities and clock readings (milliseconds since the epoch)
      are integers ([Z]); a [DATETIME] column written by a handler holds the
      instant whose [toISOString()] text the handler binds.
    - A column or a request field that may be [null] is an [option].
    - Request bodies are taken at the types the client declares for them
      ([name], [status] strings, [employee_id : number | null], [items] an
      array of [{product_id, quantity, price}]); route parameters [:id] are
      numeric.
    - The [created_at] columns, filled by [DEFAULT CURRENT_TIMESTAMP], are
      read by no handler modelled here and are left out of the rows. *)

From Stdlib Require Import ZArith QArith List Ascii String Bool Lia.
From Stdlib Require Import DecimalString.
From Stdlib Require DecimalFacts DecimalNat.
From Stdlib Require Import Floats.
From Stdlib Require Import Lqa Sorting.Sorted Sorting.Permutation.
Import ListNotations.

Local Open Scope Z_scope.

(** ** Numbers *)

(** [a > b] on JavaScript numbers and in SQL. *)
Definition Qgt_bool (a b : Q) : bool := negb (Qle_bool a b).

(** The mathematical sum of a list of amounts. *)
Fixpoint Qsum (l : list Q) : Q :=
  match l with
  | [] => 0%Q
  | x :: r => (x + Qsum r)%Q
  end.

(** ** Client-side helpers *)

Module Commission.
Record t := { rate : Q; value : Q }.
End Commission.

(** [const calculateCommission = (total: number) => {
      const rate = total >= 5000 ? 0.4 : 0.3;
      return { rate: rate * 100, value: total * rate };
    }] *)
Definition calculateCommission (total : Q) : Commission.t :=
  let rate := if Qle_bool 5000 total then 0.4%Q else 0.3%Q in
  {| Commission.rate := (rate * 100)%Q; Commission.value := (total * rate)%Q |}.

(** [const isPremium = c.total_value > 8000;] in [renderCases], and the
    [WHERE total_value > 8000] of the stats query. *)
Definition isPremium (total_value : Q) : bool := Qgt_bool total_value 8000.

Set Warnings "-inexact-float".

(** The same two helpers on IEEE binary64, the numbers JavaScript computes
    with, to check the decimal literals of the boundary cases under
    rounding, and the loop of the case transactions, to check what total it
    stores.  Decimal literals denote the nearest binary64 value, in
    JavaScript as here. *)
Module Binary64.
Definition calculateCommission (total : float) : float * float :=
  let rate := if PrimFloat.leb 5000 total then 0.4%float else 0.3%float in
  (rate * 100, total * rate)%float.

Definition isPremium (total_value : float) : bool :=
  PrimFloat.ltb 8000 total_value.

(** The loop of the two case transactions on binary64:
    [let totalValue = 0;
     for (const item of items) {
       db.prepare("INSERT INTO case_items ...").run(
         caseId, item.product_id, item.quantity, item.price);
       totalValue += item.price * item.quantity;
     }]
    An item is its pair [(price, quantity)] of JavaScript numbers.  The
    result is the pairs [(price_at_time, quantity)] of the rows that the
    loop inserts, in insertion order, and [totalValue] when it ends, which
    [UPDATE cases SET total_value = ?] then stores. *)
Fixpoint insert_items (items : list (float * float)) (totalValue : float)
    : list (float * float) * float :=
  match items with
  | [] => ([], totalValue)
  | (price, quantity) :: rest =>
      let (inserted, total) :=
        insert_items rest (totalValue + price * quantity)%float in
      ((price, quantity) :: inserted, total)
  end.

(** The running total of rows on binary64, from 0, row after row. *)
Definition running_total (l : list (float * float)) : float :=
  fold_left (fun acc r => (acc + fst r * snd r)%float) l 0%float.

(** The same rows added from the last one to the first. *)
Definition reverse_total (l : list (float * float)) : float :=
  fold_right (fun r acc => (fst r * snd r + acc)%float) 0%float l.

(** The rational number that a finite binary64 value is. *)
Definition to_Q (x : float) : Q :=
  match Prim2SF x with
  | S754_finite s m e =>
      let q := (inject_Z (Z.pos m) * Qpower 2 e)%Q in
      if s then Qopp q else q
  | _ => 0%Q
  end.

(** The exact sum of [price_at_time * quantity] over rows. *)
Definition exact_total (l : list (float * float)) : Q :=
  Qsum (map (fun r => (to_Q (fst r) * to_Q (snd r))%Q) l).
End Binary64.

(** ** The schema

    One record per [CREATE TABLE]; the field names are the column names. *)

Module Employee.
Record t := { id : Z; name : string; whatsapp : string }.
End Employee.

Module Product.
Record t := { id : Z; name : string; category : string; price : Q;
              photo : option string; status : string }.
End Product.

Module Case.
Record t := { id : Z; name : string; employee_id : option Z;
              photo : option string; delivery_date : Z; return_date : Z;
              status : string; total_value : Q }.
End Case.

Module CaseItem.
Record t := { id : Z; case_id : Z; product_id : Z; quantity : Z;
              price_at_time : Q }.
End CaseItem.

Module ManualCommission.
Record t := { id : Z; employee_id : Z; product_name : string; price : Q;
              commission_value : Q }.
End ManualCommission.

Module Log.
Record t := { id : Z; case_id : option Z; action : string;
              details : string }.
End Log.

(** A table: its rows in rowid order and the [sqlite_sequence] counter that
    [AUTOINCREMENT] keeps for it. *)
Record table (R : Type) := { rows : list R; seq : Z }.
Arguments rows {R} _.
Arguments seq {R} _.

Definition empty_table {R : Type} : table R := {| rows := []; seq := 0 |}.

(** [INSERT]: the new rowid is one more than the largest ever used. *)
Definition next_id {R : Type} (t : table R) : Z := seq t + 1.

Definition append_row {R : Type} (t : table R) (r : R) : table R :=
  {| rows := rows t ++ [r]; seq := next_id t |}.

Definition with_rows {R : Type} (t : table R) (l : list R) : table R :=
  {| rows := l; seq := seq t |}.

(** The connection [db]: the tables and the connection's [foreign_keys]
    setting.  [server.ts] never issues the pragma, so the setting is the
    default of the SQLite build behind [better-sqlite3]: the build that the
    package bundles is compiled with [SQLITE_DEFAULT_FOREIGN_KEYS=1], stock
    SQLite leaves them off.  The setting is kept as part of the state, and
    every result below either holds for both values or says which it
    needs. *)
Record database := {
  foreign_keys : bool;
  employees : table Employee.t;
  products : table Product.t;
  cases : table Case.t;
  case_items : table CaseItem.t;
  manual_commissions : table ManualCommission.t;
  logs : table Log.t
}.

Definition empty_db (fk : bool) : database :=
  {| foreign_keys := fk; employees := empty_table; products := empty_table;
     cases := empty_table; case_items := empty_table;
     manual_commissions := empty_table; logs := empty_table |}.

Definition set_employees (d : database) (t : table Employee.t) : database :=
  {| foreign_keys := foreign_keys d; employees := t; products := products d;
     cases := cases d; case_items := case_items d;
     manual_commissions := manual_commissions d; logs := logs d |}.

Definition set_products (d : database) (t : table Product.t) : database :=
  {| foreign_keys := foreign_keys d; employees := employees d; products := t;
     cases := cases d; case_items := case_items d;
     manual_commissions := manual_commissions d; logs := logs d |}.

Definition set_cases (d : database) (t : table Case.t) : database :=
  {| foreign_keys := foreign_keys d; employees := employees d;
     products := products d; cases := t; case_items := case_items d;
     manual_commissions := manual_commissions d; logs := logs d |}.

Definition set_case_items (d : database) (t : table CaseItem.t) : database :=
  {| foreign_keys := foreign_keys d; employees := employees d;
     products := products d; cases := cases d; case_items := t;
     manual_commissions := manual_commissions d; logs := logs d |}.

Definition set_manual_commissions (d : database)
    (t : table ManualCommission.t) : database :=
  {| foreign_keys := foreign_keys d; employees := employees d;
     products := products d; cases := cases d; case_items := case_items d;
     manual_commissions := t; logs := logs d |}.

Definition set_logs (d : database) (t : table Log.t) : database :=
  {| foreign_keys := foreign_keys d; employees := employees d;
     products := products d; cases := cases d; case_items := case_items d;
     manual_commissions := manual_commissions d; logs := t |}.

(** ** Statements as a state-and-exception monad

    A prepared statement either completes, giving a value and the new
    state, or throws an [SqliteError], leaving the state as the failed
    statement found it. *)

Inductive SqliteError := SQLITE_CONSTRAINT_FOREIGNKEY.

Inductive outcome (A : Type) :=
| Done (a : A) (d : database)
| Throw (e : SqliteError) (d : database).
Arguments Done {A} _ _.
Arguments Throw {A} _ _.

Definition sql (A : Type) := database -> outcome A.

Definition ret {A : Type} (a : A) : sql A := fun d => Done a d.

Definition bind {A B : Type} (m : sql A) (f : A -> sql B) : sql B :=
  fun d => match m d with
           | Done a d' => f a d'
           | Throw e d' => Throw e d'
           end.

Declare Scope sql_scope.
Delimit Scope sql_scope with sql.
Notation "x <- m ;; k" := (bind m (fun x => k))
  (at level 61, m at next level, right associativity) : sql_scope.
Notation "m ;;; k" := (bind m (fun _ => k))
  (at level 61, right associativity) : sql_scope.

(** [db.transaction(fn)()]: when [fn] throws, everything it did is rolled
    back and the exception is thrown on. *)
Definition transaction {A : Type} (fn : sql A) : sql A :=
  fun d => match fn d with
           | Done a d' => Done a d'
           | Throw e _ => Throw e d
           end.

(** A declared [FOREIGN KEY] is checked only while [foreign_keys] is on. *)
Definition fk_check (d : database) (holds : bool) : bool :=
  if foreign_keys d then holds else true.

Definition employee_exists (d : database) (id : Z) : bool :=
  existsb (fun e => Employee.id e =? id) (rows (employees d)).

Definition product_exists (d : database) (id : Z) : bool :=
  existsb (fun p => Product.id p =? id) (rows (products d)).

Definition case_exists (d : database) (id : Z) : bool :=
  existsb (fun c => Case.id c =? id) (rows (cases d)).

(** A nullable child key satisfies its constraint when it is [NULL]. *)
Definition employee_ref_ok (d : database) (employee_id : option Z) : bool :=
  match employee_id with
  | None => true
  | Some e => employee_exists d e
  end.

(** [col = ?] on a nullable column: [NULL] matches nothing. *)
Definition null_eqb (col : option Z) (v : Z) : bool :=
  match col with
  | None => false
  | Some x => x =? v
  end.

(** *** The statements of [server.ts] *)

(** [INSERT INTO employees (name, whatsapp) VALUES (?, ?)] *)
Definition insert_employee (name whatsapp : string) : sql Z := fun d =>
  let id := next_id (employees d) in
  Done id (set_employees d (append_row (employees d)
    {| Employee.id := id; Employee.name := name;
       Employee.whatsapp := whatsapp |})).

(** [INSERT INTO products (name, category, price, photo) VALUES (?, ?, ?, ?)];
    [status] takes its default ['active']. *)
Definition insert_product (name category : string) (price : Q)
    (photo : option string) : sql Z := fun d =>
  let id := next_id (products d) in
  Done id (set_products d (append_row (products d)
    {| Product.id := id; Product.name := name; Product.category := category;
       Product.price := price; Product.photo := photo;
       Product.status := "active" |})).

(** [UPDATE products SET name = ?, category = ?, price = ?, photo = ?
     WHERE id = ?] *)
Definition update_product (name category : string) (price : Q)
    (photo : option string) (id : Z) : sql unit := fun d =>
  Done tt (set_products d (with_rows (products d)
    (map (fun p => if Product.id p =? id
                   then {| Product.id := Product.id p; Product.name := name;
                           Product.category := category;
                           Product.price := price; Product.photo := photo;
                           Product.status := Product.status p |}
                   else p)
         (rows (products d))))).

(** [UPDATE products SET status = 'removed' WHERE id = ?] *)
Definition remove_product (id : Z) : sql unit := fun d =>
  Done tt (set_products d (with_rows (products d)
    (map (fun p => if Product.id p =? id
                   then {| Product.id := Product.id p;
                           Product.name := Product.name p;
                           Product.category := Product.category p;
                           Product.price := Product.price p;
                           Product.photo := Product.photo p;
                           Product.status := "removed" |}
                   else p)
         (rows (products d))))).

(** [SELECT COUNT( * ) as count FROM cases
     WHERE employee_id = ? AND status = 'EM_CAMPO'] *)
Definition count_cases_in_field (d : database) (id : Z) : Z :=
  Z.of_nat (List.length (filter
    (fun c => null_eqb (Case.employee_id c) id
              && String.eqb (Case.status c) "EM_CAMPO")
    (rows (cases d)))).

(** Some row of [cases] or of [manual_commissions] has this employee as its
    parent key. *)
Definition employee_referenced (d : database) (id : Z) : bool :=
  existsb (fun c => null_eqb (Case.employee_id c) id) (rows (cases d))
  || existsb (fun m => ManualCommission.employee_id m =? id)
       (rows (manual_commissions d)).

(** [DELETE FROM employees WHERE id = ?]; deleting a parent row that a child
    row still references violates the child's foreign key. *)
Definition delete_employee (id : Z) : sql unit := fun d =>
  if fk_check d (negb (employee_exists d id && employee_referenced d id))
  then Done tt (set_employees d (with_rows (employees d)
         (filter (fun e => negb (Employee.id e =? id)) (rows (employees d)))))
  else Throw SQLITE_CONSTRAINT_FOREIGNKEY d.

(** [INSERT INTO cases (name, employee_id, photo, delivery_date, return_date,
     status) VALUES (?, ?, ?, ?, ?, ?)]; [total_value] takes its default 0.
    The result is [lastInsertRowid]. *)
Definition insert_case (name : string) (employee_id : option Z)
    (photo : option string) (delivery_date return_date : Z)
    (status : string) : sql Z := fun d =>
  if fk_check d (employee_ref_ok d employee_id)
  then let id := next_id (cases d) in
       Done id (set_cases d (append_row (cases d)
         {| Case.id := id; Case.name := name;
            Case.employee_id := employee_id; Case.photo := photo;
            Case.delivery_date := delivery_date;
            Case.return_date := return_date; Case.status := status;
            Case.total_value := 0%Q |}))
  else Throw SQLITE_CONSTRAINT_FOREIGNKEY d.

(** [INSERT INTO case_items (case_id, product_id, quantity, price_at_time)
     VALUES (?, ?, ?, ?)] *)
Definition insert_case_item (case_id product_id quantity : Z) (price : Q)
    : sql unit := fun d =>
  if fk_check d (case_exists d case_id && product_exists d product_id)
  then Done tt (set_case_items d (append_row (case_items d)
         {| CaseItem.id := next_id (case_items d);
            CaseItem.case_id := case_id; CaseItem.product_id := product_id;
            CaseItem.quantity := quantity;
            CaseItem.price_at_time := price |}))
  else Throw SQLITE_CONSTRAINT_FOREIGNKEY d.

(** What [SET total_value = ? WHERE id = ?] does to one row. *)
Definition set_total_value (total_value : Q) (id : Z) (c : Case.t) : Case.t :=
  if Case.id c =? id
  then {| Case.id := Case.id c; Case.name := Case.name c;
          Case.employee_id := Case.employee_id c; Case.photo := Case.photo c;
          Case.delivery_date := Case.delivery_date c;
          Case.return_date := Case.return_date c;
          Case.status := Case.status c; Case.total_value := total_value |}
  else c.

(** [UPDATE cases SET total_value = ? WHERE id = ?] *)
Definition update_case_total_value (total_value : Q) (id : Z) : sql unit :=
  fun d =>
  Done tt (set_cases d (with_rows (cases d)
    (map (set_total_value total_value id) (rows (cases d))))).

(** What [SET name = ?, employee_id = ?, status = ? WHERE id = ?] does to
    one row. *)
Definition set_scalars (name : string) (employee_id : option Z)
    (status : string) (id : Z) (c : Case.t) : Case.t :=
  if Case.id c =? id
  then {| Case.id := Case.id c; Case.name := name;
          Case.employee_id := employee_id; Case.photo := Case.photo c;
          Case.delivery_date := Case.delivery_date c;
          Case.return_date := Case.return_date c;
          Case.status := status; Case.total_value := Case.total_value c |}
  else c.

(** [UPDATE cases SET name = ?, employee_id = ?, status = ? WHERE id = ?];
    the new child key is checked on the rows the statement changes. *)
Definition update_case (name : string) (employee_id : option Z)
    (status : string) (id : Z) : sql unit := fun d =>
  if fk_check d (negb (case_exists d id) || employee_ref_ok d employee_id)
  then Done tt (set_cases d (with_rows (cases d)
         (map (set_scalars name employee_id status id) (rows (cases d)))))
  else Throw SQLITE_CONSTRAINT_FOREIGNKEY d.

(** [DELETE FROM case_items WHERE case_id = ?] *)
Definition delete_case_items (case_id : Z) : sql unit := fun d =>
  Done tt (set_case_items d (with_rows (case_items d)
    (filter (fun i => negb (CaseItem.case_id i =? case_id))
            (rows (case_items d))))).

(** [DELETE FROM logs WHERE case_id = ?] *)
Definition delete_logs (case_id : Z) : sql unit := fun d =>
  Done tt (set_logs d (with_rows (logs d)
    (filter (fun l => negb (null_eqb (Log.case_id l) case_id))
            (rows (logs d))))).

(** [DELETE FROM cases WHERE id = ?] *)
Definition delete_case (id : Z) : sql unit := fun d =>
  if fk_check d (negb (case_exists d id
                       && existsb (fun i => CaseItem.case_id i =? id)
                            (rows (case_items d))))
  then Done tt (set_cases d (with_rows (cases d)
         (filter (fun c => negb (Case.id c =? id)) (rows (cases d)))))
  else Throw SQLITE_CONSTRAINT_FOREIGNKEY d.

(** [INSERT INTO logs (case_id, action, details) VALUES (?, ?, ?)]; the
    table declares no foreign key. *)
Definition insert_log (case_id : option Z) (action details : string)
    : sql unit := fun d =>
  Done tt (set_logs d (append_row (logs d)
    {| Log.id := next_id (logs d); Log.case_id := case_id;
       Log.action := action; Log.details := details |})).

(** [INSERT INTO manual_commissions (employee_id, product_name, price,
     commission_value) VALUES (?, ?, ?, ?)] *)
Definition insert_manual_commission (employee_id : Z) (product_name : string)
    (price commission_value : Q) : sql Z := fun d =>
  if fk_check d (employee_exists d employee_id)
  then let id := next_id (manual_commissions d) in
       Done id (set_manual_commissions d (append_row (manual_commissions d)
         {| ManualCommission.id := id;
            ManualCommission.employee_id := employee_id;
            ManualCommission.product_name := product_name;
            ManualCommission.price := price;
            ManualCommission.commission_value := commission_value |}))
  else Throw SQLITE_CONSTRAINT_FOREIGNKEY d.

(** [SUM(x)] over the selected rows: [NULL] when there is none. *)
Definition SUM (l : list Q) : option Q :=
  match l with
  | [] => None
  | _ => Some (fold_left Qplus l 0%Q)
  end.

(** [COALESCE(x, y)] *)
Definition COALESCE (x : option Q) (y : Q) : Q :=
  match x with
  | Some v => v
  | None => y
  end.

(** [x || 0] on a number or [null]: [null] and [0] are falsy. *)
Definition or_zero (x : option Q) : Q :=
  match x with
  | Some v => if Qeq_bool v 0 then 0%Q else v
  | None => 0%Q
  end.

(** ** Requests and responses *)

Module Item.
(** An element of the [items] array of a case request. *)
Record t := { product_id : Z; quantity : Z; price : Q }.
End Item.

(** A JavaScript string of which the server takes the [length] or a
    [substring]: the sequence of its UTF-16 code units, which is what both
    count. *)
Definition utf16 := list N.

(** The code units of a text of ASCII characters. *)
Definition utf16_of_ascii (s : string) : utf16 :=
  map N_of_ascii (list_ascii_of_string s).

Inductive body :=
| json_id (id : Z)                (* [{ id }] *)
| json_success                    (* [{ success: true }] *)
| json_error (error : string)     (* [{ error }] *)
| json_queued (to : string) (message : utf16) (has_media : bool)
                                  (* [{ success, message, payload_preview }] *)
| uncaught (e : SqliteError).     (* Express' answer to a thrown exception *)

Record response := { status_code : Z; payload : body }.

(** [res.json(b)] *)
Definition res_json (b : body) : response :=
  {| status_code := 200; payload := b |}.

(** [res.status(n).json(b)] *)
Definition res_status_json (n : Z) (b : body) : response :=
  {| status_code := n; payload := b |}.

(** A route handler: an exception that escapes it reaches Express' default
    error handler, which answers 500. *)
Definition handler := database -> response * database.

Definition route (h : sql response) : handler := fun d =>
  match h d with
  | Done r d' => (r, d')
  | Throw e d' => ({| status_code := 500; payload := uncaught e |}, d')
  end.

(** JavaScript truthiness of a [number | null]. *)
Definition truthy (n : option Z) : bool :=
  match n with
  | Some v => negb (v =? 0)
  | None => false
  end.

(** [${items.length}] inside a template literal: the decimal text of the
    count. *)
Definition template_count (n : nat) : string :=
  NilEmpty.string_of_uint (Nat.to_uint n).

(** ** The route handlers *)

Local Open Scope sql_scope.

Module EmployeeRow.
(** A row of [GET /api/employees]: [e.*] and the derived [total_sales]. *)
Record t := { id : Z; name : string; whatsapp : string; total_sales : Q }.
End EmployeeRow.

(** [app.get("/api/employees")]:
    [SELECT e.*, COALESCE(SUM(c.total_value), 0) as total_sales
     FROM employees e LEFT JOIN cases c ON e.id = c.employee_id
     GROUP BY e.id] *)
Definition get_employees (d : database) : list EmployeeRow.t :=
  map (fun e =>
         {| EmployeeRow.id := Employee.id e;
            EmployeeRow.name := Employee.name e;
            EmployeeRow.whatsapp := Employee.whatsapp e;
            EmployeeRow.total_sales :=
              COALESCE (SUM (map Case.total_value
                (filter (fun c => null_eqb (Case.employee_id c) (Employee.id e))
                        (rows (cases d))))) 0%Q |})
      (rows (employees d)).

(** [app.post("/api/employees")] *)
Definition post_employees (name whatsapp : string) : handler :=
  route (id <- insert_employee name whatsapp ;;
         ret (res_json (json_id id))).

(** [app.put("/api/employees/:id")]:
    [UPDATE employees SET name = ?, whatsapp = ? WHERE id = ?] *)
Definition put_employees_id (id : Z) (name whatsapp : string) : handler :=
  route (fun d =>
    Done (res_json json_success)
      (set_employees d (with_rows (employees d)
        (map (fun e => if Employee.id e =? id
                       then {| Employee.id := Employee.id e;
                               Employee.name := name;
                               Employee.whatsapp := whatsapp |}
                       else e)
             (rows (employees d)))))).

(** [app.delete("/api/employees/:id")] *)
Definition delete_employees_id (id : Z) : handler :=
  route (fun d =>
    let activeCases := count_cases_in_field d id in
    if 0 <? activeCases
    then Done (res_status_json 400
                 (json_error "Vendedora possui maletas em campo.")) d
    else (delete_employee id ;;; ret (res_json json_success)) d).

(** [app.get("/api/products")]:
    [SELECT * FROM products WHERE status = 'active'] *)
Definition get_products (d : database) : list Product.t :=
  filter (fun p => String.eqb (Product.status p) "active") (rows (products d)).

(** [app.post("/api/products")] *)
Definition post_products (name category : string) (price : Q)
    (photo : option string) : handler :=
  route (id <- insert_product name category price photo ;;
         ret (res_json (json_id id))).

(** [app.put("/api/products/:id")] *)
Definition put_products_id (id : Z) (name category : string) (price : Q)
    (photo : option string) : handler :=
  route (update_product name category price photo id ;;;
         ret (res_json json_success)).

(** [app.delete("/api/products/:id")] *)
Definition delete_products_id (id : Z) : handler :=
  route (remove_product id ;;; ret (res_json json_success)).

(** The loop of the two case transactions:
    [let totalValue = 0;
     for (const item of items) {
       db.prepare("INSERT INTO case_items ...").run(
         caseId, item.product_id, item.quantity, item.price);
       totalValue += item.price * item.quantity;
     }]
    started from the running [totalValue]. *)
Fixpoint insert_items (caseId : Z) (items : list Item.t) (totalValue : Q)
    : sql Q :=
  match items with
  | [] => ret totalValue
  | item :: rest =>
      insert_case_item caseId (Item.product_id item) (Item.quantity item)
        (Item.price item) ;;;
      insert_items caseId rest
        (totalValue + Item.price item * inject_Z (Item.quantity item))%Q
  end.

(** [app.post("/api/cases")].  [clock_Date] is the instant read by
    [new Date()], [clock_now] the one read by [Date.now()] on the next
    line. *)
Definition post_cases (clock_Date clock_now : Z) (name : string)
    (employee_id : option Z) (photo : option string) (items : list Item.t)
    : handler :=
  let delivery_date := clock_Date in
  let return_date := clock_now + 60 * 24 * 60 * 60 * 1000 in
  route (
    id <- transaction (
      caseId <- insert_case name employee_id photo delivery_date return_date
                  (if truthy employee_id then "EM_CAMPO" else "PARADO") ;;
      totalValue <- insert_items caseId items 0%Q ;;
      update_case_total_value totalValue caseId ;;;
      insert_log (Some caseId) "CREATE"
        ("Maleta criada com " ++ template_count (List.length items)
         ++ " itens.")%string ;;;
      ret caseId) ;;
    ret (res_json (json_id id))).

(** [app.put("/api/cases/:id")]; [items] is [None] when the body has no
    [items] (an array, even an empty one, is truthy). *)
Definition put_cases_id (caseId : Z) (name : string) (employee_id : option Z)
    (status : string) (items : option (list Item.t)) : handler :=
  route (
    transaction (
      update_case name employee_id status caseId ;;;
      match items with
      | Some items =>
          delete_case_items caseId ;;;
          totalValue <- insert_items caseId items 0%Q ;;
          update_case_total_value totalValue caseId
      | None => ret tt
      end ;;;
      insert_log (Some caseId) "UPDATE" "Maleta atualizada.") ;;;
    ret (res_json json_success)).

(** [app.delete("/api/cases/:id")] *)
Definition delete_cases_id (id : Z) : handler :=
  route (
    transaction (
      delete_case_items id ;;;
      delete_logs id ;;;
      delete_case id) ;;;
    ret (res_json json_success)).

(** [app.post("/api/cases/:id/log")] *)
Definition post_cases_id_log (id : Z) (action details : string) : handler :=
  route (insert_log (Some id) action details ;;;
         ret (res_json json_success)).

Module SalesRow.
(** A row of [salesByEmployee]. *)
Record t := { name : string; value : Q }.
End SalesRow.

Module Stats.
Record t := { vgv : Q; activeCases : Z; premiumCases : Z;
              totalEmployees : Z; salesByEmployee : list SalesRow.t }.
End Stats.

(** [app.get("/api/stats")] *)
Definition get_stats (d : database) : Stats.t :=
  let vgvCases :=
    SUM (map Case.total_value
      (filter (fun c => negb (String.eqb (Case.status c) "PARADO"))
              (rows (cases d)))) in
  let vgvManual := SUM (map ManualCommission.price
                          (rows (manual_commissions d))) in
  let activeCases :=
    Z.of_nat (List.length
      (filter (fun c => String.eqb (Case.status c) "EM_CAMPO")
              (rows (cases d)))) in
  let premiumCases :=
    Z.of_nat (List.length
      (filter (fun c => Qgt_bool (Case.total_value c) 8000)
              (rows (cases d)))) in
  let totalEmployees := Z.of_nat (List.length (rows (employees d))) in
  let salesByEmployee :=
    map (fun e =>
      {| SalesRow.name := Employee.name e;
         SalesRow.value :=
           (COALESCE (SUM (map Case.total_value
              (filter (fun c => null_eqb (Case.employee_id c) (Employee.id e))
                      (rows (cases d))))) 0
            + COALESCE (SUM (map ManualCommission.price
              (filter (fun m => ManualCommission.employee_id m
                                =? Employee.id e)
                      (rows (manual_commissions d))))) 0)%Q |})
      (rows (employees d)) in
  {| Stats.vgv := (or_zero vgvCases + or_zero vgvManual)%Q;
     Stats.activeCases := activeCases;
     Stats.premiumCases := premiumCases;
     Stats.totalEmployees := totalEmployees;
     Stats.salesByEmployee := salesByEmployee |}.

(** [app.post("/api/manual-commissions")] *)
Definition post_manual_commissions (employee_id : Z) (product_name : string)
    (price commission_value : Q) : handler :=
  route (id <- insert_manual_commission employee_id product_name price
                 commission_value ;;
         ret (res_json (json_id id))).

(** [app.delete("/api/manual-commissions/:id")]:
    [DELETE FROM manual_commissions WHERE id = ?] *)
Definition delete_manual_commissions_id (id : Z) : handler :=
  route (fun d =>
    Done (res_json json_success)
      (set_manual_commissions d (with_rows (manual_commissions d)
        (filter (fun m => negb (ManualCommission.id m =? id))
                (rows (manual_commissions d)))))).

(** ** The remaining mutating route, and the server as a transition system *)

(** JavaScript truthiness of a [string | undefined]. *)
Definition truthy_string (s : option string) : bool :=
  match s with
  | Some s => negb (String.eqb s "")
  | None => false
  end.

(** [app.post("/api/whatsapp/send")]; [message.substring(0, 100)] keeps the
    first 100 code units of the message, all of them when it has fewer. *)
Definition post_whatsapp_send (employee_id : Z) (message : utf16)
    (photo pdf_base64 : option string) (case_id : option Z) : handler :=
  route (fun d =>
    match find (fun e => Employee.id e =? employee_id) (rows (employees d)) with
    | None =>
        Done (res_status_json 404 (json_error "Vendedora não encontrada")) d
    | Some employee =>
        (insert_log (if truthy case_id then case_id else None) "WHATSAPP_API"
           ("Envio automático via API para " ++ Employee.name employee)%string ;;;
         ret (res_json
                (json_queued (Employee.whatsapp employee)
                   (firstn 100 message ++ utf16_of_ascii "...")
                   (truthy_string photo || truthy_string pdf_base64)))) d
    end).

(** The requests that can change the database. *)
Inductive request :=
| POST_employees (name whatsapp : string)
| PUT_employees_id (id : Z) (name whatsapp : string)
| DELETE_employees_id (id : Z)
| POST_products (name category : string) (price : Q) (photo : option string)
| PUT_products_id (id : Z) (name category : string) (price : Q)
    (photo : option string)
| DELETE_products_id (id : Z)
| POST_cases (clock_Date clock_now : Z) (name : string)
    (employee_id : option Z) (photo : option string) (items : list Item.t)
| PUT_cases_id (id : Z) (name : string) (employee_id : option Z)
    (status : string) (items : option (list Item.t))
| DELETE_cases_id (id : Z)
| POST_cases_id_log (id : Z) (action details : string)
| POST_manual_commissions (employee_id : Z) (product_name : string)
    (price commission_value : Q)
| DELETE_manual_commissions_id (id : Z)
| POST_whatsapp_send (employee_id : Z) (message : utf16)
    (photo pdf_base64 : option string) (case_id : option Z).

Definition serve (r : request) : handler :=
  match r with
  | POST_employees name whatsapp => post_employees name whatsapp
  | PUT_employees_id id name whatsapp => put_employees_id id name whatsapp
  | DELETE_employees_id id => delete_employees_id id
  | POST_products name category price photo =>
      post_products name category price photo
  | PUT_products_id id name category price photo =>
      put_products_id id name category price photo
  | DELETE_products_id id => delete_products_id id
  | POST_cases clock_Date clock_now name employee_id photo items =>
      post_cases clock_Date clock_now name employee_id photo items
  | PUT_cases_id id name employee_id status items =>
      put_cases_id id name employee_id status items
  | DELETE_cases_id id => delete_cases_id id
  | POST_cases_id_log id action details => post_cases_id_log id action details
  | POST_manual_commissions employee_id product_name price commission_value =>
      post_manual_commissions employee_id product_name price commission_value
  | DELETE_manual_commissions_id id => delete_manual_commissions_id id
  | POST_whatsapp_send employee_id message photo pdf_base64 case_id =>
      post_whatsapp_send employee_id message photo pdf_base64 case_id
  end.

(** The databases the server can reach from the empty tables that the
    start-up script creates, on a connection whose [foreign_keys] setting is
    [fk]. *)
Inductive reachable (fk : bool) : database -> Prop :=
| reachable_start : reachable fk (empty_db fk)
| reachable_serve (d : database) (r : request) :
    reachable fk d -> reachable fk (snd (serve r d)).

(** ** The case listing *)

Module ItemRow.
(** A row of the items query of [GET /api/cases]: [ci.*] and the joined
    product's name, category and photo. *)
Record t := { id : Z; case_id : Z; product_id : Z; quantity : Z;
              price_at_time : Q; product_name : string;
              product_category : string; product_photo : option string }.
End ItemRow.

Module CaseRow.
(** An element of the array that [GET /api/cases] answers with: [c.*], the
    joined agent's name and contact, and the nested items. *)
Record t := { id : Z; name : string; employee_id : option Z;
              photo : option string; delivery_date : Z; return_date : Z;
              status : string; total_value : Q;
              employee_name : option string;
              employee_whatsapp : option string;
              items : list ItemRow.t }.
End CaseRow.

(** [SELECT ci.*, p.name as product_name, p.category as product_category,
            p.photo as product_photo
     FROM case_items ci JOIN products p ON ci.product_id = p.id
     WHERE ci.case_id = ?]: an inner join, so a line item is listed once for
    every product row that carries its [product_id], and not at all when
    there is none. *)
Definition select_case_items (d : database) (caseId : Z) : list ItemRow.t :=
  flat_map
    (fun ci =>
       map (fun p =>
              {| ItemRow.id := CaseItem.id ci;
                 ItemRow.case_id := CaseItem.case_id ci;
                 ItemRow.product_id := CaseItem.product_id ci;
                 ItemRow.quantity := CaseItem.quantity ci;
                 ItemRow.price_at_time := CaseItem.price_at_time ci;
                 ItemRow.product_name := Product.name p;
                 ItemRow.product_category := Product.category p;
                 ItemRow.product_photo := Product.photo p |})
           (filter (fun p => Product.id p =? CaseItem.product_id ci)
                   (rows (products d))))
    (filter (fun ci => CaseItem.case_id ci =? caseId) (rows (case_items d))).

(** The agents that [LEFT JOIN employees e ON c.employee_id = e.id] pairs
    with a case. *)
Definition joined_employees (d : database) (c : Case.t) : list Employee.t :=
  filter (fun e => null_eqb (Case.employee_id c) (Employee.id e))
         (rows (employees d)).

(** [app.get("/api/cases")]:
    [SELECT c.*, e.name as employee_name, e.whatsapp as employee_whatsapp
     FROM cases c LEFT JOIN employees e ON c.employee_id = e.id],
    then [cases.map(caseObj => ({ ...caseObj, items }))].  A case without a
    matching agent is listed once, with both joined columns [NULL]. *)
Definition get_cases (d : database) : list CaseRow.t :=
  flat_map
    (fun c =>
       let caseObj (e : option Employee.t) :=
         {| CaseRow.id := Case.id c; CaseRow.name := Case.name c;
            CaseRow.employee_id := Case.employee_id c;
            CaseRow.photo := Case.photo c;
            CaseRow.delivery_date := Case.delivery_date c;
            CaseRow.return_date := Case.return_date c;
            CaseRow.status := Case.status c;
            CaseRow.total_value := Case.total_value c;
            CaseRow.employee_name := option_map Employee.name e;
            CaseRow.employee_whatsapp := option_map Employee.whatsapp e;
            CaseRow.items := select_case_items d (Case.id c) |} in
       match joined_employees d c with
       | [] => [caseObj None]
       | es => map (fun e => caseObj (Some e)) es
       end)
    (rows (cases d)).

(** ** Client-side views over the fetched data *)

(** [renderCases]:
    [const daysLeft = Math.ceil((new Date(c.return_date).getTime()
                                 - Date.now()) / (1000 * 60 * 60 * 24));]
    The quotient of two integers of this size is computed on binary64
    without reaching a neighbouring integer, so the ceiling is the integer
    ceiling. *)
Definition daysLeft (return_date now : Z) : Z :=
  - ((- (return_date - now)) / (1000 * 60 * 60 * 24)).

(** [const isExpiring = daysLeft <= 7;] *)
Definition isExpiring (return_date now : Z) : bool :=
  daysLeft return_date now <=? 7.

(** [renderComissionadas]:
    [const activeCases = cases.filter(c => c.status !== 'PARADO');] *)
Definition activeCases (cases : list CaseRow.t) : list CaseRow.t :=
  filter (fun c => negb (String.eqb (CaseRow.status c) "PARADO")) cases.

Module CommissionedItem.
(** [{ ...item, employee_name: c.employee_name, case_name: c.name,
       delivery_date: c.delivery_date }] *)
Record t := { item : ItemRow.t; employee_name : option string;
              case_name : string; delivery_date : Z }.
End CommissionedItem.

(** [activeCases.forEach(c => c.items.forEach(item =>
       allCommissionedItems.push({...})))] *)
Definition allCommissionedItems (cases : list CaseRow.t)
    : list CommissionedItem.t :=
  flat_map
    (fun c =>
       map (fun item =>
              {| CommissionedItem.item := item;
                 CommissionedItem.employee_name := CaseRow.employee_name c;
                 CommissionedItem.case_name := CaseRow.name c;
                 CommissionedItem.delivery_date := CaseRow.delivery_date c |})
           (CaseRow.items c))
    (activeCases cases).

Module ProductSummary.
Record t := { name : string; category : string; total_qty : Z;
              total_value : Q; photo : option string }.
End ProductSummary.

(** One step of the [productSummary] reduction:
    [if (!acc[item.product_id]) acc[item.product_id] = { ..., total_qty: 0,
                                                         total_value: 0 };
     acc[item.product_id].total_qty += item.quantity;
     acc[item.product_id].total_value += item.price_at_time * item.quantity;]
    The accumulator object is an association list from [product_id] to its
    entry, kept in the order in which [Object.values] enumerates the
    object: a product id is a row id, an integer from 1 on and below
    2^32 - 1, and keys of that kind are enumerated in ascending order
    whatever the order in which they were created.  A new key therefore
    goes to its place in that order.  (Outside that range of keys the
    enumeration is another one; no statement below about the order of the
    entries is made there.) *)
Fixpoint summarize (acc : list (Z * ProductSummary.t)) (item : ItemRow.t)
    : list (Z * ProductSummary.t) :=
  let created :=
    (ItemRow.product_id item,
     {| ProductSummary.name := ItemRow.product_name item;
        ProductSummary.category := ItemRow.product_category item;
        ProductSummary.total_qty := 0 + ItemRow.quantity item;
        ProductSummary.total_value :=
          (0 + ItemRow.price_at_time item
               * inject_Z (ItemRow.quantity item))%Q;
        ProductSummary.photo := ItemRow.product_photo item |}) in
  match acc with
  | [] => [created]
  | (key, entry) :: rest =>
      if key =? ItemRow.product_id item
      then (key,
            {| ProductSummary.name := ProductSummary.name entry;
               ProductSummary.category := ProductSummary.category entry;
               ProductSummary.total_qty :=
                 ProductSummary.total_qty entry + ItemRow.quantity item;
               ProductSummary.total_value :=
                 (ProductSummary.total_value entry
                  + ItemRow.price_at_time item
                    * inject_Z (ItemRow.quantity item))%Q;
               ProductSummary.photo := ProductSummary.photo entry |}) :: rest
      else if ItemRow.product_id item <? key
           then created :: (key, entry) :: rest
           else (key, entry) :: summarize rest item
  end.

(** [const productSummary = allCommissionedItems.reduce(..., {});] *)
Definition productSummary (all : list CommissionedItem.t)
    : list (Z * ProductSummary.t) :=
  fold_left (fun acc i => summarize acc (CommissionedItem.item i)) all [].

(** [const totalInField = allCommissionedItems.reduce(
       (acc, item) => acc + (item.price_at_time * item.quantity), 0);] *)
Definition totalInField (all : list CommissionedItem.t) : Q :=
  fold_left
    (fun acc i =>
       (acc + ItemRow.price_at_time (CommissionedItem.item i)
              * inject_Z (ItemRow.quantity (CommissionedItem.item i)))%Q)
    all 0%Q.

(** A JavaScript object with integer keys and number values, and
    [obj[key] || 0]. *)
Fixpoint stock_get (acc : list (Z * Z)) (key : Z) : Z :=
  match acc with
  | [] => 0
  | (k, v) :: rest => if k =? key then v else stock_get rest key
  end.

(** [obj[key] = v] *)
Fixpoint stock_set (acc : list (Z * Z)) (key v : Z) : list (Z * Z) :=
  match acc with
  | [] => [(key, v)]
  | (k, w) :: rest =>
      if k =? key then (k, v) :: rest else (k, w) :: stock_set rest key v
  end.

(** [renderProducts]:
    [const fieldStock = cases.filter(c => c.status !== 'PARADO')
       .reduce((acc, c) => {
          c.items.forEach(item => {
            acc[item.product_id] = (acc[item.product_id] || 0) + item.quantity;
          });
          return acc; }, {});] *)
Definition fieldStock (cases : list CaseRow.t) : list (Z * Z) :=
  fold_left
    (fun acc c =>
       fold_left
         (fun acc item =>
            stock_set acc (ItemRow.product_id item)
              (stock_get acc (ItemRow.product_id item) + ItemRow.quantity item))
         (CaseRow.items c) acc)
    (filter (fun c => negb (String.eqb (CaseRow.status c) "PARADO")) cases)
    [].

(** [const inField = fieldStock[p.id] || 0;] *)
Definition inField (cases : list CaseRow.t) (p : Product.t) : Z :=
  stock_get (fieldStock cases) (Product.id p).

(** [renderDashboard]: [employees.sort((a, b) => b.total_sales - a.total_sales)].
    [Array.prototype.sort] is stable and orders by the comparator, which
    fixes its result; it is computed here by insertion, an element going in
    front of the first one whose [total_sales] is not larger. *)
Fixpoint insert_by_sales (a : EmployeeRow.t) (sorted : list EmployeeRow.t)
    : list EmployeeRow.t :=
  match sorted with
  | [] => [a]
  | b :: rest =>
      if Qle_bool (EmployeeRow.total_sales b) (EmployeeRow.total_sales a)
      then a :: b :: rest
      else b :: insert_by_sales a rest
  end.

Definition sort_by_sales (employees : list EmployeeRow.t)
    : list EmployeeRow.t :=
  fold_right insert_by_sales [] employees.

(** [employees.sort(...).slice(0, 5)]: the rows of the performance ranking. *)
Definition ranking (employees : list EmployeeRow.t) : list EmployeeRow.t :=
  firstn 5 (sort_by_sales employees).

(** ** The scanner *)

Module ScannedItem.
(** [export interface ScannedItem] of the scanning service. *)
Record t := { name : string; category : string; price : Q; quantity : Z }.
End ScannedItem.

Section Scanner.

(** [String.prototype.toLowerCase], left abstract. *)
Variable toLowerCase : string -> string.

(** [ScannerModal.handleSave]:
    [const itemsToSave = scannedItems.map(item => {
       const existing = products.find(
         (p) => p.name.toLowerCase() === item.name.toLowerCase());
       return { product_id: existing?.id || 0,
                quantity: item.quantity, price: item.price };
     });] *)
Definition itemsToSave (products : list Product.t)
    (scannedItems : list ScannedItem.t) : list Item.t :=
  map (fun item =>
         let existing :=
           find (fun p => String.eqb (toLowerCase (Product.name p))
                                     (toLowerCase (ScannedItem.name item)))
                products in
         {| Item.product_id :=
              match existing with
              | Some p => if Product.id p =? 0 then 0 else Product.id p
              | None => 0
              end;
            Item.quantity := ScannedItem.quantity item;
            Item.price := ScannedItem.price item |})
      scannedItems.

(** [ScannerModal.handleSave]: nothing is sent for an empty scan
    ([if (scannedItems.length === 0) return;]); otherwise one
    [POST /api/cases] with [{ name: caseName,
    employee_id: selectedEmployee || null, items: itemsToSave }].  The
    select's values are agents' ids, [None] standing for its empty option;
    the two clock readings are the ones the server will take. *)
Definition scanner_handleSave (clock_Date clock_now : Z)
    (products : list Product.t) (caseName : string)
    (selectedEmployee : option Z) (scannedItems : list ScannedItem.t)
    : option request :=
  match scannedItems with
  | [] => None
  | _ =>
      Some (POST_cases clock_Date clock_now caseName selectedEmployee None
              (itemsToSave products scannedItems))
  end.

End Scanner.

(** [sendWhatsAppFromScanner]:
    [const totalValue = scannedItems.reduce(
       (acc, i) => acc + (i.price * i.quantity), 0);] *)
Definition scanner_totalValue (scannedItems : list ScannedItem.t) : Q :=
  fold_left
    (fun acc i =>
       (acc + ScannedItem.price i * inject_Z (ScannedItem.quantity i))%Q)
    scannedItems 0%Q.

(** [const rate = totalValue >= 5000 ? 0.4 : 0.3;
     const commission = totalValue * rate;]
    and the [${rate * 100}] of the message: the pair is the percentage shown
    and the commission shown. *)
Definition scanner_commission (scannedItems : list ScannedItem.t) : Q * Q :=
  let totalValue := scanner_totalValue scannedItems in
  let rate := if Qle_bool 5000 totalValue then 0.4%Q else 0.3%Q in
  let commission := (totalValue * rate)%Q in
  ((rate * 100)%Q, commission).

(** ** The case editor *)

Module EditorItem.
(** An element of the editor's [items] state: the fields of a listed item
    that the editor reads, which are also the fields of an item added from
    the product selector. *)
Record t := { product_id : Z; product_name : string;
              product_category : string; product_photo : option string;
              quantity : Z; price_at_time : Q }.
End EditorItem.

(** [useState(caseObj.items || [])] *)
Definition editor_open (caseObj : CaseRow.t) : list EditorItem.t :=
  map (fun i =>
         {| EditorItem.product_id := ItemRow.product_id i;
            EditorItem.product_name := ItemRow.product_name i;
            EditorItem.product_category := ItemRow.product_category i;
            EditorItem.product_photo := ItemRow.product_photo i;
            EditorItem.quantity := ItemRow.quantity i;
            EditorItem.price_at_time := ItemRow.price_at_time i |})
      (CaseRow.items caseObj).

(** The product selector:
    [setItems([...items, { product_id: p.id, product_name: p.name,
       product_category: p.category, product_photo: p.photo,
       quantity: 1, price_at_time: p.price }])] *)
Definition editor_add (p : Product.t) (items : list EditorItem.t)
    : list EditorItem.t :=
  items ++ [{| EditorItem.product_id := Product.id p;
               EditorItem.product_name := Product.name p;
               EditorItem.product_category := Product.category p;
               EditorItem.product_photo := Product.photo p;
               EditorItem.quantity := 1;
               EditorItem.price_at_time := Product.price p |}].

(** [newItems[idx].quantity = f(newItems[idx].quantity)] on a copy of the
    array; [idx] is the index of a rendered row. *)
Fixpoint editor_set_quantity (f : Z -> Z) (idx : nat)
    (items : list EditorItem.t) : list EditorItem.t :=
  match items, idx with
  | [], _ => []
  | i :: rest, O =>
      {| EditorItem.product_id := EditorItem.product_id i;
         EditorItem.product_name := EditorItem.product_name i;
         EditorItem.product_category := EditorItem.product_category i;
         EditorItem.product_photo := EditorItem.product_photo i;
         EditorItem.quantity := f (EditorItem.quantity i);
         EditorItem.price_at_time := EditorItem.price_at_time i |} :: rest
  | i :: rest, S n => i :: editor_set_quantity f n rest
  end.

(** The minus button:
    [newItems[idx].quantity = Math.max(1, newItems[idx].quantity - 1);] *)
Definition editor_minus : nat -> list EditorItem.t -> list EditorItem.t :=
  editor_set_quantity (fun q => Z.max 1 (q - 1)).

(** The plus button: [newItems[idx].quantity += 1;] *)
Definition editor_plus : nat -> list EditorItem.t -> list EditorItem.t :=
  editor_set_quantity (fun q => q + 1).

(** The bin button: [setItems(items.filter((_, i) => i !== idx))] *)
Fixpoint editor_remove (idx : nat) (items : list EditorItem.t)
    : list EditorItem.t :=
  match items, idx with
  | [], _ => []
  | _ :: rest, O => rest
  | i :: rest, S n => i :: editor_remove n rest
  end.

(** [const total = items.reduce(
       (acc, i) => acc + (i.price_at_time * i.quantity), 0);] *)
Definition editor_total (items : list EditorItem.t) : Q :=
  fold_left
    (fun acc i =>
       (acc + EditorItem.price_at_time i * inject_Z (EditorItem.quantity i))%Q)
    items 0%Q.

(** [CaseEditorModal.handleSave]: [PUT /api/cases/${caseObj.id}] with
    [{ name, employee_id: employeeId || null, status,
       items: items.map(i => ({ product_id: i.product_id,
         quantity: i.quantity, price: i.price_at_time })) }]. *)
Definition editor_handleSave (caseObj : CaseRow.t) (name : string)
    (employeeId : option Z) (status : string) (items : list EditorItem.t)
    : request :=
  PUT_cases_id (CaseRow.id caseObj) name
    (if truthy employeeId then employeeId else None) status
    (Some (map (fun i =>
                  {| Item.product_id := EditorItem.product_id i;
                     Item.quantity := EditorItem.quantity i;
                     Item.price := EditorItem.price_at_time i |})
               items)).

(** [useState(caseObj.employee_id || '')]: the select's empty option is
    [None]. *)
Definition editor_employeeId (caseObj : CaseRow.t) : option Z :=
  if truthy (CaseRow.employee_id caseObj)
  then CaseRow.employee_id caseObj else None.

(** [ScannerModal.handleSave], after the save and when an agent is
    selected, fetches the cases again and takes
    [const createdCase = allCases.sort((a, b) => b.id - a.id)[0];]
    for the PDF.  The sort is computed by insertion, as for the ranking: an
    element goes in front of the first one whose [id] is not larger. *)
Fixpoint insert_by_id (a : CaseRow.t) (sorted : list CaseRow.t)
    : list CaseRow.t :=
  match sorted with
  | [] => [a]
  | b :: rest =>
      if CaseRow.id b <=? CaseRow.id a
      then a :: b :: rest
      else b :: insert_by_id a rest
  end.

Definition sort_by_id (allCases : list CaseRow.t) : list CaseRow.t :=
  fold_right insert_by_id [] allCases.

Definition scanner_createdCase (allCases : list CaseRow.t)
    : option CaseRow.t :=
  hd_error (sort_by_id allCases).

(** ** The agent and product editors *)

(** [EmployeeEditorModal.handleSave]:
    [const method = employee.id ? 'PUT' : 'POST';
     const url = employee.id ? `/api/employees/${employee.id}`
                             : '/api/employees';]
    with the body [{ name, whatsapp }].  "Nova Vendedora" opens the editor
    on [{ id: 0, name: '', whatsapp: '', total_sales: 0 }]. *)
Definition employee_handleSave (employee : EmployeeRow.t)
    (name whatsapp : string) : request :=
  if EmployeeRow.id employee =? 0
  then POST_employees name whatsapp
  else PUT_employees_id (EmployeeRow.id employee) name whatsapp.

(** [useState(product.photo || '')] *)
Definition product_editor_photo (product : Product.t) : string :=
  match Product.photo product with
  | Some s => s
  | None => ""
  end.

(** [ProductEditorModal.handleSave]:
    [const method = product.id ? 'PUT' : 'POST';
     const url = product.id ? `/api/products/${product.id}`
                            : '/api/products';]
    with the body [{ name, category, price, photo }], where [photo] is a
    string.  "Novo Produto" opens the editor on
    [{ id: 0, name: '', category: 'brinco', price: 0 }]. *)
Definition product_handleSave (product : Product.t) (name category : string)
    (price : Q) (photo : string) : request :=
  if Product.id product =? 0
  then POST_products name category price (Some photo)
  else PUT_products_id (Product.id product) name category price (Some photo).

(** * Vocabulary of the statements *)

(** The cases assigned to an agent, and the manual commissions entered for
    her. *)
Definition cases_of (d : database) (employee : Z) : list Case.t :=
  filter (fun c => null_eqb (Case.employee_id c) employee) (rows (cases d)).

Definition manual_commissions_of (d : database) (employee : Z)
    : list ManualCommission.t :=
  filter (fun m => ManualCommission.employee_id m =? employee)
         (rows (manual_commissions d)).

(** The answer of [DELETE /api/employees/:id] when the guard fires. *)
Definition conflict : response :=
  res_status_json 400 (json_error "Vendedora possui maletas em campo.").

(** The agent has a linked case whose status is in-field. *)
Definition has_case_in_field (d : database) (id : Z) : Prop :=
  exists c, In c (rows (cases d))
            /\ Case.employee_id c = Some id /\ Case.status c = "EM_CAMPO"%string.

(** The line items of a case, and the value they add up to. *)
Definition items_of (d : database) (caseId : Z) : list CaseItem.t :=
  filter (fun i => CaseItem.case_id i =? caseId) (rows (case_items d)).

Definition subtotal (i : CaseItem.t) : Q :=
  (CaseItem.price_at_time i * inject_Z (CaseItem.quantity i))%Q.

Definition line_total (l : list CaseItem.t) : Q := Qsum (map subtotal l).

(** The total that the loop of a case transaction accumulates over rows:
    [totalValue += price * quantity] from 0, row after row.  Nothing but
    the loop's own operations, in the loop's own order, enters it. *)
Definition running_total (l : list CaseItem.t) : Q :=
  fold_left (fun acc i =>
               (acc + CaseItem.price_at_time i
                      * inject_Z (CaseItem.quantity i))%Q)
            l 0%Q.

(** The row of [cases] with a given id. *)
Definition find_case (d : database) (id : Z) : option Case.t :=
  find (fun c => Case.id c =? id) (rows (cases d)).

(** The rows that the loop inserts for [items], the first of them under
    rowid [first]. *)
Fixpoint item_rows (caseId first : Z) (items : list Item.t)
    : list CaseItem.t :=
  match items with
  | [] => []
  | item :: rest =>
      {| CaseItem.id := first; CaseItem.case_id := caseId;
         CaseItem.product_id := Item.product_id item;
         CaseItem.quantity := Item.quantity item;
         CaseItem.price_at_time := Item.price item |}
      :: item_rows caseId (first + 1) rest
  end.

(** The value of [totalValue] when the loop ends. *)
Definition loop_total (items : list Item.t) (totalValue : Q) : Q :=
  fold_left (fun acc item =>
               (acc + Item.price item * inject_Z (Item.quantity item))%Q)
            items totalValue.

(** Every insert of the loop passes its foreign-key check. *)
Definition items_accepted (d : database) (caseId : Z) (items : list Item.t)
    : bool :=
  forallb (fun item =>
             fk_check d (case_exists d caseId
                         && product_exists d (Item.product_id item)))
          items.

(** The agent reference and every product reference of a case request name
    rows that exist. *)
Definition references_resolve (d : database) (employee_id : option Z)
    (items : list Item.t) : bool :=
  employee_ref_ok d employee_id
  && forallb (fun item => product_exists d (Item.product_id item)) items.

(** The row that a create request leaves in [cases]. *)
Definition created_case (d : database) (clock_Date clock_now : Z)
    (name : string) (employee_id : option Z) (photo : option string)
    (items : list Item.t) : Case.t :=
  {| Case.id := next_id (cases d); Case.name := name;
     Case.employee_id := employee_id; Case.photo := photo;
     Case.delivery_date := clock_Date;
     Case.return_date := clock_now + 5184000000;
     Case.status := if truthy employee_id then "EM_CAMPO" else "PARADO";
     Case.total_value := loop_total items 0 |}.

(** The audit entry of a create request. *)
Definition created_log (d : database) (items : list Item.t) : Log.t :=
  {| Log.id := next_id (logs d); Log.case_id := Some (next_id (cases d));
     Log.action := "CREATE";
     Log.details := ("Maleta criada com "
                     ++ template_count (List.length items) ++ " itens.")%string |}.

(** The audit entry of an update request. *)
Definition updated_log (d : database) (caseId : Z) : Log.t :=
  {| Log.id := next_id (logs d); Log.case_id := Some caseId;
     Log.action := "UPDATE"; Log.details := "Maleta atualizada." |}.

(** The value of one element of [items]: [item.price * item.quantity]. *)
Definition item_value (item : Item.t) : Q :=
  (Item.price item * inject_Z (Item.quantity item))%Q.

(** The cases that are not idle. *)
Definition cases_not_idle (d : database) : list Case.t :=
  filter (fun c => negb (String.eqb (Case.status c) "PARADO")) (rows (cases d)).

(** The ledger is consistent: case ids are ones the table has allocated,
    every line item belongs to a case that exists, and every case's stored
    total is the running total of its line items in row order, the very
    number (not only a number equal to it). *)
Record consistent (d : database) : Prop := {
  case_ids_allocated :
    forall c, In c (rows (cases d)) -> Case.id c <= seq (cases d);
  items_have_a_case :
    forall i, In i (rows (case_items d)) ->
              case_exists d (CaseItem.case_id i) = true;
  totals_match :
    forall c, In c (rows (cases d)) ->
              Case.total_value c = running_total (items_of d (Case.id c))
}.

(** The items listed under the cases that are not idle, as the two
    client-side stock views walk them. *)
Definition items_in_field (cases : list CaseRow.t) : list ItemRow.t :=
  flat_map CaseRow.items (activeCases cases).

(** The quantity of one product among listed items. *)
Fixpoint quantity_of (product_id : Z) (items : list ItemRow.t) : Z :=
  match items with
  | [] => 0
  | i :: rest =>
      (if ItemRow.product_id i =? product_id then ItemRow.quantity i else 0)
      + quantity_of product_id rest
  end.

(** The value of listed items. *)
Definition listed_value (items : list ItemRow.t) : Q :=
  Qsum (map (fun i => (ItemRow.price_at_time i
                       * inject_Z (ItemRow.quantity i))%Q) items).

(** The items of one product among listed items, in their order. *)
Definition items_of_product (key : Z) (items : list ItemRow.t)
    : list ItemRow.t :=
  filter (fun i => ItemRow.product_id i =? key) items.

(** The running total of listed items: [acc + price_at_time * quantity]
    from 0, item after item. *)
Definition running_value (items : list ItemRow.t) : Q :=
  fold_left (fun acc i =>
               (acc + ItemRow.price_at_time i
                      * inject_Z (ItemRow.quantity i))%Q)
            items 0%Q.

(** The entry that groups the items of one product: name, category and
    photo as the first of them shows them, quantity and value added up item
    after item from 0; none when there is no such item. *)
Definition grouped (key : Z) (items : list ItemRow.t)
    : option ProductSummary.t :=
  match items_of_product key items with
  | [] => None
  | first :: rest =>
      Some {| ProductSummary.name := ItemRow.product_name first;
              ProductSummary.category := ItemRow.product_category first;
              ProductSummary.total_qty :=
                fold_left (fun acc i => acc + ItemRow.quantity i)
                          (first :: rest) 0;
              ProductSummary.total_value := running_value (first :: rest);
              ProductSummary.photo := ItemRow.product_photo first |}
  end.

(** [total_qty] of the summary entry of a product, 0 when it has none. *)
Definition summary_qty (summary : list (Z * ProductSummary.t)) (key : Z) : Z :=
  match find (fun e => fst e =? key) summary with
  | Some e => ProductSummary.total_qty (snd e)
  | None => 0
  end.

(** The rows of a table carry distinct ids, all of them allocated by the
    table's sequence. *)
Definition table_ok {R : Type} (key : R -> Z) (t : table R) : Prop :=
  NoDup (map key (rows t))
  /\ (forall r, In r (rows t) -> 1 <= key r <= seq t)
  /\ 0 <= seq t.

(** Referential integrity: ids are distinct and allocated, and every agent
    reference of a case or manual commission, and every product reference of
    a line item, names a row that exists. *)
Record referential (d : database) : Prop := {
  employees_ok : table_ok Employee.id (employees d);
  products_ok : table_ok Product.id (products d);
  cases_ok : table_ok Case.id (cases d);
  case_agents_exist :
    forall c, In c (rows (cases d)) ->
              employee_ref_ok d (Case.employee_id c) = true;
  item_products_exist :
    forall i, In i (rows (case_items d)) ->
              product_exists d (CaseItem.product_id i) = true;
  commission_agents_exist :
    forall m, In m (rows (manual_commissions d)) ->
              employee_exists d (ManualCommission.employee_id m) = true
}.

(** The [c.*] columns of a listed case and the [ci.*] columns of a listed
    item. *)
Definition case_columns (r : CaseRow.t) : Case.t :=
  {| Case.id := CaseRow.id r; Case.name := CaseRow.name r;
     Case.employee_id := CaseRow.employee_id r; Case.photo := CaseRow.photo r;
     Case.delivery_date := CaseRow.delivery_date r;
     Case.return_date := CaseRow.return_date r;
     Case.status := CaseRow.status r;
     Case.total_value := CaseRow.total_value r |}.

Definition item_columns (i : ItemRow.t) : CaseItem.t :=
  {| CaseItem.id := ItemRow.id i; CaseItem.case_id := ItemRow.case_id i;
     CaseItem.product_id := ItemRow.product_id i;
     CaseItem.quantity := ItemRow.quantity i;
     CaseItem.price_at_time := ItemRow.price_at_time i |}.

(** The listed item shows the name, category and photo that its product has
    in the catalog now. *)
Definition shows_product (d : database) (i : ItemRow.t) : Prop :=
  exists p,
    find (fun p => Product.id p =? ItemRow.product_id i) (rows (products d))
    = Some p
    /\ ItemRow.product_name i = Product.name p
    /\ ItemRow.product_category i = Product.category p
    /\ ItemRow.product_photo i = Product.photo p.

(** The listed case shows the name and contact of its agent, and neither
    when it has none. *)
Definition shows_agent (d : database) (r : CaseRow.t) : Prop :=
  match CaseRow.employee_id r with
  | None =>
      CaseRow.employee_name r = None /\ CaseRow.employee_whatsapp r = None
  | Some k =>
      exists e,
        find (fun e => Employee.id e =? k) (rows (employees d)) = Some e
        /\ CaseRow.employee_name r = Some (Employee.name e)
        /\ CaseRow.employee_whatsapp r = Some (Employee.whatsapp e)
  end.

(** Two rows of [cases] that agree on every column, their [total_value]
    as numbers. *)
Definition same_case (c c' : Case.t) : Prop :=
  Case.id c' = Case.id c /\ Case.name c' = Case.name c
  /\ Case.employee_id c' = Case.employee_id c
  /\ Case.photo c' = Case.photo c
  /\ Case.delivery_date c' = Case.delivery_date c
  /\ Case.return_date c' = Case.return_date c
  /\ Case.status c' = Case.status c
  /\ (Case.total_value c' == Case.total_value c)%Q.

(** What a line item holds besides its rowid. *)
Definition item_content (i : CaseItem.t) : Z * Z * Z * Q :=
  (CaseItem.case_id i, CaseItem.product_id i, CaseItem.quantity i,
   CaseItem.price_at_time i).

(** ** Example databases, each built by the routes themselves *)

(** A catalog of one product, with id 1. *)
Definition catalog_of_one : database :=
  snd (post_products "Brinco Argola" "brinco" 450 None (empty_db true)).

(** One agent, no case, one manual commission of price 200 entered for
    her. *)
Definition roster_with_manual_sale : database :=
  snd (post_manual_commissions 1 "Oculos" 200 60
         (snd (post_employees "Ana" "5511999990000" (empty_db true)))).

(** Two agents and two catalog products. *)
Definition shop : database :=
  snd (post_products "Anel Solitario" "anel" 3000 None
    (snd (post_products "Brinco Argola" "brinco" 100 None
      (snd (post_employees "Bia" "5511888880000"
        (snd (post_employees "Ana" "5511999990000" (empty_db true)))))))).

(** [shop] after a case of two line items has been created for agent 1. *)
Definition shop_with_case : database :=
  snd (post_cases 1700000000000 1700000000001 "Mala Julho" (Some 1) None
         [{| Item.product_id := 1; Item.quantity := 2; Item.price := 100 |};
          {| Item.product_id := 2; Item.quantity := 1; Item.price := 3000 |}]
         shop).

(** [shop] after a case totalling 6000 has been created for agent 1 and a
    manual commission of price 200 entered for her. *)
Definition shop_with_sales : database :=
  snd (post_manual_commissions 1 "Oculos" 200 60
    (snd (post_cases 1700000000000 1700000000001 "Mala Ouro" (Some 1) None
            [{| Item.product_id := 2; Item.quantity := 2;
                Item.price := 3000 |}] shop))).

(** On a connection that does not enforce foreign keys: an update with one
    line item sent to id 1, which names no case, then the create that
    receives id 1. *)
Definition orphaned_ledger : database :=
  snd (serve (POST_cases 1700000000000 1700000000001 "Mala Nova" None None [])
    (snd (serve (PUT_cases_id 1 "Mala Velha" None "PARADO"
                   (Some [{| Item.product_id := 1; Item.quantity := 1;
                             Item.price := 100 |}]))
            (empty_db false)))).

(** [shop_with_case] after the case of agent 1 has been set idle, the agent
    kept. *)
Definition roster_with_history : database :=
  snd (put_cases_id 1 "Mala Julho" (Some 1) "PARADO" None shop_with_case).

(** The case of [shop_with_case] as [GET /api/cases] lists it. *)
Definition mala_julho_listed : CaseRow.t :=
  {| CaseRow.id := 1; CaseRow.name := "Mala Julho";
     CaseRow.employee_id := Some 1; CaseRow.photo := None;
     CaseRow.delivery_date := 1700000000000;
     CaseRow.return_date := 1705184000001;
     CaseRow.status := "EM_CAMPO"; CaseRow.total_value := 3200;
     CaseRow.employee_name := Some "Ana"%string;
     CaseRow.employee_whatsapp := Some "5511999990000"%string;
     CaseRow.items :=
       [{| ItemRow.id := 1; ItemRow.case_id := 1; ItemRow.product_id := 1;
           ItemRow.quantity := 2; ItemRow.price_at_time := 100;
           ItemRow.product_name := "Brinco Argola";
           ItemRow.product_category := "brinco";
           ItemRow.product_photo := None |};
        {| ItemRow.id := 2; ItemRow.case_id := 1; ItemRow.product_id := 2;
           ItemRow.quantity := 1; ItemRow.price_at_time := 3000;
           ItemRow.product_name := "Anel Solitario";
           ItemRow.product_category := "anel";
           ItemRow.product_photo := None |}] |}.

(** Three items of one piece each, at 0.1, 0.2 and 0.3. *)
Definition three_tenths : list (float * float) :=
  [(0.1, 1); (0.2, 1); (0.3, 1)]%float.

(** [toLowerCase] on a text of ASCII characters: the letters A to Z go to
    a to z. *)
Fixpoint ascii_toLowerCase (s : string) : string :=
  match s with
  | EmptyString => EmptyString
  | String a rest =>
      String (if ((65 <=? N_of_ascii a) && (N_of_ascii a <=? 90))%N
              then ascii_of_N (N_of_ascii a + 32)
              else a)
             (ascii_toLowerCase rest)
  end.

(** A product list in which two products carry the same name up to case. *)
Definition namesakes : list Product.t :=
  [{| Product.id := 1; Product.name := "Brinco Argola";
      Product.category := "brinco"; Product.price := 100;
      Product.photo := None; Product.status := "active" |};
   {| Product.id := 2; Product.name := "Anel Solitario";
      Product.category := "anel"; Product.price := 3000;
      Product.photo := None; Product.status := "active" |};
   {| Product.id := 3; Product.name := "BRINCO ARGOLA";
      Product.category := "brinco"; Product.price := 120;
      Product.photo := None; Product.status := "active" |}].

(** A scan of two items, the second of which names no product. *)
Definition scan_of_two : list ScannedItem.t :=
  [{| ScannedItem.name := "brinco ARGOLA"; ScannedItem.category := "brinco";
      ScannedItem.price := 90; ScannedItem.quantity := 2 |};
   {| ScannedItem.name := "Pulseira Nova"; ScannedItem.category := "pulseira";
      ScannedItem.price := 80; ScannedItem.quantity := 1 |}].

(** A listed case in field whose items come in the order of products 2, 1
    and 2 again. *)
Definition mala_mista_listed : CaseRow.t :=
  {| CaseRow.id := 2; CaseRow.name := "Mala Mista";
     CaseRow.employee_id := Some 1; CaseRow.photo := None;
     CaseRow.delivery_date := 1700000000000;
     CaseRow.return_date := 1705184000001;
     CaseRow.status := "EM_CAMPO"; CaseRow.total_value := 11900;
     CaseRow.employee_name := Some "Ana"%string;
     CaseRow.employee_whatsapp := Some "5511999990000"%string;
     CaseRow.items :=
       [{| ItemRow.id := 3; ItemRow.case_id := 2; ItemRow.product_id := 2;
           ItemRow.quantity := 1; ItemRow.price_at_time := 3000;
           ItemRow.product_name := "Anel Solitario";
           ItemRow.product_category := "anel";
           ItemRow.product_photo := None |};
        {| ItemRow.id := 4; ItemRow.case_id := 2; ItemRow.product_id := 1;
           ItemRow.quantity := 2; ItemRow.price_at_time := 100;
           ItemRow.product_name := "Brinco Argola";
           ItemRow.product_category := "brinco";
           ItemRow.product_photo := None |};
        {| ItemRow.id := 5; ItemRow.case_id := 2; ItemRow.product_id := 2;
           ItemRow.quantity := 3; ItemRow.price_at_time := 2900;
           ItemRow.product_name := "Anel Solitario";
           ItemRow.product_category := "anel";
           ItemRow.product_photo := None |}] |}.

(** * Properties *)

(** ** Sums *)

Lemma fold_left_Qplus (l : list Q) (a : Q) :
  (fold_left Qplus l a == a + Qsum l)%Q.
Proof.
  revert a; induction l as [|x r IH]; intro a; simpl.
  - ring.
  - rewrite IH. ring.
Qed.

Lemma fold_left_Qplus_zero (l : list Q) :
  (fold_left Qplus l 0 == Qsum l)%Q.
Proof. rewrite fold_left_Qplus. ring. Qed.

Lemma COALESCE_SUM (l : list Q) : (COALESCE (SUM l) 0 == Qsum l)%Q.
Proof.
  destruct l as [|x r]; [reflexivity|].
  unfold SUM, COALESCE. apply fold_left_Qplus_zero.
Qed.


(** ** The commission calculator *)

Lemma Qle_bool_false (a b : Q) : Qle_bool a b = false <-> (b < a)%Q.
Proof.
  split; intro H.
  - apply Qnot_le_lt. intro L. apply Qle_bool_iff in L. congruence.
  - destruct (Qle_bool a b) eqn:E; [|reflexivity].
    apply Qle_bool_iff in E. exfalso. exact (Qlt_not_le _ _ H E).
Qed.

Lemma calculateCommission_high (total : Q) :
  (5000 <= total)%Q ->
  calculateCommission total
  = {| Commission.rate := (0.4 * 100)%Q; Commission.value := (total * 0.4)%Q |}.
Proof.
  intro H. unfold calculateCommission.
  apply Qle_bool_iff in H. rewrite H. reflexivity.
Qed.

Lemma calculateCommission_low (total : Q) :
  (total < 5000)%Q ->
  calculateCommission total
  = {| Commission.rate := (0.3 * 100)%Q; Commission.value := (total * 0.3)%Q |}.
Proof.
  intro H. unfold calculateCommission.
  apply Qle_bool_false in H. rewrite H. reflexivity.
Qed.

(** The payout is the total times the rate that is reported, read as a
    percentage. *)
Lemma calculateCommission_payout (total : Q) :
  (Commission.value (calculateCommission total)
   == total * (Commission.rate (calculateCommission total) / 100))%Q.
Proof.
  unfold calculateCommission.
  destruct (Qle_bool 5000 total); simpl; field.
Qed.

(** C2. The commission calculator depends on the total alone: from 5000 on
    (5000 included) the rate is 40%, below 5000 it is 30%, and the payout is
    the total times that rate; 4999.99 is paid at 30%, 5000 and 5000.01 at
    40%. *)
Theorem calculateCommission_tiered (total : Q) :
  (0 <= total)%Q ->
  ((5000 <= total)%Q ->
     (Commission.rate (calculateCommission total) == 40)%Q
     /\ (Commission.value (calculateCommission total) == total * (40 / 100))%Q)
  /\ ((total < 5000)%Q ->
     (Commission.rate (calculateCommission total) == 30)%Q
     /\ (Commission.value (calculateCommission total) == total * (30 / 100))%Q)
  /\ (Commission.value (calculateCommission total)
      == total * (Commission.rate (calculateCommission total) / 100))%Q
  /\ (forall total' : Q, (total' == total)%Q ->
        (Commission.rate (calculateCommission total')
         == Commission.rate (calculateCommission total))%Q
        /\ (Commission.value (calculateCommission total')
            == Commission.value (calculateCommission total))%Q)
  /\ (Commission.rate (calculateCommission 4999.99) == 30)%Q
  /\ (Commission.rate (calculateCommission 5000) == 40)%Q
  /\ (Commission.rate (calculateCommission 5000.01) == 40)%Q.
Proof.
  intros _. repeat split.
  - rewrite (calculateCommission_high total H). reflexivity.
  - rewrite (calculateCommission_high total H). simpl. field.
  - rewrite (calculateCommission_low total H). reflexivity.
  - rewrite (calculateCommission_low total H). simpl. field.
  - apply calculateCommission_payout.
  - unfold calculateCommission.
    assert (E : Qle_bool 5000 total' = Qle_bool 5000 total)
      by (rewrite H; reflexivity).
    rewrite E. reflexivity.
  - unfold calculateCommission.
    assert (E : Qle_bool 5000 total' = Qle_bool 5000 total)
      by (rewrite H; reflexivity).
    rewrite E. destruct (Qle_bool 5000 total); simpl; rewrite H; reflexivity.
Qed.

Lemma calculateCommission_tiered_witness :
  (Commission.rate (calculateCommission 6200) == 40)%Q
  /\ (Commission.value (calculateCommission 6200) == 2480)%Q.
Proof.
  destruct (calculateCommission_tiered 6200) as [H _].
  - discriminate.
  - destruct H as [Hr Hv].
    + discriminate.
    + split; [exact Hr | rewrite Hv; reflexivity].
Defined.

(** Under binary64 rounding the reported rates are still exactly 30 and
    40, and the three boundary totals fall on the same side. *)
Lemma binary64_commission_boundaries :
  fst (Binary64.calculateCommission 4999.99) = 30%float
  /\ fst (Binary64.calculateCommission 5000) = 40%float
  /\ fst (Binary64.calculateCommission 5000.01) = 40%float
  /\ snd (Binary64.calculateCommission 5000) = 2000%float.
Proof. repeat split. Qed.

(** ** The premium flag *)

Lemma binary64_premium_boundaries :
  Binary64.isPremium 8000 = false /\ Binary64.isPremium 8000.01 = true.
Proof. split; reflexivity. Qed.

Lemma Qgt_bool_iff (a b : Q) : Qgt_bool a b = true <-> (b < a)%Q.
Proof.
  unfold Qgt_bool. rewrite negb_true_iff. apply Qle_bool_false.
Qed.

(** C9. A case is premium exactly when its total is strictly above 8000:
    8000 itself is not premium, 8000.01 is.  The flag is not a column: the
    card computes it from [total_value] and the stats count it over the
    current rows. *)
Theorem isPremium_strict (d : database) (c : Case.t) :
  (isPremium (Case.total_value c) = true <-> (8000 < Case.total_value c)%Q)
  /\ isPremium 8000 = false
  /\ isPremium 8000.01 = true
  /\ Stats.premiumCases (get_stats d)
     = Z.of_nat (List.length
         (filter (fun c => isPremium (Case.total_value c)) (rows (cases d)))).
Proof.
  split; [apply Qgt_bool_iff|].
  repeat split.
Qed.

(** ** Tables and rows *)

Lemma with_rows_same {R : Type} (t : table R) : with_rows t (rows t) = t.
Proof. destruct t; reflexivity. Qed.

Lemma set_products_same (d : database) : set_products d (products d) = d.
Proof. destruct d; reflexivity. Qed.

Lemma existsb_false_forall {A : Type} (f : A -> bool) (l : list A) :
  existsb f l = false <-> forall x, In x l -> f x = false.
Proof.
  induction l as [|a r IH]; simpl.
  - split; [intros _ x []|reflexivity].
  - rewrite orb_false_iff, IH. split.
    + intros [Ha Hr] x [<-|Hx]; auto.
    + intro H. split; [apply H; auto|intros x Hx; apply H; auto].
Qed.

(** An [UPDATE ... WHERE] whose condition selects no row changes nothing. *)
Lemma map_where_none {A : Type} (sel : A -> bool) (upd : A -> A) (l : list A) :
  existsb sel l = false ->
  map (fun x => if sel x then upd x else x) l = l.
Proof.
  rewrite existsb_false_forall. intro H.
  induction l as [|a r IH]; simpl; [reflexivity|].
  rewrite (H a (or_introl eq_refl)). f_equal.
  apply IH. intros x Hx. apply H. right; exact Hx.
Qed.

(** A [DELETE ... WHERE] leaves no row that meets its condition. *)
Lemma filter_negb_existsb {A : Type} (sel : A -> bool) (l : list A) :
  existsb sel (filter (fun x => negb (sel x)) l) = false.
Proof.
  apply existsb_false_forall. intros x Hx.
  apply filter_In in Hx. destruct Hx as [_ Hx].
  apply negb_true_iff in Hx. exact Hx.
Qed.

Ltac run_handler :=
  unfold route, transaction, bind, ret, res_json, res_status_json; simpl.

(** ** The catalog *)

Lemma put_products_id_answer (d : database) (id : Z) (name category : string)
    (price : Q) (photo : option string) :
  fst (put_products_id id name category price photo d) = res_json json_success.
Proof. reflexivity. Qed.

Lemma delete_products_id_answer (d : database) (id : Z) :
  fst (delete_products_id id d) = res_json json_success.
Proof. reflexivity. Qed.

(** C4, as stated, fails: updating and soft-deleting product 99, which the
    catalog does not hold, are answered [200 { success: true }], not with a
    4xx status. *)
Lemma unknown_product_id_answers_success :
  product_exists catalog_of_one 99 = false
  /\ put_products_id 99 "Anel" "anel" 120 None catalog_of_one
     = ({| status_code := 200; payload := json_success |}, catalog_of_one)
  /\ delete_products_id 99 catalog_of_one
     = ({| status_code := 200; payload := json_success |}, catalog_of_one)
  /\ (400 <=? status_code
        (fst (put_products_id 99 "Anel" "anel" 120 None catalog_of_one)))
     = false
  /\ (400 <=? status_code (fst (delete_products_id 99 catalog_of_one)))
     = false.
Proof. repeat split. Qed.

(** C4, amended.  Updating or soft-deleting a catalog product by an id that
    does not exist is a silent no-op: the database is left as it was and the
    caller receives the same [200 { success: true }] as for an id that
    exists. *)
Theorem unknown_product_id_is_silent_noop (d : database) (id : Z)
    (name category : string) (price : Q) (photo : option string) :
  product_exists d id = false ->
  put_products_id id name category price photo d = (res_json json_success, d)
  /\ delete_products_id id d = (res_json json_success, d)
  /\ (forall (d0 : database) (id0 : Z),
        fst (put_products_id id0 name category price photo d0)
        = res_json json_success
        /\ fst (delete_products_id id0 d0) = res_json json_success).
Proof.
  intro H. unfold product_exists in H.
  split; [|split].
  - unfold put_products_id, update_product. run_handler.
    rewrite (map_where_none _ _ _ H), with_rows_same, set_products_same.
    reflexivity.
  - unfold delete_products_id, remove_product. run_handler.
    rewrite (map_where_none _ _ _ H), with_rows_same, set_products_same.
    reflexivity.
  - intros d0 id0. split.
    + apply put_products_id_answer.
    + apply delete_products_id_answer.
Qed.

Lemma unknown_product_id_is_silent_noop_witness :
  put_products_id 99 "Anel" "anel" 120 None catalog_of_one
  = (res_json json_success, catalog_of_one)
  /\ delete_products_id 99 catalog_of_one
     = (res_json json_success, catalog_of_one).
Proof.
  destruct (unknown_product_id_is_silent_noop catalog_of_one 99 "Anel" "anel"
              120 None) as [Hput [Hdel _]].
  - reflexivity.
  - split; [exact Hput|exact Hdel].
Defined.

(** ** The roster *)

(** C3. For every agent, the [total_sales] that the list-agents operation
    returns should be the sum of [total_value] over her cases plus the sum of
    her manual commission prices.  [GET /api/employees] misses the second
    term: for an agent with no case and one manual commission of price 200
    it returns [total_sales = 0], where the claim, and the per-agent row
    that [GET /api/stats] computes for the same agent, give 200. *)
Lemma total_sales_leaves_manual_commissions_out :
  rows (employees roster_with_manual_sale)
  = [{| Employee.id := 1; Employee.name := "Ana";
        Employee.whatsapp := "5511999990000" |}]
  /\ map Case.total_value (cases_of roster_with_manual_sale 1) = []
  /\ map ManualCommission.price
        (manual_commissions_of roster_with_manual_sale 1) = [200%Q]
  /\ map EmployeeRow.total_sales (get_employees roster_with_manual_sale)
     = [0%Q]
  /\ Qeq_bool 0
       (Qsum (map Case.total_value (cases_of roster_with_manual_sale 1))
        + Qsum (map ManualCommission.price
                  (manual_commissions_of roster_with_manual_sale 1)))
     = false
  /\ map (fun r => Qeq_bool (SalesRow.value r) 200)
         (Stats.salesByEmployee (get_stats roster_with_manual_sale))
     = [true].
Proof. repeat split. Qed.

(** What the query of [GET /api/employees] does compute: for every agent,
    the sum of [total_value] across the cases assigned to her; the table of
    manual commissions is not read. *)
Lemma total_sales_sums_case_totals (d : database) :
  Forall2
    (fun e r =>
       EmployeeRow.id r = Employee.id e
       /\ EmployeeRow.name r = Employee.name e
       /\ EmployeeRow.whatsapp r = Employee.whatsapp e
       /\ (EmployeeRow.total_sales r
           == Qsum (map Case.total_value (cases_of d (Employee.id e))))%Q)
    (rows (employees d)) (get_employees d)
  /\ forall t : table ManualCommission.t,
       get_employees (set_manual_commissions d t) = get_employees d.
Proof.
  split; [|reflexivity].
  unfold get_employees.
  induction (rows (employees d)) as [|e r IH]; simpl; constructor.
  - repeat split. apply COALESCE_SUM.
  - exact IH.
Qed.

Lemma null_eqb_eq (col : option Z) (v : Z) :
  null_eqb col v = true <-> col = Some v.
Proof.
  destruct col as [x|]; simpl.
  - rewrite Z.eqb_eq. split; congruence.
  - split; discriminate.
Qed.

Lemma count_cases_in_field_pos (d : database) (id : Z) :
  (0 <? count_cases_in_field d id) = true <-> has_case_in_field d id.
Proof.
  unfold count_cases_in_field, has_case_in_field.
  rewrite Z.ltb_lt. split.
  - intro H.
    destruct (filter _ (rows (cases d))) as [|c r] eqn:E; [simpl in H; lia|].
    assert (Hc : In c (c :: r)) by (left; reflexivity).
    rewrite <- E in Hc. apply filter_In in Hc. destruct Hc as [Hin Hc].
    apply andb_true_iff in Hc. destruct Hc as [He Hs].
    exists c. repeat split; [exact Hin|apply null_eqb_eq; exact He|].
    apply String.eqb_eq; exact Hs.
  - intros [c [Hin [He Hs]]].
    assert (Hc : In c (filter
      (fun c => null_eqb (Case.employee_id c) id
                && String.eqb (Case.status c) "EM_CAMPO") (rows (cases d)))).
    { apply filter_In. split; [exact Hin|].
      apply andb_true_iff. split; [apply null_eqb_eq; exact He|].
      apply String.eqb_eq; exact Hs. }
    destruct (filter _ (rows (cases d))); [destruct Hc|simpl; lia].
Qed.

Lemma delete_employees_id_blocked (d : database) (id : Z) :
  has_case_in_field d id -> delete_employees_id id d = (conflict, d).
Proof.
  intro H. apply count_cases_in_field_pos in H.
  unfold delete_employees_id, route. rewrite H. reflexivity.
Qed.

Lemma delete_employees_id_free (d : database) (id : Z) :
  ~ has_case_in_field d id ->
  delete_employees_id id d
  = if fk_check d (negb (employee_exists d id && employee_referenced d id))
    then (res_json json_success,
          set_employees d (with_rows (employees d)
            (filter (fun e => negb (Employee.id e =? id))
                    (rows (employees d)))))
    else ({| status_code := 500;
             payload := uncaught SQLITE_CONSTRAINT_FOREIGNKEY |}, d).
Proof.
  intro H. rewrite <- count_cases_in_field_pos in H.
  apply not_true_is_false in H.
  unfold delete_employees_id, route. rewrite H.
  unfold bind, delete_employee, ret.
  destruct (fk_check d _); reflexivity.
Qed.

(** C5.  The handler checks for cases in field ("Check if employee has
    active cases"), issues the [DELETE] and answers [{ success: true }]
    without condition; it misses that the schema's foreign keys reject the
    [DELETE] of an agent whom a case or a manual commission still names.
    Agent 1 has no case in field, only an idle one, yet deleting her neither
    succeeds nor removes the row: the statement throws, nothing catches it
    and the request ends in a 500.  The state is one the server reaches by
    its own routes on the connection it opens. *)
Lemma agent_with_history_is_not_deleted :
  reachable true roster_with_history
  /\ count_cases_in_field roster_with_history 1 = 0
  /\ delete_employees_id 1 roster_with_history
     = ({| status_code := 500;
           payload := uncaught SQLITE_CONSTRAINT_FOREIGNKEY |},
        roster_with_history)
  /\ employee_exists (snd (delete_employees_id 1 roster_with_history)) 1
     = true.
Proof.
  split; [|repeat split].
  apply (reachable_serve true _
           (PUT_cases_id 1 "Mala Julho" (Some 1) "PARADO" None)).
  apply (reachable_serve true _
           (POST_cases 1700000000000 1700000000001 "Mala Julho" (Some 1) None
              [{| Item.product_id := 1; Item.quantity := 2;
                  Item.price := 100 |};
               {| Item.product_id := 2; Item.quantity := 1;
                  Item.price := 3000 |}])).
  apply (reachable_serve true _
           (POST_products "Anel Solitario" "anel" 3000 None)).
  apply (reachable_serve true _
           (POST_products "Brinco Argola" "brinco" 100 None)).
  apply (reachable_serve true _ (POST_employees "Bia" "5511888880000")).
  apply (reachable_serve true _ (POST_employees "Ana" "5511999990000")).
  apply reachable_start.
Qed.

(** What the handler does, situation by situation.  It answers with the
    conflict error exactly when some case linked to the agent is in field,
    and then the database, the agent's row included, is untouched.  With no
    case in field it goes on to the [DELETE].  When no case and no manual
    commission references the agent, or the connection does not enforce
    foreign keys, the row is removed and no case is touched.  When the
    connection enforces the declared foreign keys and a case or a manual
    commission still references the agent, the [DELETE] is rejected: the
    request ends in a 500, not in the conflict, and nothing is changed. *)
Theorem delete_employee_guard (d : database) (id : Z) :
  (fst (delete_employees_id id d) = conflict <-> has_case_in_field d id)
  /\ (has_case_in_field d id -> snd (delete_employees_id id d) = d)
  /\ (~ has_case_in_field d id ->
      foreign_keys d = false \/ employee_referenced d id = false ->
      fst (delete_employees_id id d) = res_json json_success
      /\ rows (employees (snd (delete_employees_id id d)))
         = filter (fun e => negb (Employee.id e =? id)) (rows (employees d))
      /\ employee_exists (snd (delete_employees_id id d)) id = false
      /\ cases (snd (delete_employees_id id d)) = cases d
      /\ case_items (snd (delete_employees_id id d)) = case_items d
      /\ manual_commissions (snd (delete_employees_id id d))
         = manual_commissions d
      /\ logs (snd (delete_employees_id id d)) = logs d)
  /\ (~ has_case_in_field d id ->
      foreign_keys d = true ->
      employee_exists d id = true -> employee_referenced d id = true ->
      delete_employees_id id d
      = ({| status_code := 500;
            payload := uncaught SQLITE_CONSTRAINT_FOREIGNKEY |}, d)).
Proof.
  split; [|split; [|split]].
  - split.
    + intro H.
      destruct (0 <? count_cases_in_field d id) eqn:E;
        [apply count_cases_in_field_pos; exact E|].
      assert (N : ~ has_case_in_field d id)
        by (rewrite <- count_cases_in_field_pos; congruence).
      rewrite (delete_employees_id_free d id N) in H.
      destruct (fk_check d _); discriminate H.
    + intro H. rewrite (delete_employees_id_blocked d id H). reflexivity.
  - intro H. rewrite (delete_employees_id_blocked d id H). reflexivity.
  - intros N Hfk. rewrite (delete_employees_id_free d id N).
    assert (E : fk_check d
                  (negb (employee_exists d id && employee_referenced d id))
                = true).
    { unfold fk_check. destruct Hfk as [-> | ->]; [reflexivity|].
      rewrite andb_false_r. destruct (foreign_keys d); reflexivity. }
    rewrite E. simpl. repeat split.
    unfold employee_exists. simpl. apply filter_negb_existsb.
  - intros N Hfk He Hr. rewrite (delete_employees_id_free d id N).
    unfold fk_check. rewrite Hfk, He, Hr. reflexivity.
Qed.

Lemma delete_employee_guard_witness :
  fst (delete_employees_id 2 shop) = res_json json_success
  /\ map Employee.id (rows (employees (snd (delete_employees_id 2 shop))))
     = [1]
  /\ cases (snd (delete_employees_id 2 shop)) = cases shop.
Proof.
  destruct (delete_employee_guard shop 2) as [_ [_ [H _]]].
  destruct H as [Ha [Hb [_ [Hc _]]]].
  - intros [c [[] _]].
  - right. reflexivity.
  - split; [exact Ha|]. split; [rewrite Hb; reflexivity|exact Hc].
Defined.

(** ** Deleting a case *)

Lemma delete_cases_id_run (d : database) (id : Z) :
  delete_cases_id id d
  = (res_json json_success,
     set_cases
       (set_logs
          (set_case_items d (with_rows (case_items d)
             (filter (fun i => negb (CaseItem.case_id i =? id))
                     (rows (case_items d)))))
          (with_rows (logs d)
             (filter (fun l => negb (null_eqb (Log.case_id l) id))
                     (rows (logs d)))))
       (with_rows (cases d)
          (filter (fun c => negb (Case.id c =? id)) (rows (cases d))))).
Proof.
  unfold delete_cases_id, delete_case_items, delete_logs, delete_case.
  run_handler.
  rewrite (filter_negb_existsb (fun i => CaseItem.case_id i =? id)).
  rewrite andb_false_r. unfold fk_check; simpl.
  destruct (foreign_keys d); reflexivity.
Qed.

(** C6. Deleting a case always succeeds and removes the case row, all of its
    line items and every audit log entry that references its id: afterwards
    no line item and no log entry with that case id remains.  Rows of other
    cases, and the other tables, stay. *)
Theorem delete_case_removes_items_and_logs (d : database) (id : Z) :
  fst (delete_cases_id id d) = res_json json_success
  /\ (forall i, In i (rows (case_items (snd (delete_cases_id id d)))) ->
        CaseItem.case_id i <> id)
  /\ (forall l, In l (rows (logs (snd (delete_cases_id id d)))) ->
        Log.case_id l <> Some id)
  /\ (forall c, In c (rows (cases (snd (delete_cases_id id d)))) ->
        Case.id c <> id)
  /\ (forall i, CaseItem.case_id i <> id ->
        (In i (rows (case_items (snd (delete_cases_id id d))))
         <-> In i (rows (case_items d))))
  /\ (forall l, Log.case_id l <> Some id ->
        (In l (rows (logs (snd (delete_cases_id id d))))
         <-> In l (rows (logs d))))
  /\ (forall c, Case.id c <> id ->
        (In c (rows (cases (snd (delete_cases_id id d))))
         <-> In c (rows (cases d))))
  /\ employees (snd (delete_cases_id id d)) = employees d
  /\ products (snd (delete_cases_id id d)) = products d
  /\ manual_commissions (snd (delete_cases_id id d)) = manual_commissions d.
Proof.
  rewrite delete_cases_id_run. simpl.
  repeat apply conj; try reflexivity.
  - intros i Hi. apply filter_In in Hi. destruct Hi as [_ Hi].
    apply negb_true_iff, Z.eqb_neq in Hi. exact Hi.
  - intros l Hl. apply filter_In in Hl. destruct Hl as [_ Hl].
    apply negb_true_iff in Hl. intro E.
    apply null_eqb_eq in E. congruence.
  - intros c Hc. apply filter_In in Hc. destruct Hc as [_ Hc].
    apply negb_true_iff, Z.eqb_neq in Hc. exact Hc.
  - intros i Hi. rewrite filter_In. apply Z.eqb_neq in Hi. rewrite Hi.
    simpl. tauto.
  - intros l Hl. rewrite filter_In.
    destruct (null_eqb (Log.case_id l) id) eqn:E.
    + apply null_eqb_eq in E. contradiction.
    + simpl. tauto.
  - intros c Hc. rewrite filter_In. apply Z.eqb_neq in Hc. rewrite Hc.
    simpl. tauto.
Qed.

(** ** The case ledger *)

Lemma insert_items_done (caseId : Z) (items : list Item.t) :
  forall (totalValue : Q) (d : database),
  items_accepted d caseId items = true ->
  insert_items caseId items totalValue d
  = Done (loop_total items totalValue)
      (set_case_items d
         {| rows := rows (case_items d)
                    ++ item_rows caseId (next_id (case_items d)) items;
            seq := seq (case_items d) + Z.of_nat (List.length items) |}).
Proof.
  induction items as [|item rest IH]; intros totalValue d H.
  - simpl. unfold ret. f_equal.
    rewrite app_nil_r, Z.add_0_r. destruct d as [? ? ? ? [? ?] ? ?].
    reflexivity.
  - simpl in H. apply andb_true_iff in H. destruct H as [H1 H2].
    cbn [insert_items]. unfold bind at 1. unfold insert_case_item.
    rewrite H1.
    rewrite IH by exact H2.
    unfold loop_total. cbn [fold_left]. f_equal.
    unfold set_case_items, append_row, next_id. cbn.
    f_equal. f_equal.
    + rewrite <- app_assoc. reflexivity.
    + lia.
Qed.

Lemma insert_items_throw (caseId : Z) (items : list Item.t) :
  forall (totalValue : Q) (d : database),
  items_accepted d caseId items = false ->
  exists d', insert_items caseId items totalValue d
             = Throw SQLITE_CONSTRAINT_FOREIGNKEY d'.
Proof.
  induction items as [|item rest IH]; intros totalValue d H.
  - discriminate H.
  - cbn [insert_items]. unfold bind at 1. unfold insert_case_item.
    simpl in H.
    destruct (fk_check d (case_exists d caseId
                          && product_exists d (Item.product_id item))) eqn:E.
    + simpl in H. apply IH. exact H.
    + exists d. reflexivity.
Qed.


Lemma loop_total_item_rows (caseId first : Z) (items : list Item.t)
    (totalValue : Q) :
  loop_total items totalValue
  = fold_left (fun acc i =>
                 (acc + CaseItem.price_at_time i
                        * inject_Z (CaseItem.quantity i))%Q)
              (item_rows caseId first items) totalValue.
Proof.
  revert first totalValue.
  induction items as [|item rest IH]; intros first totalValue;
    [reflexivity|].
  unfold loop_total in *. cbn [fold_left item_rows].
  cbn [CaseItem.price_at_time CaseItem.quantity]. apply IH.
Qed.

Lemma loop_total_running_total (caseId first : Z) (items : list Item.t) :
  loop_total items 0 = running_total (item_rows caseId first items).
Proof. apply loop_total_item_rows. Qed.

Lemma running_total_line_total (l : list CaseItem.t) :
  (running_total l == line_total l)%Q.
Proof.
  unfold running_total, line_total.
  assert (G : forall a,
            (fold_left (fun acc i =>
                          acc + CaseItem.price_at_time i
                                * inject_Z (CaseItem.quantity i)) l a
             == a + Qsum (map subtotal l))%Q).
  { induction l as [|i r IH]; intro a; cbn [fold_left map Qsum]; [ring|].
    rewrite IH. unfold subtotal. ring. }
  rewrite G. ring.
Qed.

Lemma filter_item_rows_same (caseId first : Z) (items : list Item.t) :
  filter (fun i => CaseItem.case_id i =? caseId) (item_rows caseId first items)
  = item_rows caseId first items.
Proof.
  revert first. induction items as [|item rest IH]; intro first;
    [reflexivity|].
  cbn. rewrite Z.eqb_refl, IH. reflexivity.
Qed.

Lemma filter_item_rows_other (caseId other first : Z) (items : list Item.t) :
  caseId <> other ->
  filter (fun i => CaseItem.case_id i =? other) (item_rows caseId first items)
  = [].
Proof.
  intro N. revert first. induction items as [|item rest IH]; intro first;
    [reflexivity|].
  cbn. apply Z.eqb_neq in N. rewrite N, IH. reflexivity.
Qed.

Lemma fk_check_andb (d : database) (a b : bool) :
  fk_check d (a && b) = fk_check d a && fk_check d b.
Proof. unfold fk_check. destruct (foreign_keys d); reflexivity. Qed.

Lemma forallb_fk_check {A : Type} (d : database) (f : A -> bool)
    (l : list A) :
  forallb (fun x => fk_check d (f x)) l = fk_check d (forallb f l).
Proof.
  induction l as [|x r IH]; simpl.
  - unfold fk_check. destruct (foreign_keys d); reflexivity.
  - rewrite IH, fk_check_andb. reflexivity.
Qed.

Lemma existsb_last {A : Type} (f : A -> bool) (l : list A) (x : A) :
  f x = true -> existsb f (l ++ [x]) = true.
Proof.
  intro H. rewrite existsb_app. simpl. rewrite H.
  rewrite orb_true_r. reflexivity.
Qed.

(** What [POST /api/cases] does: either every foreign-key check passes and
    the transaction commits, or one fails and nothing is left of it. *)
Lemma post_cases_run (clock_Date clock_now : Z) (name : string)
    (employee_id : option Z) (photo : option string) (items : list Item.t)
    (d : database) :
  post_cases clock_Date clock_now name employee_id photo items d
  = if fk_check d (references_resolve d employee_id items)
    then (res_json (json_id (next_id (cases d))),
          {| foreign_keys := foreign_keys d;
             employees := employees d;
             products := products d;
             cases :=
               {| rows := map (set_total_value (loop_total items 0)
                                 (next_id (cases d)))
                            (rows (cases d)
                             ++ [{| Case.id := next_id (cases d);
                                    Case.name := name;
                                    Case.employee_id := employee_id;
                                    Case.photo := photo;
                                    Case.delivery_date := clock_Date;
                                    Case.return_date :=
                                      clock_now + 5184000000;
                                    Case.status :=
                                      if truthy employee_id
                                      then "EM_CAMPO" else "PARADO";
                                    Case.total_value := 0 |}]);
                  seq := next_id (cases d) |};
             case_items :=
               {| rows := rows (case_items d)
                          ++ item_rows (next_id (cases d))
                               (next_id (case_items d)) items;
                  seq := seq (case_items d)
                         + Z.of_nat (List.length items) |};
             manual_commissions := manual_commissions d;
             logs := append_row (logs d) (created_log d items) |})
    else ({| status_code := 500;
             payload := uncaught SQLITE_CONSTRAINT_FOREIGNKEY |}, d).
Proof.
  unfold references_resolve. rewrite fk_check_andb.
  unfold post_cases, route, transaction.
  unfold bind at 1 2. unfold insert_case.
  destruct (fk_check d (employee_ref_ok d employee_id)) eqn:E1;
    [|reflexivity].
  cbn [andb].
  rewrite <- forallb_fk_check.
  set (c0 := {| Case.id := next_id (cases d); Case.name := name;
                Case.employee_id := employee_id; Case.photo := photo;
                Case.delivery_date := clock_Date;
                Case.return_date := clock_now + 60 * 24 * 60 * 60 * 1000;
                Case.status := if truthy employee_id
                               then "EM_CAMPO"%string else "PARADO"%string;
                Case.total_value := 0%Q |}).
  set (d1 := set_cases d (append_row (cases d) c0)).
  assert (Hacc : items_accepted d1 (next_id (cases d)) items
                 = forallb (fun x => fk_check d
                              (product_exists d (Item.product_id x))) items).
  { unfold items_accepted. clear E1.
    induction items as [|item rest IH]; [reflexivity|].
    cbn [forallb]. rewrite IH. f_equal.
    unfold case_exists, d1. cbn [cases set_cases append_row rows].
    rewrite existsb_last by apply Z.eqb_refl. reflexivity. }
  unfold bind at 1.
  destruct (forallb _ items) eqn:E2.
  - rewrite (insert_items_done _ _ _ _ Hacc). reflexivity.
  - destruct (insert_items_throw _ _ 0%Q _ Hacc) as [d' ->]. reflexivity.
Qed.

Lemma set_scalars_id (name : string) (employee_id : option Z)
    (status : string) (id : Z) (c : Case.t) :
  Case.id (set_scalars name employee_id status id c) = Case.id c.
Proof. unfold set_scalars. destruct (Case.id c =? id); reflexivity. Qed.

Lemma set_total_value_id (total_value : Q) (id : Z) (c : Case.t) :
  Case.id (set_total_value total_value id c) = Case.id c.
Proof. unfold set_total_value. destruct (Case.id c =? id); reflexivity. Qed.

Lemma existsb_map_id {A : Type} (key : A -> Z) (f : A -> A) (id : Z)
    (l : list A) :
  (forall x, key (f x) = key x) ->
  existsb (fun x => key x =? id) (map f l) = existsb (fun x => key x =? id) l.
Proof.
  intro H. induction l as [|a r IH]; simpl; [reflexivity|].
  rewrite H, IH. reflexivity.
Qed.

(** What [PUT /api/cases/:id] does when the body carries no [items]. *)
Lemma put_cases_id_run_scalars (caseId : Z) (name : string)
    (employee_id : option Z) (status : string) (d : database) :
  put_cases_id caseId name employee_id status None d
  = if fk_check d (negb (case_exists d caseId)
                   || employee_ref_ok d employee_id)
    then (res_json json_success,
          {| foreign_keys := foreign_keys d;
             employees := employees d;
             products := products d;
             cases := with_rows (cases d)
                        (map (set_scalars name employee_id status caseId)
                             (rows (cases d)));
             case_items := case_items d;
             manual_commissions := manual_commissions d;
             logs := append_row (logs d) (updated_log d caseId) |})
    else ({| status_code := 500;
             payload := uncaught SQLITE_CONSTRAINT_FOREIGNKEY |}, d).
Proof.
  unfold put_cases_id, route, transaction.
  unfold bind at 1 2. unfold update_case.
  destruct (fk_check d _); reflexivity.
Qed.

(** What [PUT /api/cases/:id] does when the body carries [items]. *)
Lemma put_cases_id_run_items (caseId : Z) (name : string)
    (employee_id : option Z) (status : string) (items : list Item.t)
    (d : database) :
  put_cases_id caseId name employee_id status (Some items) d
  = if fk_check d ((negb (case_exists d caseId)
                    || employee_ref_ok d employee_id)
                   && forallb (fun item =>
                                 case_exists d caseId
                                 && product_exists d (Item.product_id item))
                        items)
    then (res_json json_success,
          {| foreign_keys := foreign_keys d;
             employees := employees d;
             products := products d;
             cases := with_rows (cases d)
                        (map (set_total_value (loop_total items 0) caseId)
                           (map (set_scalars name employee_id status caseId)
                                (rows (cases d))));
             case_items :=
               {| rows := filter (fun i => negb (CaseItem.case_id i =? caseId))
                                 (rows (case_items d))
                          ++ item_rows caseId (next_id (case_items d)) items;
                  seq := seq (case_items d)
                         + Z.of_nat (List.length items) |};
             manual_commissions := manual_commissions d;
             logs := append_row (logs d) (updated_log d caseId) |})
    else ({| status_code := 500;
             payload := uncaught SQLITE_CONSTRAINT_FOREIGNKEY |}, d).
Proof.
  rewrite fk_check_andb.
  unfold put_cases_id, route, transaction.
  unfold bind at 1 2. unfold update_case.
  destruct (fk_check d (negb (case_exists d caseId)
                        || employee_ref_ok d employee_id)) eqn:E1;
    [|reflexivity].
  cbn [andb]. rewrite <- forallb_fk_check.
  set (d1 := set_cases d _).
  unfold bind at 1 2. unfold delete_case_items at 1.
  set (d2 := set_case_items d1 _).
  assert (Hacc : items_accepted d2 caseId items
                 = forallb (fun x => fk_check d
                              (case_exists d caseId
                               && product_exists d (Item.product_id x)))
                     items).
  { unfold items_accepted. clear E1.
    induction items as [|item rest IH]; [reflexivity|].
    cbn [forallb]. rewrite IH. f_equal.
    unfold case_exists, d2, d1.
    cbn [cases set_cases set_case_items with_rows rows].
    rewrite (existsb_map_id Case.id) by apply set_scalars_id.
    reflexivity. }
  unfold bind at 1.
  destruct (forallb _ items) eqn:E2.
  - rewrite (insert_items_done _ _ _ _ Hacc). reflexivity.
  - destruct (insert_items_throw _ _ 0%Q _ Hacc) as [d' ->]. reflexivity.
Qed.

Lemma loop_total_Qsum (items : list Item.t) (totalValue : Q) :
  (loop_total items totalValue == totalValue + Qsum (map item_value items))%Q.
Proof.
  revert totalValue. induction items as [|item rest IH]; intro totalValue.
  - unfold loop_total. simpl. ring.
  - unfold loop_total in *. cbn [fold_left map Qsum]. rewrite IH.
    unfold item_value at 2. ring.
Qed.

Lemma item_rows_columns (caseId first : Z) (items : list Item.t) :
  map (fun i => (CaseItem.case_id i, CaseItem.product_id i,
                 CaseItem.quantity i, CaseItem.price_at_time i))
      (item_rows caseId first items)
  = map (fun item => (caseId, Item.product_id item, Item.quantity item,
                      Item.price item)) items.
Proof.
  revert first. induction items as [|item rest IH]; intro first;
    [reflexivity|].
  cbn [item_rows map]. rewrite IH. reflexivity.
Qed.

Lemma map_set_total_value_fresh (total_value : Q) (s : Z) (l : list Case.t) :
  (forall c, In c l -> Case.id c <= s) ->
  map (set_total_value total_value (s + 1)) l = l.
Proof.
  intro H. induction l as [|c r IH]; [reflexivity|].
  cbn [map]. rewrite IH by (intros x Hx; apply H; right; exact Hx).
  unfold set_total_value.
  assert (E : (Case.id c =? s + 1) = false)
    by (apply Z.eqb_neq; specialize (H c (or_introl eq_refl)); lia).
  rewrite E. reflexivity.
Qed.

Lemma find_fresh_last (s : Z) (l : list Case.t) (c : Case.t) :
  (forall x, In x l -> Case.id x <= s) -> Case.id c = s + 1 ->
  find (fun x => Case.id x =? s + 1) (l ++ [c]) = Some c.
Proof.
  intros H E. induction l as [|a r IH]; cbn [app find].
  - rewrite E, Z.eqb_refl. reflexivity.
  - assert (N : (Case.id a =? s + 1) = false)
      by (apply Z.eqb_neq; specialize (H a (or_introl eq_refl)); lia).
    rewrite N. apply IH. intros x Hx. apply H. right; exact Hx.
Qed.

Lemma find_map_id (f : Case.t -> Case.t) (id : Z) (l : list Case.t) :
  (forall x, Case.id (f x) = Case.id x) ->
  find (fun x => Case.id x =? id) (map f l)
  = option_map f (find (fun x => Case.id x =? id) l).
Proof.
  intro H. induction l as [|a r IH]; [reflexivity|].
  cbn [map find]. rewrite H. destruct (Case.id a =? id); [reflexivity|].
  exact IH.
Qed.

Lemma filter_fresh_nil (s : Z) (l : list CaseItem.t) :
  (forall i, In i l -> CaseItem.case_id i <= s) ->
  filter (fun i => CaseItem.case_id i =? s + 1) l = [].
Proof.
  intro H. induction l as [|a r IH]; [reflexivity|].
  cbn [filter].
  assert (N : (CaseItem.case_id a =? s + 1) = false)
    by (apply Z.eqb_neq; specialize (H a (or_introl eq_refl)); lia).
  rewrite N. apply IH. intros x Hx. apply H. right; exact Hx.
Qed.

Lemma filter_after_delete {A : Type} (sel : A -> bool) (l : list A) :
  filter sel (filter (fun x => negb (sel x)) l) = [].
Proof.
  induction l as [|a r IH]; [reflexivity|].
  cbn [filter]. destruct (sel a) eqn:E; cbn [negb]; [exact IH|].
  cbn [filter]. rewrite E. exact IH.
Qed.

Lemma filter_other_after_delete (id other : Z) (l : list CaseItem.t) :
  other <> id ->
  filter (fun i => CaseItem.case_id i =? other)
         (filter (fun i => negb (CaseItem.case_id i =? id)) l)
  = filter (fun i => CaseItem.case_id i =? other) l.
Proof.
  intro N. induction l as [|a r IH]; [reflexivity|].
  cbn [filter]. destruct (CaseItem.case_id a =? id) eqn:E; cbn [negb].
  - apply Z.eqb_eq in E.
    assert (F : (CaseItem.case_id a =? other) = false)
      by (apply Z.eqb_neq; lia).
    rewrite F. exact IH.
  - cbn [filter]. rewrite IH. reflexivity.
Qed.

Lemma fk_check_of_premise (d : database) (b : bool) :
  (foreign_keys d = true -> b = true) -> fk_check d b = true.
Proof.
  unfold fk_check. destruct (foreign_keys d); [|reflexivity].
  intro H; apply H; reflexivity.
Qed.

Lemma template_count_decimal (n : nat) :
  option_map Nat.of_uint (NilEmpty.uint_of_string (template_count n)) = Some n
  /\ (template_count n = "0"%string
      \/ exists a rest, template_count n = String a rest /\ a <> "0"%char).
Proof.
  unfold template_count. split.
  - rewrite NilEmpty.usu. cbn [option_map].
    rewrite DecimalNat.Unsigned.of_to. reflexivity.
  - assert (E : Nat.to_uint n = Decimal.unorm (Nat.to_uint n))
      by (rewrite <- DecimalNat.Unsigned.to_of, DecimalNat.Unsigned.of_to;
          reflexivity).
    rewrite E. unfold Decimal.unorm.
    pose proof (DecimalFacts.nzhead_nonzero (Nat.to_uint n)) as Z.
    destruct (Decimal.nzhead (Nat.to_uint n)) as [|u|u|u|u|u|u|u|u|u|u];
      [left; reflexivity
      |exfalso; apply (Z u); reflexivity
      |right; eexists; eexists; split; [reflexivity|discriminate]..].
Qed.

(** C7. Creating a case from a name, an optional agent, an optional photo
    and an item list answers with the new id and leaves one new row in
    [cases]: delivery timestamp the instant [new Date()] read, return
    timestamp the instant [Date.now()] read plus 60 days, status EM_CAMPO
    when the request names an agent (any id but 0, which no agent has and
    JavaScript takes for absent) and PARADO when it names none,
    [total_value] the sum of price times quantity over the items, added in
    the order of the items.  Every item becomes a line item of the new
    case, in order, and one CREATE entry is appended to the log, whose text
    is "Maleta criada com N itens." with N the number of items in decimal,
    without leading zeros.  The hypotheses: the ids in [cases] are ones the
    table has allocated, and, where the connection enforces foreign keys,
    the agent and the products exist. *)
Theorem post_cases_creates (clock_Date clock_now : Z) (name : string)
    (employee_id : option Z) (photo : option string) (items : list Item.t)
    (d : database) :
  (forall c, In c (rows (cases d)) -> Case.id c <= seq (cases d)) ->
  (foreign_keys d = true -> references_resolve d employee_id items = true) ->
  let id := next_id (cases d) in
  let d' := snd (post_cases clock_Date clock_now name employee_id photo
                   items d) in
  fst (post_cases clock_Date clock_now name employee_id photo items d)
  = res_json (json_id id)
  /\ (exists c,
        rows (cases d') = rows (cases d) ++ [c]
        /\ Case.id c = id /\ Case.name c = name
        /\ Case.employee_id c = employee_id /\ Case.photo c = photo
        /\ Case.delivery_date c = clock_Date
        /\ Case.return_date c = clock_now + 60 * (24 * 60 * 60 * 1000)
        /\ (forall k, employee_id = Some k -> k <> 0 ->
                      Case.status c = "EM_CAMPO"%string)
        /\ (employee_id = None -> Case.status c = "PARADO"%string)
        /\ (employee_id = Some 0 -> Case.status c = "PARADO"%string)
        /\ Case.total_value c
           = fold_left (fun acc item =>
                          (acc + Item.price item
                                 * inject_Z (Item.quantity item))%Q)
                       items 0%Q
        /\ (Case.total_value c == Qsum (map item_value items))%Q)
  /\ (exists new_items,
        rows (case_items d') = rows (case_items d) ++ new_items
        /\ map (fun i => (CaseItem.case_id i, CaseItem.product_id i,
                          CaseItem.quantity i, CaseItem.price_at_time i))
               new_items
           = map (fun item => (id, Item.product_id item, Item.quantity item,
                               Item.price item)) items)
  /\ (exists entry count,
        rows (logs d') = rows (logs d) ++ [entry]
        /\ Log.id entry = next_id (logs d)
        /\ Log.case_id entry = Some id
        /\ Log.action entry = "CREATE"%string
        /\ Log.details entry
           = ("Maleta criada com " ++ count ++ " itens.")%string
        /\ option_map Nat.of_uint (NilEmpty.uint_of_string count)
           = Some (List.length items)
        /\ (count = "0"%string
            \/ exists a rest, count = String a rest /\ a <> "0"%char))
  /\ employees d' = employees d
  /\ products d' = products d
  /\ manual_commissions d' = manual_commissions d.
Proof.
  intros Hids Hfk id d'. subst id d'.
  rewrite post_cases_run, (fk_check_of_premise _ _ Hfk).
  cbn [fst snd cases case_items logs employees products manual_commissions
       rows append_row].
  split; [reflexivity|]. split; [|split; [|split]].
  - exists (created_case d clock_Date clock_now name employee_id photo items).
    split.
    + rewrite map_app. unfold next_id at 1.
      rewrite (map_set_total_value_fresh _ _ _ Hids).
      cbn [map]. unfold set_total_value. cbn [Case.id].
      rewrite Z.eqb_refl. reflexivity.
    + cbn [created_case Case.id Case.name Case.employee_id Case.photo
           Case.delivery_date Case.return_date Case.status
           Case.total_value].
      repeat (split; [reflexivity|]).
      split; [|split; [|split; [|split]]].
      * intros k -> N. cbn [truthy]. apply Z.eqb_neq in N. rewrite N.
        reflexivity.
      * intros ->. reflexivity.
      * intros ->. reflexivity.
      * reflexivity.
      * rewrite loop_total_Qsum. ring.
  - eexists. split; [reflexivity|]. apply item_rows_columns.
  - destruct (template_count_decimal (List.length items)) as [P S].
    eexists. exists (template_count (List.length items)).
    split; [reflexivity|]. cbn [Log.id Log.case_id Log.action Log.details].
    repeat (split; [reflexivity|]). split; [exact P|exact S].
  - repeat split.
Qed.

Lemma post_cases_creates_witness :
  exists c entry,
    rows (cases shop_with_case) = [c]
    /\ Case.status c = "EM_CAMPO"%string
    /\ Case.total_value c = 3200%Q
    /\ rows (logs shop_with_case) = [entry]
    /\ Log.details entry = "Maleta criada com 2 itens."%string.
Proof.
  destruct (post_cases_creates 1700000000000 1700000000001 "Mala Julho"
              (Some 1) None
              [{| Item.product_id := 1; Item.quantity := 2;
                  Item.price := 100 |};
               {| Item.product_id := 2; Item.quantity := 1;
                  Item.price := 3000 |}] shop)
    as [_ [Hcase [_ [L _]]]].
  - intros c [].
  - reflexivity.
  - destruct Hcase as (c & Hc & _ & _ & _ & _ & _ & _ & Hs & _ & _ & Ht & _).
    destruct L as [entry [count [Hl _]]].
    exists c, entry. split; [exact Hc|].
    split; [apply (Hs 1); [reflexivity|discriminate]|].
    split; [rewrite Ht; reflexivity|]. split; [exact Hl|].
    assert (E : last (rows (logs shop_with_case)) entry = entry)
      by (unfold shop_with_case; rewrite Hl; apply last_last).
    rewrite <- E. reflexivity.
Defined.

Lemma find_case_exists (d : database) (id : Z) (c : Case.t) :
  find_case d id = Some c -> case_exists d id = true /\ Case.id c = id.
Proof.
  unfold find_case, case_exists. intro H.
  apply find_some in H. destruct H as [Hin E]. split.
  - apply existsb_exists. exists c. split; assumption.
  - apply Z.eqb_eq; exact E.
Qed.

Lemma post_cases_atomic (clock_Date clock_now : Z) (name : string)
    (employee_id : option Z) (photo : option string) (items : list Item.t)
    (d : database) :
  fst (post_cases clock_Date clock_now name employee_id photo items d)
  <> res_json (json_id (next_id (cases d))) ->
  post_cases clock_Date clock_now name employee_id photo items d
  = ({| status_code := 500;
        payload := uncaught SQLITE_CONSTRAINT_FOREIGNKEY |}, d).
Proof.
  rewrite post_cases_run.
  destruct (fk_check d _); [|reflexivity].
  intro H. exfalso. apply H. reflexivity.
Qed.

Lemma put_cases_id_atomic (caseId : Z) (name : string)
    (employee_id : option Z) (status : string)
    (items : option (list Item.t)) (d : database) :
  fst (put_cases_id caseId name employee_id status items d)
  <> res_json json_success ->
  put_cases_id caseId name employee_id status items d
  = ({| status_code := 500;
        payload := uncaught SQLITE_CONSTRAINT_FOREIGNKEY |}, d).
Proof.
  destruct items as [items|].
  - rewrite put_cases_id_run_items.
    destruct (fk_check d _); [|reflexivity].
    intro H. exfalso. apply H. reflexivity.
  - rewrite put_cases_id_run_scalars.
    destruct (fk_check d _); [|reflexivity].
    intro H. exfalso. apply H. reflexivity.
Qed.

Lemma put_cases_id_items_accepted (d : database) (caseId : Z)
    (employee_id : option Z) (items : list Item.t) :
  case_exists d caseId = true ->
  (foreign_keys d = true -> references_resolve d employee_id items = true) ->
  fk_check d ((negb (case_exists d caseId) || employee_ref_ok d employee_id)
              && forallb (fun item =>
                            case_exists d caseId
                            && product_exists d (Item.product_id item))
                   items) = true.
Proof.
  intros Hc Hfk. apply fk_check_of_premise. intro F.
  specialize (Hfk F). unfold references_resolve in Hfk.
  apply andb_true_iff in Hfk. destruct Hfk as [He Hp].
  rewrite Hc, He. cbn [negb orb andb].
  rewrite forallb_forall in *. intros item Hin. apply Hp. exact Hin.
Qed.

Lemma binary64_insert_items_running (items : list (float * float)) :
  forall (done : list (float * float)) (totalValue : float),
  totalValue = Binary64.running_total done ->
  fst (Binary64.insert_items items totalValue) = items
  /\ snd (Binary64.insert_items items totalValue)
     = Binary64.running_total (done ++ items).
Proof.
  induction items as [|[price quantity] rest IH]; intros done totalValue E.
  - cbn [Binary64.insert_items fst snd]. rewrite app_nil_r.
    split; [reflexivity|exact E].
  - cbn [Binary64.insert_items].
    destruct (IH (done ++ [(price, quantity)])
                 (totalValue + price * quantity)%float) as [H1 H2].
    { unfold Binary64.running_total in *. rewrite fold_left_app, <- E.
      reflexivity. }
    destruct (Binary64.insert_items rest (totalValue + price * quantity)%float)
      as [inserted total].
    cbn [fst snd] in *. split; [rewrite H1; reflexivity|].
    rewrite H2, <- app_assoc. reflexivity.
Qed.

(** C1, as stated, fails on the numbers the program computes with.  For
    three items of one piece each at 0.1, 0.2 and 0.3 the loop inserts rows
    with exactly these prices and stores the total 0.6000000000000001: that
    is not the exact sum of price times quantity over the three rows, and
    not their sum added from the last row to the first, which is 0.6. *)
Lemma stored_total_is_not_the_exact_sum :
  fst (Binary64.insert_items three_tenths 0) = three_tenths
  /\ snd (Binary64.insert_items three_tenths 0) = 0.6000000000000001%float
  /\ Qeq_bool (Binary64.to_Q (snd (Binary64.insert_items three_tenths 0)))
              (Binary64.exact_total
                 (fst (Binary64.insert_items three_tenths 0))) = false
  /\ Binary64.reverse_total (fst (Binary64.insert_items three_tenths 0))
     = 0.6%float
  /\ PrimFloat.eqb (snd (Binary64.insert_items three_tenths 0))
                   (Binary64.reverse_total
                      (fst (Binary64.insert_items three_tenths 0))) = false.
Proof. repeat split; vm_compute; reflexivity. Qed.

(** C1, amended.  A case create, and a case update that supplies an item
    list, leave as the case's stored [total_value] the total that the loop
    of the request accumulated: the running sum of [price_at_time] times
    [quantity] over the line items the case then has, taken from 0 in row
    order.  It is that very number, and the statement uses no law of
    addition or multiplication, so it does not depend on the amounts being
    exact: the last part states it of the loop run on binary64.  Both
    requests run as one transaction: a request that is not answered with
    success leaves the database as it was, so no state with the items
    changed and the total stale is ever committed.  The hypotheses: for a
    create, no row of [cases] or [case_items] carries a case id the table
    has yet to allocate; for an update, the case exists; for both, where the
    connection enforces foreign keys, the agent and the products of the
    request exist. *)
Theorem total_value_matches_line_items (d : database) (name : string)
    (employee_id : option Z) (items : list Item.t) :
  (forall (clock_Date clock_now : Z) (photo : option string),
     (forall c, In c (rows (cases d)) -> Case.id c <= seq (cases d)) ->
     (forall i, In i (rows (case_items d)) ->
        CaseItem.case_id i <= seq (cases d)) ->
     (foreign_keys d = true -> references_resolve d employee_id items = true) ->
     let id := next_id (cases d) in
     let d' := snd (post_cases clock_Date clock_now name employee_id photo
                      items d) in
     fst (post_cases clock_Date clock_now name employee_id photo items d)
     = res_json (json_id id)
     /\ exists c, find_case d' id = Some c
                  /\ Case.total_value c = running_total (items_of d' id))
  /\ (forall (caseId : Z) (status : string) (c0 : Case.t),
        find_case d caseId = Some c0 ->
        (foreign_keys d = true ->
         references_resolve d employee_id items = true) ->
        let d' := snd (put_cases_id caseId name employee_id status
                         (Some items) d) in
        fst (put_cases_id caseId name employee_id status (Some items) d)
        = res_json json_success
        /\ exists c, find_case d' caseId = Some c
                     /\ Case.total_value c
                        = running_total (items_of d' caseId))
  /\ (forall (clock_Date clock_now : Z) (photo : option string),
        fst (post_cases clock_Date clock_now name employee_id photo items d)
        <> res_json (json_id (next_id (cases d))) ->
        snd (post_cases clock_Date clock_now name employee_id photo items d)
        = d)
  /\ (forall (caseId : Z) (status : string),
        fst (put_cases_id caseId name employee_id status (Some items) d)
        <> res_json json_success ->
        snd (put_cases_id caseId name employee_id status (Some items) d) = d)
  /\ (forall items64 : list (float * float),
        fst (Binary64.insert_items items64 0) = items64
        /\ snd (Binary64.insert_items items64 0)
           = Binary64.running_total (fst (Binary64.insert_items items64 0))).
Proof.
  split; [|split; [|split; [|split]]].
  - intros clock_Date clock_now photo Hids Hitems Hfk id d'. subst id d'.
    rewrite post_cases_run, (fk_check_of_premise _ _ Hfk).
    cbn [fst snd]. split; [reflexivity|].
    unfold find_case, items_of.
    cbn [cases case_items rows].
    rewrite find_map_id by apply set_total_value_id.
    unfold next_id.
    rewrite find_fresh_last by (assumption || reflexivity).
    cbn [option_map]. eexists. split; [reflexivity|].
    unfold set_total_value. cbn [Case.id]. rewrite Z.eqb_refl.
    cbn [Case.total_value].
    rewrite filter_app, (filter_fresh_nil _ _ Hitems).
    rewrite filter_item_rows_same. cbn [app].
    apply loop_total_running_total.
  - intros caseId status c0 Hfind Hfk d'. subst d'.
    destruct (find_case_exists _ _ _ Hfind) as [Hex Hid].
    rewrite put_cases_id_run_items,
      (put_cases_id_items_accepted _ _ _ _ Hex Hfk).
    cbn [fst snd]. split; [reflexivity|].
    unfold find_case, items_of.
    cbn [cases case_items rows with_rows].
    rewrite !find_map_id
      by (apply set_total_value_id || apply set_scalars_id).
    unfold find_case in Hfind. rewrite Hfind. cbn [option_map].
    eexists. split; [reflexivity|].
    unfold set_total_value. rewrite set_scalars_id, Hid, Z.eqb_refl.
    cbn [Case.total_value].
    rewrite filter_app.
    rewrite (filter_after_delete (fun i => CaseItem.case_id i =? caseId)).
    rewrite filter_item_rows_same. cbn [app].
    apply loop_total_running_total.
  - intros clock_Date clock_now photo H.
    rewrite (post_cases_atomic _ _ _ _ _ _ _ H). reflexivity.
  - intros caseId status H.
    rewrite (put_cases_id_atomic _ _ _ _ _ _ H). reflexivity.
  - intro items64.
    destruct (binary64_insert_items_running items64 [] 0%float eq_refl)
      as [H1 H2].
    split; [exact H1|]. rewrite H2, H1. reflexivity.
Qed.

Lemma total_value_matches_line_items_witness :
  exists c, find_case shop_with_case 1 = Some c
            /\ Case.total_value c = running_total (items_of shop_with_case 1)
            /\ Case.total_value c = 3200%Q.
Proof.
  destruct (total_value_matches_line_items shop "Mala Julho" (Some 1)
              [{| Item.product_id := 1; Item.quantity := 2;
                  Item.price := 100 |};
               {| Item.product_id := 2; Item.quantity := 1;
                  Item.price := 3000 |}]) as [H _].
  destruct (H 1700000000000 1700000000001 None) as [_ [c [Hc Ht]]].
  - intros c [].
  - intros i [].
  - reflexivity.
  - exists c. split; [exact Hc|]. split; [exact Ht|].
    rewrite Ht. reflexivity.
Defined.



Lemma items_of_after_replace (caseId first : Z) (items : list Item.t)
    (l : list CaseItem.t) :
  filter (fun i => CaseItem.case_id i =? caseId)
         (filter (fun i => negb (CaseItem.case_id i =? caseId)) l
          ++ item_rows caseId first items)
  = item_rows caseId first items.
Proof.
  rewrite filter_app.
  rewrite (filter_after_delete (fun i => CaseItem.case_id i =? caseId)).
  rewrite filter_item_rows_same. reflexivity.
Qed.



(** ** Statistics *)







(** ** The ledger invariant over the reachable states *)

Lemma consistent_frame (d d' : database) :
  cases d' = cases d -> case_items d' = case_items d ->
  consistent d -> consistent d'.
Proof.
  intros Ec Ei [H1 H2 H3]. constructor.
  - rewrite Ec. exact H1.
  - unfold case_exists. rewrite Ec, Ei. exact H2.
  - unfold items_of. rewrite Ec, Ei. exact H3.
Qed.

Lemma case_exists_allocated (d : database) (k : Z) :
  (forall c, In c (rows (cases d)) -> Case.id c <= seq (cases d)) ->
  case_exists d k = true -> k <= seq (cases d).
Proof.
  intros H E. unfold case_exists in E. apply existsb_exists in E.
  destruct E as [c [Hin Hc]]. apply Z.eqb_eq in Hc. subst k.
  apply H. exact Hin.
Qed.

Lemma consistent_items_allocated (d : database) :
  consistent d ->
  forall i, In i (rows (case_items d)) -> CaseItem.case_id i <= seq (cases d).
Proof.
  intros [H1 H2 _] i Hi.
  apply (case_exists_allocated d _ H1). apply H2. exact Hi.
Qed.

Lemma In_item_rows (caseId first : Z) (items : list Item.t) (i : CaseItem.t) :
  In i (item_rows caseId first items) ->
  CaseItem.case_id i = caseId /\ exists item, In item items.
Proof.
  revert first. induction items as [|item rest IH]; intros first H;
    [destruct H|].
  destruct H as [<-|H].
  - split; [reflexivity|]. exists item. left; reflexivity.
  - destruct (IH _ H) as [E [x Hx]]. split; [exact E|].
    exists x. right; exact Hx.
Qed.

Lemma set_total_value_other (total_value : Q) (id : Z) (c : Case.t) :
  Case.id c <> id -> set_total_value total_value id c = c.
Proof.
  intro N. unfold set_total_value. apply Z.eqb_neq in N. rewrite N.
  reflexivity.
Qed.

Lemma set_scalars_other (name : string) (employee_id : option Z)
    (status : string) (id : Z) (c : Case.t) :
  Case.id c <> id -> set_scalars name employee_id status id c = c.
Proof.
  intro N. unfold set_scalars. apply Z.eqb_neq in N. rewrite N. reflexivity.
Qed.

Lemma set_scalars_total_value (name : string) (employee_id : option Z)
    (status : string) (id : Z) (c : Case.t) :
  Case.total_value (set_scalars name employee_id status id c)
  = Case.total_value c.
Proof. unfold set_scalars. destruct (Case.id c =? id); reflexivity. Qed.

Lemma consistent_post_cases (clock_Date clock_now : Z) (name : string)
    (employee_id : option Z) (photo : option string) (items : list Item.t)
    (d : database) :
  consistent d ->
  consistent (snd (post_cases clock_Date clock_now name employee_id photo
                     items d)).
Proof.
  intro C. rewrite post_cases_run.
  destruct (fk_check d _); [|exact C].
  pose proof (consistent_items_allocated d C) as Hitems.
  destruct C as [H1 H2 H3]. cbn [snd].
  assert (Hrows :
    map (set_total_value (loop_total items 0) (next_id (cases d)))
        (rows (cases d)
         ++ [{| Case.id := next_id (cases d); Case.name := name;
                Case.employee_id := employee_id; Case.photo := photo;
                Case.delivery_date := clock_Date;
                Case.return_date := clock_now + 5184000000;
                Case.status := if truthy employee_id
                               then "EM_CAMPO"%string else "PARADO"%string;
                Case.total_value := 0%Q |}])
    = rows (cases d)
      ++ [created_case d clock_Date clock_now name employee_id photo items]).
  { rewrite map_app. unfold next_id at 1.
    rewrite (map_set_total_value_fresh _ _ _ H1).
    cbn [map]. unfold set_total_value. cbn [Case.id].
    rewrite Z.eqb_refl. reflexivity. }
  rewrite Hrows. constructor; cbn [cases case_items rows seq].
  - intros c Hc. apply in_app_or in Hc. destruct Hc as [Hc|[<-|[]]].
    + specialize (H1 c Hc). unfold next_id. lia.
    + cbn. lia.
  - intros i Hi. unfold case_exists. cbn [cases rows].
    rewrite existsb_app. apply orb_true_iff.
    apply in_app_or in Hi. destruct Hi as [Hi|Hi].
    + left. apply (H2 i Hi).
    + right. apply In_item_rows in Hi. destruct Hi as [-> _].
      cbn. rewrite Z.eqb_refl. reflexivity.
  - intros c Hc. unfold items_of. cbn [case_items rows].
    rewrite filter_app.
    apply in_app_or in Hc. destruct Hc as [Hc|[<-|[]]].
    + rewrite (filter_item_rows_other (next_id (cases d)) (Case.id c))
        by (specialize (H1 c Hc); unfold next_id; lia).
      rewrite app_nil_r. apply (H3 c Hc).
    + unfold created_case. cbn [Case.id Case.total_value]. unfold next_id.
      rewrite (filter_fresh_nil _ _ Hitems).
      rewrite filter_item_rows_same. cbn [app].
      apply loop_total_running_total.
Qed.

Lemma consistent_delete_cases_id (id : Z) (d : database) :
  consistent d -> consistent (snd (delete_cases_id id d)).
Proof.
  intros [H1 H2 H3]. rewrite delete_cases_id_run. cbn [snd].
  constructor; cbn [cases case_items set_cases set_logs set_case_items
                    with_rows rows seq].
  - intros c Hc. apply filter_In in Hc. apply H1. apply Hc.
  - intros i Hi. apply filter_In in Hi. destruct Hi as [Hi N].
    apply negb_true_iff in N.
    specialize (H2 i Hi). unfold case_exists in *.
    cbn [cases set_cases set_logs set_case_items with_rows rows].
    apply existsb_exists in H2. destruct H2 as [c [Hc E]].
    apply existsb_exists. exists c. split; [|exact E].
    apply filter_In. split; [exact Hc|].
    apply Z.eqb_eq in E. rewrite E, N. reflexivity.
  - intros c Hc. apply filter_In in Hc. destruct Hc as [Hc N].
    apply negb_true_iff, Z.eqb_neq in N.
    unfold items_of.
    cbn [case_items set_cases set_logs set_case_items with_rows rows].
    rewrite filter_other_after_delete by exact N. apply (H3 c Hc).
Qed.

Lemma consistent_put_cases_id (caseId : Z) (name : string)
    (employee_id : option Z) (status : string)
    (items : option (list Item.t)) (d : database) :
  foreign_keys d = true -> consistent d ->
  consistent (snd (put_cases_id caseId name employee_id status items d)).
Proof.
  intros F C. destruct items as [items|].
  - rewrite put_cases_id_run_items.
    destruct (fk_check d _) eqn:A; [|exact C].
    unfold fk_check in A. rewrite F in A.
    apply andb_true_iff in A. destruct A as [_ A].
    rewrite forallb_forall in A.
    destruct C as [H1 H2 H3]. cbn [snd].
    constructor; cbn [cases case_items with_rows rows seq].
    + intros c Hc. apply in_map_iff in Hc. destruct Hc as [c1 [<- Hc]].
      apply in_map_iff in Hc. destruct Hc as [c2 [<- Hc]].
      rewrite set_total_value_id, set_scalars_id. apply H1. exact Hc.
    + intros i Hi. unfold case_exists. cbn [cases with_rows rows].
      rewrite !(existsb_map_id Case.id)
        by (apply set_total_value_id || apply set_scalars_id).
      apply in_app_or in Hi. destruct Hi as [Hi|Hi].
      * apply filter_In in Hi. apply (H2 i), Hi.
      * apply In_item_rows in Hi. destruct Hi as [-> [item Hitem]].
        specialize (A item Hitem). apply andb_true_iff in A. apply A.
    + intros c Hc. apply in_map_iff in Hc. destruct Hc as [c1 [<- Hc]].
      apply in_map_iff in Hc. destruct Hc as [c2 [<- Hc]].
      unfold items_of. cbn [case_items rows].
      rewrite set_total_value_id, set_scalars_id.
      destruct (Z.eq_dec (Case.id c2) caseId) as [E|N].
      * rewrite E, items_of_after_replace.
        unfold set_total_value. rewrite set_scalars_id, E, Z.eqb_refl.
        cbn [Case.total_value].
        apply loop_total_running_total.
      * rewrite set_total_value_other by (rewrite set_scalars_id; exact N).
        rewrite set_scalars_other by exact N.
        rewrite filter_app.
        rewrite (filter_item_rows_other caseId (Case.id c2)) by lia.
        rewrite app_nil_r, filter_other_after_delete by exact N.
        apply (H3 c2 Hc).
  - rewrite put_cases_id_run_scalars.
    destruct (fk_check d _); [|exact C].
    destruct C as [H1 H2 H3]. cbn [snd].
    constructor; cbn [cases case_items with_rows rows seq].
    + intros c Hc. apply in_map_iff in Hc. destruct Hc as [c1 [<- Hc]].
      rewrite set_scalars_id. apply H1. exact Hc.
    + intros i Hi. unfold case_exists. cbn [cases with_rows rows].
      rewrite (existsb_map_id Case.id) by apply set_scalars_id.
      apply (H2 i Hi).
    + intros c Hc. apply in_map_iff in Hc. destruct Hc as [c1 [<- Hc]].
      unfold items_of. cbn [case_items].
      rewrite set_scalars_id, set_scalars_total_value. apply (H3 c1 Hc).
Qed.

Lemma serve_foreign_keys (r : request) (d : database) :
  foreign_keys (snd (serve r d)) = foreign_keys d.
Proof.
  destruct r; cbn [serve]; try reflexivity.
  - unfold delete_employees_id, route, bind, delete_employee, ret.
    destruct (0 <? count_cases_in_field d id); [reflexivity|].
    destruct (fk_check d _); reflexivity.
  - rewrite post_cases_run. destruct (fk_check d _); reflexivity.
  - destruct items.
    + rewrite put_cases_id_run_items. destruct (fk_check d _); reflexivity.
    + rewrite put_cases_id_run_scalars. destruct (fk_check d _); reflexivity.
  - rewrite delete_cases_id_run. reflexivity.
  - unfold post_manual_commissions, route, bind, insert_manual_commission, ret.
    destruct (fk_check d _); reflexivity.
  - unfold post_whatsapp_send, route.
    destruct (find _ (rows (employees d))); reflexivity.
Qed.

Lemma consistent_serve (r : request) (d : database) :
  foreign_keys d = true -> consistent d -> consistent (snd (serve r d)).
Proof.
  intros F C. destruct r; cbn [serve];
    try (apply (consistent_frame d); [reflexivity|reflexivity|exact C]).
  - apply (consistent_frame d); [| |exact C];
      unfold delete_employees_id, route, bind, delete_employee, ret;
      (destruct (0 <? count_cases_in_field d id); [reflexivity|]);
      destruct (fk_check d _); reflexivity.
  - apply consistent_post_cases. exact C.
  - apply consistent_put_cases_id; assumption.
  - apply consistent_delete_cases_id. exact C.
  - apply (consistent_frame d); [| |exact C];
      unfold post_manual_commissions, route, bind, insert_manual_commission,
        ret; destruct (fk_check d _); reflexivity.
  - apply (consistent_frame d); [| |exact C];
      unfold post_whatsapp_send, route;
      destruct (find _ (rows (employees d))); reflexivity.
Qed.

(** X1. On a connection that enforces foreign keys, every database the
    server can reach is consistent, which is the invariant of the case
    ledger: case ids are ones the table allocated, every line item belongs
    to a case that exists, and every case's stored total is the running
    total of its line items, added in row order from 0 as the loop of the
    request that wrote them added them. *)
Theorem reachable_consistent (d : database) :
  reachable true d -> foreign_keys d = true /\ consistent d.
Proof.
  induction 1 as [|d r _ [F C]].
  - split; [reflexivity|]. constructor.
    + intros c [].
    + intros i [].
    + intros c [].
  - split.
    + rewrite serve_foreign_keys. exact F.
    + apply consistent_serve; assumption.
Qed.

Lemma reachable_consistent_witness :
  foreign_keys shop_with_sales = true /\ consistent shop_with_sales.
Proof.
  apply (reachable_consistent shop_with_sales).
  unfold shop_with_sales.
  apply (reachable_serve true _ (POST_manual_commissions 1 "Oculos" 200 60)).
  apply (reachable_serve true _
           (POST_cases 1700000000000 1700000000001 "Mala Ouro" (Some 1) None
              [{| Item.product_id := 2; Item.quantity := 2;
                  Item.price := 3000 |}])).
  unfold shop.
  apply (reachable_serve true _
           (POST_products "Anel Solitario" "anel" 3000 None)).
  apply (reachable_serve true _
           (POST_products "Brinco Argola" "brinco" 100 None)).
  apply (reachable_serve true _ (POST_employees "Bia" "5511888880000")).
  apply (reachable_serve true _ (POST_employees "Ana" "5511999990000")).
  apply reachable_start.
Defined.

(** Without that enforcement the invariant can be lost: an update sent to an
    id that names no case stores its line items all the same, and the case
    that later receives the id starts with items it never counted. *)
Lemma unenforced_keys_break_the_invariant :
  reachable false orphaned_ledger
  /\ map Case.total_value (rows (cases orphaned_ledger)) = [0%Q]
  /\ map subtotal (items_of orphaned_ledger 1) = [(100 * inject_Z 1)%Q].
Proof.
  split; [|split; reflexivity].
  unfold orphaned_ledger. apply reachable_serve, reachable_serve.
  apply reachable_start.
Qed.

(** * Beyond the listed claims *)

(** ** The commission calculator, continued *)

(** X2. Selling more never lowers the commission: the payout is monotone in
    the total, also across the jump of the rate at 5000; and for a total that
    is not negative the payout lies between nothing and the total itself. *)
Theorem calculateCommission_monotone (total1 total2 : Q) :
  (total1 <= total2)%Q ->
  (Commission.value (calculateCommission total1)
   <= Commission.value (calculateCommission total2))%Q
  /\ ((0 <= total1)%Q ->
      (0 <= Commission.value (calculateCommission total1))%Q
      /\ (Commission.value (calculateCommission total1) <= total1)%Q).
Proof.
  intro H. unfold calculateCommission.
  destruct (Qle_bool 5000 total1) eqn:E1;
    destruct (Qle_bool 5000 total2) eqn:E2; cbn [Commission.value];
    try apply Qle_bool_iff in E1; try apply Qle_bool_iff in E2;
    try apply Qle_bool_false in E1; try apply Qle_bool_false in E2;
    split; try (intro P; split); lra.
Qed.

Lemma calculateCommission_monotone_witness :
  (Commission.value (calculateCommission 4999.99)
   <= Commission.value (calculateCommission 5000))%Q.
Proof.
  destruct (calculateCommission_monotone 4999.99 5000) as [H _].
  - lra.
  - exact H.
Defined.

(** ** Case requests that the engine rejects *)

Lemma references_resolve_false (d : database) (employee_id : option Z)
    (items : list Item.t) :
  employee_ref_ok d employee_id = false
  \/ (exists item, In item items
                   /\ product_exists d (Item.product_id item) = false) ->
  references_resolve d employee_id items = false.
Proof.
  intros [H|[item [Hin Hp]]]; unfold references_resolve.
  - rewrite H. reflexivity.
  - apply andb_false_iff. right.
    destruct (forallb _ items) eqn:E; [|reflexivity].
    rewrite forallb_forall in E. rewrite (E item Hin) in Hp. discriminate.
Qed.

(** X3. On a connection that enforces foreign keys, a create request that
    names an agent or a product that does not exist is rejected as a whole:
    the answer is a 500 and no case, line item or log entry is stored. An
    update whose items name a product that does not exist is rejected in the
    same way, its changes to name, agent and status included. (The scanner
    sends [product_id = 0] for an item it could not match.) *)
Theorem unknown_reference_rejects_request (d : database)
    (clock_Date clock_now caseId : Z) (name status : string)
    (employee_id : option Z) (photo : option string) (items : list Item.t) :
  foreign_keys d = true ->
  (employee_ref_ok d employee_id = false ->
   post_cases clock_Date clock_now name employee_id photo items d
   = ({| status_code := 500;
         payload := uncaught SQLITE_CONSTRAINT_FOREIGNKEY |}, d))
  /\ ((exists item, In item items
                    /\ product_exists d (Item.product_id item) = false) ->
      post_cases clock_Date clock_now name employee_id photo items d
      = ({| status_code := 500;
            payload := uncaught SQLITE_CONSTRAINT_FOREIGNKEY |}, d)
      /\ put_cases_id caseId name employee_id status (Some items) d
         = ({| status_code := 500;
               payload := uncaught SQLITE_CONSTRAINT_FOREIGNKEY |}, d)).
Proof.
  intro F. split.
  - intro H. rewrite post_cases_run. unfold fk_check. rewrite F.
    rewrite references_resolve_false by (left; exact H). reflexivity.
  - intro H. split.
    + rewrite post_cases_run. unfold fk_check. rewrite F.
      rewrite references_resolve_false by (right; exact H). reflexivity.
    + rewrite put_cases_id_run_items. unfold fk_check. rewrite F.
      destruct H as [item [Hin Hp]].
      assert (E : forallb (fun item =>
                             case_exists d caseId
                             && product_exists d (Item.product_id item))
                    items = false).
      { destruct (forallb _ items) eqn:E; [|reflexivity].
        rewrite forallb_forall in E. specialize (E item Hin).
        rewrite Hp, andb_false_r in E. discriminate. }
      rewrite E, andb_false_r. reflexivity.
Qed.

Lemma unknown_reference_rejects_request_witness :
  post_cases 1700000000000 1700000000001 "Mala Scanner" (Some 1) None
    [{| Item.product_id := 0; Item.quantity := 1; Item.price := 450 |}] shop
  = ({| status_code := 500;
        payload := uncaught SQLITE_CONSTRAINT_FOREIGNKEY |}, shop).
Proof.
  destruct (unknown_reference_rejects_request shop 1700000000000
              1700000000001 1 "Mala Scanner" "EM_CAMPO" (Some 1) None
              [{| Item.product_id := 0; Item.quantity := 1;
                  Item.price := 450 |}]) as [_ H].
  - reflexivity.
  - destruct H as [H _].
    + eexists. split; [left; reflexivity|reflexivity].
    + exact H.
Defined.

(** ** The catalog, continued *)

Lemma filter_map_removed (id : Z) (l : list Product.t) :
  filter (fun p => String.eqb (Product.status p) "active")
    (map (fun p => if Product.id p =? id
                   then {| Product.id := Product.id p;
                           Product.name := Product.name p;
                           Product.category := Product.category p;
                           Product.price := Product.price p;
                           Product.photo := Product.photo p;
                           Product.status := "removed" |}
                   else p) l)
  = filter (fun p => negb (Product.id p =? id))
      (filter (fun p => String.eqb (Product.status p) "active") l).
Proof.
  induction l as [|p r IH]; [reflexivity|].
  cbn [map filter]. destruct (Product.id p =? id) eqn:E.
  - cbn [Product.status]. change (String.eqb "removed" "active") with false.
    cbn iota. rewrite IH.
    destruct (String.eqb (Product.status p) "active"); [|reflexivity].
    cbn [filter]. rewrite E. reflexivity.
  - rewrite IH.
    destruct (String.eqb (Product.status p) "active"); [|reflexivity].
    cbn [filter]. rewrite E. reflexivity.
Qed.

Lemma select_case_items_ext (d d' : database) (caseId : Z) :
  case_items d' = case_items d ->
  map (fun p => (Product.id p, Product.name p, Product.category p,
                 Product.photo p)) (rows (products d'))
  = map (fun p => (Product.id p, Product.name p, Product.category p,
                   Product.photo p)) (rows (products d)) ->
  select_case_items d' caseId = select_case_items d caseId.
Proof.
  intros Ei Ep. unfold select_case_items. rewrite Ei.
  induction (filter _ (rows (case_items d))) as [|ci r IH]; [reflexivity|].
  cbn [flat_map]. rewrite IH. f_equal. clear IH.
  revert Ep. generalize (rows (products d')) as l'.
  induction (rows (products d)) as [|p l IH]; intros l' Ep.
  - destruct l'; [reflexivity|discriminate].
  - destruct l' as [|p' l']; [discriminate|].
    cbn [map] in Ep. injection Ep as E1 E2 E3 E4 Ep.
    cbn [filter]. rewrite E1.
    destruct (Product.id p =? CaseItem.product_id ci).
    + cbn [map]. rewrite E2, E3, E4, (IH l' Ep). reflexivity.
    + apply IH. exact Ep.
Qed.

(** X4. Removing a product from the catalog is a soft delete: the product
    leaves the list of active products, and nothing else is lost. Its row
    stays, under the same id, every case, total and line item is as before,
    and every case listing still shows the line items of the removed product
    with its name and category. *)
Theorem delete_products_id_is_soft (d : database) (id : Z) :
  get_products (snd (delete_products_id id d))
  = filter (fun p => negb (Product.id p =? id)) (get_products d)
  /\ map (fun p => (Product.id p, Product.name p, Product.category p,
                    Product.price p, Product.photo p))
         (rows (products (snd (delete_products_id id d))))
     = map (fun p => (Product.id p, Product.name p, Product.category p,
                      Product.price p, Product.photo p))
         (rows (products d))
  /\ cases (snd (delete_products_id id d)) = cases d
  /\ case_items (snd (delete_products_id id d)) = case_items d
  /\ get_cases (snd (delete_products_id id d)) = get_cases d.
Proof.
  assert (M : map (fun p => (Product.id p, Product.name p, Product.category p,
                             Product.price p, Product.photo p))
                (rows (products (snd (delete_products_id id d))))
              = map (fun p => (Product.id p, Product.name p,
                               Product.category p, Product.price p,
                               Product.photo p)) (rows (products d))).
  { cbn. rewrite map_map. apply map_ext. intro p.
    destruct (Product.id p =? id); reflexivity. }
  split; [|split; [exact M|split; [reflexivity|split; [reflexivity|]]]].
  - unfold get_products. cbn. apply filter_map_removed.
  - unfold get_cases. apply flat_map_ext. intro c.
    assert (S : select_case_items (snd (delete_products_id id d)) (Case.id c)
                = select_case_items d (Case.id c)).
    { apply select_case_items_ext; [reflexivity|].
      apply (f_equal (map (fun t : Z * string * string * Q * option string =>
                             let '(i, n, c0, _, ph) := t in (i, n, c0, ph))))
        in M.
      rewrite !map_map in M. exact M. }
    rewrite S. reflexivity.
Qed.

(** ** Deleting twice *)

Lemma filter_filter_same {A : Type} (f : A -> bool) (l : list A) :
  filter f (filter f l) = filter f l.
Proof.
  induction l as [|a r IH]; [reflexivity|].
  cbn [filter]. destruct (f a) eqn:E; [|exact IH].
  cbn [filter]. rewrite E, IH. reflexivity.
Qed.

(** X5. Deleting a case, and removing a product, are idempotent: the second
    request is answered like the first and leaves the database as the first
    left it. In particular deleting a case that is not there succeeds. *)
Theorem deletes_are_idempotent (d : database) (id : Z) :
  delete_cases_id id (snd (delete_cases_id id d))
  = (res_json json_success, snd (delete_cases_id id d))
  /\ delete_products_id id (snd (delete_products_id id d))
     = (res_json json_success, snd (delete_products_id id d)).
Proof.
  split.
  - rewrite (delete_cases_id_run (snd (delete_cases_id id d))).
    rewrite delete_cases_id_run. cbn [snd]. f_equal.
    unfold set_cases, set_logs, set_case_items, with_rows. cbn.
    rewrite !filter_filter_same. reflexivity.
  - unfold delete_products_id, remove_product. run_handler. f_equal.
    unfold set_products, with_rows. cbn. f_equal. f_equal.
    rewrite map_map. apply map_ext. intro p.
    destruct (Product.id p =? id) eqn:E; cbn [Product.id]; rewrite E;
      reflexivity.
Qed.

(** ** The messaging route *)

(** X6. [POST /api/whatsapp/send] for an agent that does not exist is answered
    404 and writes nothing.  For an agent that exists it is answered 200; it
    appends exactly one log entry, tagged WHATSAPP_API and attached to the
    given case (to no case when the request has none); it changes no other
    table; and the preview it echoes is addressed to the agent's contact and
    holds the first 100 UTF-16 code units of the message, the whole message
    when it is no longer, followed by three full stops: 103 code units at
    most. *)
Theorem post_whatsapp_send_logs_once (d : database) (employee_id : Z)
    (message : utf16) (photo pdf_base64 : option string)
    (case_id : option Z) :
  (employee_exists d employee_id = false ->
   post_whatsapp_send employee_id message photo pdf_base64 case_id d
   = (res_status_json 404 (json_error "Vendedora não encontrada"), d))
  /\ (employee_exists d employee_id = true ->
      let d' := snd (post_whatsapp_send employee_id message photo pdf_base64
                       case_id d) in
      status_code (fst (post_whatsapp_send employee_id message photo
                          pdf_base64 case_id d)) = 200
      /\ (exists entry,
            rows (logs d') = rows (logs d) ++ [entry]
            /\ Log.action entry = "WHATSAPP_API"%string
            /\ Log.case_id entry = (if truthy case_id then case_id else None))
      /\ (exists employee preview has_media,
            In employee (rows (employees d))
            /\ Employee.id employee = employee_id
            /\ payload (fst (post_whatsapp_send employee_id message photo
                               pdf_base64 case_id d))
               = json_queued (Employee.whatsapp employee) preview has_media
            /\ preview = firstn 100 message ++ [46; 46; 46]%N
            /\ (List.length preview <= 103)%nat
            /\ ((List.length message <= 100)%nat ->
                preview = message ++ [46; 46; 46]%N))
      /\ employees d' = employees d /\ products d' = products d
      /\ cases d' = cases d /\ case_items d' = case_items d
      /\ manual_commissions d' = manual_commissions d).
Proof.
  unfold employee_exists, post_whatsapp_send, route. split.
  - intro H.
    destruct (find _ (rows (employees d))) as [e|] eqn:E; [|reflexivity].
    apply find_some in E. destruct E as [Hin He].
    rewrite existsb_false_forall in H. rewrite (H e Hin) in He. discriminate.
  - intros H. cbv zeta.
    destruct (find _ (rows (employees d))) as [e|] eqn:E.
    + apply find_some in E. destruct E as [Hin He]. apply Z.eqb_eq in He.
      remember (firstn 100 message) as head eqn:Hhead.
      cbn. split; [reflexivity|]. split; [|split; [|repeat split]].
      * eexists. repeat split.
      * exists e. eexists. eexists. split; [exact Hin|].
        split; [exact He|]. split; [reflexivity|]. split; [reflexivity|].
        split.
        -- rewrite length_app, Hhead.
           pose proof (firstn_le_length 100 message).
           cbn [List.length]. lia.
        -- intro L. rewrite Hhead, firstn_all2 by exact L. reflexivity.
    + apply existsb_exists in H. destruct H as [e [Hin He]].
      pose proof (find_none _ _ E e Hin) as N. cbn in N. congruence.
Qed.

Lemma post_whatsapp_send_logs_once_witness :
  exists entry,
    status_code (fst (post_whatsapp_send 1 [79; 108; 225]%N None None
                        (Some 1) shop)) = 200
    /\ rows (logs (snd (post_whatsapp_send 1 [79; 108; 225]%N None None
                          (Some 1) shop))) = [entry]
    /\ Log.action entry = "WHATSAPP_API"%string
    /\ Log.case_id entry = Some 1
    /\ payload (fst (post_whatsapp_send 1 [79; 108; 225]%N None None
                       (Some 1) shop))
       = json_queued "5511999990000" [79; 108; 225; 46; 46; 46]%N false.
Proof.
  destruct (post_whatsapp_send_logs_once shop 1 [79; 108; 225]%N None None
              (Some 1)) as [_ H].
  destruct H as [S [[entry [L [A C]]] _]]; [reflexivity|].
  exists entry. split; [exact S|]. split; [exact L|].
  split; [exact A|]. split; [exact C|]. reflexivity.
Defined.

(** ** Return dates *)

Lemma daysLeft_le (return_date now k : Z) :
  daysLeft return_date now <= k <-> return_date - now <= k * 86400000.
Proof.
  unfold daysLeft. change (1000 * 60 * 60 * 24) with 86400000.
  Z.div_mod_to_equations. lia.
Qed.

Lemma post_cases_stores_created_case (clock_Date clock_now : Z)
    (name : string) (employee_id : option Z) (photo : option string)
    (items : list Item.t) (d : database) :
  (forall c, In c (rows (cases d)) -> Case.id c <= seq (cases d)) ->
  (foreign_keys d = true -> references_resolve d employee_id items = true) ->
  rows (cases (snd (post_cases clock_Date clock_now name employee_id photo
                      items d)))
  = rows (cases d)
    ++ [created_case d clock_Date clock_now name employee_id photo items].
Proof.
  intros Hids Hfk.
  rewrite post_cases_run, (fk_check_of_premise _ _ Hfk).
  cbn [snd cases rows]. rewrite map_app. unfold next_id at 1.
  rewrite (map_set_total_value_fresh _ _ _ Hids).
  cbn [map]. unfold set_total_value. cbn [Case.id].
  rewrite Z.eqb_refl. reflexivity.
Qed.

(** X7. A case is flagged as expiring exactly when at most seven days, to the
    millisecond, separate the current instant from its return date; the card
    reads "Prazo Vencido" ([daysLeft <= 0]) exactly from the return date on;
    and [daysLeft] is the number of started days that remain. The case that a
    create request stores therefore starts with 60 days left and is flagged
    from the 53rd day after its creation. *)
Theorem isExpiring_within_seven_days (return_date now : Z) :
  (isExpiring return_date now = true
   <-> return_date - now <= 7 * 86400000)
  /\ (daysLeft return_date now <= 0 <-> return_date <= now)
  /\ (daysLeft return_date now - 1) * 86400000 < return_date - now
     <= daysLeft return_date now * 86400000
  /\ (forall (clock_Date clock_now : Z) (name : string)
             (employee_id : option Z) (photo : option string)
             (items : list Item.t) (d : database),
        (forall c, In c (rows (cases d)) -> Case.id c <= seq (cases d)) ->
        (foreign_keys d = true ->
         references_resolve d employee_id items = true) ->
        exists c,
          rows (cases (snd (post_cases clock_Date clock_now name employee_id
                              photo items d)))
          = rows (cases d) ++ [c]
          /\ daysLeft (Case.return_date c) clock_now = 60
          /\ (isExpiring (Case.return_date c) now = true
              <-> clock_now + 53 * 86400000 <= now)).
Proof.
  split; [|split; [|split]].
  - unfold isExpiring. rewrite Z.leb_le. apply daysLeft_le.
  - rewrite daysLeft_le. lia.
  - unfold daysLeft. change (1000 * 60 * 60 * 24) with 86400000.
    Z.div_mod_to_equations. lia.
  - intros clock_Date clock_now name employee_id photo items d Hids Hfk.
    eexists. split; [apply post_cases_stores_created_case; assumption|].
    cbn [created_case Case.return_date]. split.
    + unfold daysLeft. change (1000 * 60 * 60 * 24) with 86400000.
      Z.div_mod_to_equations. lia.
    + unfold isExpiring. rewrite Z.leb_le, daysLeft_le. lia.
Qed.

Lemma isExpiring_within_seven_days_witness :
  exists c,
    rows (cases shop_with_case) = rows (cases shop) ++ [c]
    /\ daysLeft (Case.return_date c) 1700000000001 = 60.
Proof.
  destruct (isExpiring_within_seven_days 0 0) as [_ [_ [_ H]]].
  destruct (H 1700000000000 1700000000001 "Mala Julho"%string (Some 1) None
              [{| Item.product_id := 1; Item.quantity := 2;
                  Item.price := 100 |};
               {| Item.product_id := 2; Item.quantity := 1;
                  Item.price := 3000 |}] shop) as [c [Hc [Hd _]]].
  - intros c [].
  - reflexivity.
  - exists c. split; [exact Hc|exact Hd].
Defined.

(** ** How requests move the statistics *)

Lemma Qsum_app (l1 l2 : list Q) : (Qsum (l1 ++ l2) == Qsum l1 + Qsum l2)%Q.
Proof.
  induction l1 as [|x r IH]; cbn [app Qsum]; [ring|]. rewrite IH. ring.
Qed.

Lemma filter_fresh_manual (s : Z) (l : list ManualCommission.t) :
  (forall m, In m l -> ManualCommission.id m <= s) ->
  filter (fun m => negb (ManualCommission.id m =? s + 1)) l = l.
Proof.
  intro H. induction l as [|m r IH]; [reflexivity|].
  cbn [filter].
  assert (N : (ManualCommission.id m =? s + 1) = false)
    by (apply Z.eqb_neq; specialize (H m (or_introl eq_refl)); lia).
  rewrite N. cbn [negb]. f_equal. apply IH.
  intros x Hx. apply H. right; exact Hx.
Qed.

(** X8. Entering a manual commission appends one entry under the next id,
    with the agent, product name, price and commission of the request.
    Deleting it by the id that the entry request returned puts the rows of
    the table back, and with them the stats, [vgv] included, and the agents'
    list: they are computed from the same rows again, so they are the same
    numbers.  No other table is touched, and the id itself is spent: it is
    not handed out again.  The hypotheses: the ids in the table are ones it
    allocated, and the agent exists where the connection enforces foreign
    keys. *)
Theorem manual_commission_round_trip (d : database) (employee_id : Z)
    (product_name : string) (price commission_value : Q) :
  (forall m, In m (rows (manual_commissions d)) ->
             ManualCommission.id m <= seq (manual_commissions d)) ->
  (foreign_keys d = true -> employee_exists d employee_id = true) ->
  let id := next_id (manual_commissions d) in
  let d1 := snd (post_manual_commissions employee_id product_name price
                   commission_value d) in
  let d2 := snd (delete_manual_commissions_id id d1) in
  fst (post_manual_commissions employee_id product_name price
         commission_value d) = res_json (json_id id)
  /\ rows (manual_commissions d1)
     = rows (manual_commissions d)
       ++ [{| ManualCommission.id := id;
              ManualCommission.employee_id := employee_id;
              ManualCommission.product_name := product_name;
              ManualCommission.price := price;
              ManualCommission.commission_value := commission_value |}]
  /\ rows (manual_commissions d2) = rows (manual_commissions d)
  /\ get_stats d2 = get_stats d
  /\ get_employees d2 = get_employees d
  /\ employees d2 = employees d /\ products d2 = products d
  /\ cases d2 = cases d /\ case_items d2 = case_items d
  /\ logs d2 = logs d
  /\ next_id (manual_commissions d2) = id + 1.
Proof.
  intros Hids Hfk id d1 d2. subst id d1 d2.
  unfold post_manual_commissions, delete_manual_commissions_id, route, bind,
    insert_manual_commission, ret.
  rewrite (fk_check_of_premise _ _ Hfk). cbn [fst snd].
  assert (R : filter
                (fun m => negb (ManualCommission.id m
                                =? next_id (manual_commissions d)))
                (rows (manual_commissions d)
                 ++ [{| ManualCommission.id := next_id (manual_commissions d);
                        ManualCommission.employee_id := employee_id;
                        ManualCommission.product_name := product_name;
                        ManualCommission.price := price;
                        ManualCommission.commission_value :=
                          commission_value |}])
              = rows (manual_commissions d)).
  { rewrite filter_app. unfold next_id.
    rewrite (filter_fresh_manual _ _ Hids). cbn [filter ManualCommission.id].
    rewrite Z.eqb_refl. cbn [negb]. apply app_nil_r. }
  split; [reflexivity|]. split; [reflexivity|].
  split; [cbn; exact R|].
  split; [unfold get_stats; cbn; rewrite R; reflexivity|].
  repeat split.
Qed.

Lemma manual_commission_round_trip_witness :
  fst (post_manual_commissions 1 "Oculos" 200 60 shop) = res_json (json_id 1)
  /\ map ManualCommission.price
         (rows (manual_commissions
                  (snd (post_manual_commissions 1 "Oculos" 200 60 shop))))
     = [200%Q]
  /\ get_stats
       (snd (delete_manual_commissions_id 1
               (snd (post_manual_commissions 1 "Oculos" 200 60 shop))))
     = get_stats shop.
Proof.
  destruct (manual_commission_round_trip shop 1 "Oculos" 200 60)
    as [A [B [_ [C _]]]].
  - intros m [].
  - reflexivity.
  - split; [exact A|]. split; [rewrite B; reflexivity|exact C].
Defined.

(** X9. Creating a case for an agent (any id but 0) puts one more case in
    field, and the total of the new case joins the totals that [vgv] sums,
    as the last of them.  Creating it for no agent makes it idle: the cases
    that are not idle, [vgv] and the number of cases in field are what they
    were.  Hypotheses as for any create. *)
Theorem post_cases_joins_the_stats (clock_Date clock_now : Z) (name : string)
    (employee_id : option Z) (photo : option string) (items : list Item.t)
    (d : database) :
  (forall c, In c (rows (cases d)) -> Case.id c <= seq (cases d)) ->
  (foreign_keys d = true -> references_resolve d employee_id items = true) ->
  let d' := snd (post_cases clock_Date clock_now name employee_id photo
                   items d) in
  (forall k, employee_id = Some k -> k <> 0 ->
     map Case.total_value (cases_not_idle d')
     = map Case.total_value (cases_not_idle d)
       ++ [fold_left (fun acc item =>
                        (acc + Item.price item
                               * inject_Z (Item.quantity item))%Q)
                     items 0%Q]
     /\ Stats.activeCases (get_stats d')
        = Stats.activeCases (get_stats d) + 1)
  /\ (employee_id = None ->
      cases_not_idle d' = cases_not_idle d
      /\ Stats.vgv (get_stats d') = Stats.vgv (get_stats d)
      /\ Stats.activeCases (get_stats d') = Stats.activeCases (get_stats d))
  /\ Stats.totalEmployees (get_stats d') = Stats.totalEmployees (get_stats d).
Proof.
  intros Hids Hfk d'. subst d'.
  pose proof (post_cases_stores_created_case clock_Date clock_now name
                employee_id photo items d Hids Hfk) as R.
  assert (M : manual_commissions
                (snd (post_cases clock_Date clock_now name employee_id photo
                        items d)) = manual_commissions d).
  { rewrite post_cases_run, (fk_check_of_premise _ _ Hfk). reflexivity. }
  assert (E : employees
                (snd (post_cases clock_Date clock_now name employee_id photo
                        items d)) = employees d).
  { rewrite post_cases_run, (fk_check_of_premise _ _ Hfk). reflexivity. }
  split; [|split].
  - intros k -> N. apply Z.eqb_neq in N. split.
    + unfold cases_not_idle. rewrite R, filter_app, map_app.
      unfold created_case. cbn [truthy]. rewrite N. reflexivity.
    + unfold get_stats. cbn [Stats.activeCases]. rewrite R.
      rewrite filter_app, length_app. unfold created_case. cbn [truthy].
      rewrite N. cbn. lia.
  - intros ->.
    assert (C : cases_not_idle
                  (snd (post_cases clock_Date clock_now name None photo
                          items d)) = cases_not_idle d).
    { unfold cases_not_idle. rewrite R, filter_app. cbn. apply app_nil_r. }
    split; [exact C|]. split.
    + unfold get_stats. cbn [Stats.vgv].
      change (filter (fun c => negb (String.eqb (Case.status c) "PARADO"))
                (rows (cases (snd (post_cases clock_Date clock_now name None
                                     photo items d)))))
        with (cases_not_idle
                (snd (post_cases clock_Date clock_now name None photo
                        items d))).
      rewrite C, M. reflexivity.
    + unfold get_stats. cbn [Stats.activeCases]. rewrite R.
      rewrite filter_app, length_app. cbn. lia.
  - unfold get_stats. cbn [Stats.totalEmployees]. rewrite E. reflexivity.
Qed.

Lemma post_cases_joins_the_stats_witness :
  map Case.total_value (cases_not_idle shop_with_case) = [3200%Q]
  /\ Stats.activeCases (get_stats shop_with_case) = 1.
Proof.
  destruct (post_cases_joins_the_stats 1700000000000 1700000000001
              "Mala Julho" (Some 1%Z) None
              [{| Item.product_id := 1%Z; Item.quantity := 2%Z;
                  Item.price := 100 |};
               {| Item.product_id := 2%Z; Item.quantity := 1%Z;
                  Item.price := 3000 |}] shop) as [H _].
  - intros c [].
  - reflexivity.
  - destruct (H 1) as [A B]; [reflexivity|discriminate|].
    unfold shop_with_case.
    split; [rewrite A; reflexivity|rewrite B; reflexivity].
Defined.

(** X10. The two per-agent figures of the dashboard differ by the agent's
    manual sales: for every agent, her [salesByEmployee] value of the stats is
    her [total_sales] of the agents' list plus the sum of her manual
    commission prices, so the two agree exactly for an agent without manual
    commissions. *)
Theorem salesByEmployee_exceeds_total_sales (d : database) :
  Forall2
    (fun r s =>
       SalesRow.name s = EmployeeRow.name r
       /\ (SalesRow.value s
           == EmployeeRow.total_sales r
              + Qsum (map ManualCommission.price
                        (manual_commissions_of d (EmployeeRow.id r))))%Q
       /\ (manual_commissions_of d (EmployeeRow.id r) = [] ->
           (SalesRow.value s == EmployeeRow.total_sales r)%Q))
    (get_employees d) (Stats.salesByEmployee (get_stats d)).
Proof.
  unfold get_employees, get_stats, manual_commissions_of.
  cbn [Stats.salesByEmployee].
  induction (rows (employees d)) as [|e r IH]; cbn [map]; constructor;
    [|exact IH].
  cbn [SalesRow.name SalesRow.value EmployeeRow.name EmployeeRow.id
       EmployeeRow.total_sales].
  split; [reflexivity|]. split.
  - rewrite (COALESCE_SUM (map ManualCommission.price _)). reflexivity.
  - intros ->. cbn. ring.
Qed.

(** ** The scanner *)

Section ScannerProperties.

Variable toLowerCase : string -> string.

Lemma loop_total_itemsToSave (products : list Product.t)
    (scannedItems : list ScannedItem.t) (totalValue : Q) :
  loop_total (itemsToSave toLowerCase products scannedItems) totalValue
  = fold_left
      (fun acc i =>
         (acc + ScannedItem.price i * inject_Z (ScannedItem.quantity i))%Q)
      scannedItems totalValue.
Proof.
  revert totalValue. unfold loop_total, itemsToSave.
  induction scannedItems as [|i r IH]; intro totalValue; [reflexivity|].
  cbn [map fold_left Item.price Item.quantity]. apply IH.
Qed.

(** X11. What the scanner shows before saving is what the server stores: the
    case that [handleSave]'s request creates has as [total_value] exactly the
    total of the preview message, whatever the products matched, and the
    commission of the preview is the one [calculateCommission] gives for that
    stored total, at the same percentage. Hypotheses as for any create, for a
    scan that is not empty. *)
Theorem scanner_preview_is_what_is_stored (clock_Date clock_now : Z)
    (products : list Product.t) (caseName : string)
    (selectedEmployee : option Z) (scannedItems : list ScannedItem.t)
    (d : database) :
  scannedItems <> [] ->
  (forall c, In c (rows (cases d)) -> Case.id c <= seq (cases d)) ->
  (foreign_keys d = true ->
   references_resolve d selectedEmployee
     (itemsToSave toLowerCase products scannedItems) = true) ->
  exists r c,
    scanner_handleSave toLowerCase clock_Date clock_now products caseName
      selectedEmployee scannedItems = Some r
    /\ rows (cases (snd (serve r d))) = rows (cases d) ++ [c]
    /\ Case.name c = caseName
    /\ Case.total_value c = scanner_totalValue scannedItems
    /\ scanner_commission scannedItems
       = (Commission.rate (calculateCommission (Case.total_value c)),
          Commission.value (calculateCommission (Case.total_value c))).
Proof.
  intros Hne Hids Hfk.
  exists (POST_cases clock_Date clock_now caseName selectedEmployee None
            (itemsToSave toLowerCase products scannedItems)).
  eexists. split; [destruct scannedItems; [contradiction|reflexivity]|].
  split; [apply post_cases_stores_created_case; assumption|].
  cbn [created_case Case.name Case.total_value].
  rewrite loop_total_itemsToSave.
  split; [reflexivity|]. split; reflexivity.
Qed.

Lemma find_first {A : Type} (f : A -> bool) (before after : list A)
    (p : A) :
  f p = true -> (forall q, In q before -> f q = false) ->
  find f (before ++ p :: after) = Some p.
Proof.
  intros Hp Hb. induction before as [|a r IH]; cbn [app find].
  - rewrite Hp. reflexivity.
  - rewrite (Hb a (or_introl eq_refl)). apply IH.
    intros q Hq. apply Hb. right; exact Hq.
Qed.

(** X12. [itemsToSave] keeps the order, the quantities and the prices of the
    scan.  Each item is given the id of the first product of the list whose
    lower-cased name equals its own lower-cased name, whatever products of
    that name come later, and 0 when there is none.  On a connection that
    enforces foreign keys, where no product has id 0, one unmatched item is
    enough for the whole save to be rejected: the answer is a 500 and
    nothing is stored. *)
Theorem itemsToSave_matches_by_name (products : list Product.t)
    (scannedItems : list ScannedItem.t) :
  map (fun i => (Item.quantity i, Item.price i))
      (itemsToSave toLowerCase products scannedItems)
  = map (fun i => (ScannedItem.quantity i, ScannedItem.price i)) scannedItems
  /\ Forall2
       (fun scanned saved =>
          (forall before p after,
             products = before ++ p :: after ->
             toLowerCase (Product.name p)
             = toLowerCase (ScannedItem.name scanned) ->
             (forall q, In q before ->
                        toLowerCase (Product.name q)
                        <> toLowerCase (ScannedItem.name scanned)) ->
             Item.product_id saved = Product.id p)
          /\ ((forall p, In p products ->
                         toLowerCase (Product.name p)
                         <> toLowerCase (ScannedItem.name scanned)) ->
              Item.product_id saved = 0))
       scannedItems (itemsToSave toLowerCase products scannedItems)
  /\ (forall (clock_Date clock_now : Z) (caseName : string)
             (selectedEmployee : option Z) (d : database)
             (scanned : ScannedItem.t),
        foreign_keys d = true -> product_exists d 0 = false ->
        In scanned scannedItems ->
        (forall p, In p products ->
                   toLowerCase (Product.name p)
                   <> toLowerCase (ScannedItem.name scanned)) ->
        exists r,
          scanner_handleSave toLowerCase clock_Date clock_now products
            caseName selectedEmployee scannedItems = Some r
          /\ serve r d
             = ({| status_code := 500;
                   payload := uncaught SQLITE_CONSTRAINT_FOREIGNKEY |}, d)).
Proof.
  assert (Hnone : forall scanned,
            (forall p, In p products ->
                       toLowerCase (Product.name p)
                       <> toLowerCase (ScannedItem.name scanned)) ->
            find (fun p => String.eqb (toLowerCase (Product.name p))
                             (toLowerCase (ScannedItem.name scanned)))
                 products = None).
  { intros scanned H.
    destruct (find _ products) as [p|] eqn:E; [|reflexivity].
    apply find_some in E. destruct E as [Hin E].
    apply String.eqb_eq in E. exfalso. exact (H p Hin E). }
  split; [|split].
  - unfold itemsToSave. rewrite map_map. reflexivity.
  - unfold itemsToSave.
    induction scannedItems as [|i r IH]; cbn [map]; constructor; [|exact IH].
    cbn [Item.product_id]. split.
    + intros before p after -> Hp Hb.
      rewrite (find_first _ before after p).
      * destruct (Product.id p =? 0) eqn:Z0; [|reflexivity].
        apply Z.eqb_eq in Z0. symmetry. exact Z0.
      * apply String.eqb_eq. exact Hp.
      * intros q Hq. apply String.eqb_neq. apply Hb. exact Hq.
    + intro H. rewrite (Hnone i H). reflexivity.
  - intros clock_Date clock_now caseName selectedEmployee d scanned F P0
      Hin Hno.
    exists (POST_cases clock_Date clock_now caseName selectedEmployee None
              (itemsToSave toLowerCase products scannedItems)).
    split; [destruct scannedItems; [destruct Hin|reflexivity]|].
    cbn [serve]. rewrite post_cases_run. unfold fk_check. rewrite F.
    rewrite references_resolve_false; [reflexivity|].
    right. unfold itemsToSave.
    eexists. split; [apply in_map; exact Hin|].
    cbn [Item.product_id]. rewrite (Hnone scanned Hno). exact P0.
Qed.

End ScannerProperties.

Lemma scanner_preview_is_what_is_stored_witness :
  exists r c,
    scanner_handleSave (fun s => s) 1700000000000 1700000000001
      (get_products shop) "Mala Scanner" (Some 1)
      [{| ScannedItem.name := "Brinco Argola";
          ScannedItem.category := "brinco";
          ScannedItem.price := 100; ScannedItem.quantity := 3 |}] = Some r
    /\ rows (cases (snd (serve r shop))) = rows (cases shop) ++ [c]
    /\ Case.total_value c = (0 + 100 * inject_Z 3)%Q.
Proof.
  destruct (scanner_preview_is_what_is_stored (fun s => s) 1700000000000
              1700000000001 (get_products shop) "Mala Scanner" (Some 1)
              [{| ScannedItem.name := "Brinco Argola";
                  ScannedItem.category := "brinco";
                  ScannedItem.price := 100; ScannedItem.quantity := 3 |}]
              shop) as [r [c [H1 [H2 [_ [H3 _]]]]]].
  - discriminate.
  - intros c [].
  - reflexivity.
  - exists r, c. split; [exact H1|]. split; [exact H2|exact H3].
Defined.

Lemma itemsToSave_matches_by_name_witness :
  map Item.product_id (itemsToSave ascii_toLowerCase namesakes scan_of_two)
  = [1; 0].
Proof.
  destruct (itemsToSave_matches_by_name ascii_toLowerCase namesakes
              scan_of_two) as [_ [F _]].
  unfold itemsToSave, scan_of_two in *. cbn [map] in *.
  inversion F as [|x1 y1 l1 l1' [First _] F1]. subst.
  inversion F1 as [|x2 y2 l2 l2' [_ Unmatched] _]. subst.
  apply (f_equal2 cons); [|apply (f_equal2 cons); [|reflexivity]].
  - apply (First [] {| Product.id := 1; Product.name := "Brinco Argola";
                       Product.category := "brinco"; Product.price := 100;
                       Product.photo := None; Product.status := "active" |}
             [{| Product.id := 2; Product.name := "Anel Solitario";
                 Product.category := "anel"; Product.price := 3000;
                 Product.photo := None; Product.status := "active" |};
              {| Product.id := 3; Product.name := "BRINCO ARGOLA";
                 Product.category := "brinco"; Product.price := 120;
                 Product.photo := None; Product.status := "active" |}]).
    + reflexivity.
    + reflexivity.
    + intros q [].
  - apply Unmatched. intros p [<-|[<-|[<-|[]]]]; vm_compute; discriminate.
Defined.

(** ** The performance ranking *)

Lemma insert_by_sales_perm (a : EmployeeRow.t) (l : list EmployeeRow.t) :
  Permutation (a :: l) (insert_by_sales a l).
Proof.
  induction l as [|b r IH]; cbn [insert_by_sales]; [reflexivity|].
  destruct (Qle_bool _ _); [reflexivity|].
  rewrite perm_swap. apply perm_skip. exact IH.
Qed.

Lemma insert_by_sales_sorted (a : EmployeeRow.t) (l : list EmployeeRow.t) :
  StronglySorted
    (fun x y => (EmployeeRow.total_sales y <= EmployeeRow.total_sales x)%Q) l ->
  StronglySorted
    (fun x y => (EmployeeRow.total_sales y <= EmployeeRow.total_sales x)%Q)
    (insert_by_sales a l).
Proof.
  induction 1 as [|b r Hr IH Hb]; cbn [insert_by_sales].
  - constructor; constructor.
  - destruct (Qle_bool _ _) eqn:E.
    + apply Qle_bool_iff in E. constructor.
      * constructor; assumption.
      * constructor; [exact E|].
        rewrite Forall_forall in *. intros y Hy.
        apply Qle_trans with (EmployeeRow.total_sales b); [|exact E].
        apply Hb. exact Hy.
    + apply Qle_bool_false in E. constructor; [exact IH|].
      rewrite Forall_forall in *. intros y Hy.
      apply (Permutation_in _ (Permutation_sym (insert_by_sales_perm a r)))
        in Hy.
      destruct Hy as [<-|Hy]; [apply Qlt_le_weak; exact E|apply Hb; exact Hy].
Qed.

Lemma sort_by_sales_perm (l : list EmployeeRow.t) :
  Permutation l (sort_by_sales l).
Proof.
  induction l as [|a r IH]; cbn; [reflexivity|].
  rewrite <- insert_by_sales_perm. apply perm_skip. exact IH.
Qed.

Lemma sort_by_sales_sorted (l : list EmployeeRow.t) :
  StronglySorted
    (fun x y => (EmployeeRow.total_sales y <= EmployeeRow.total_sales x)%Q)
    (sort_by_sales l).
Proof.
  induction l as [|a r IH]; cbn; [constructor|].
  apply insert_by_sales_sorted. exact IH.
Qed.

Lemma StronglySorted_app_inv {A : Type} (R : A -> A -> Prop)
    (l1 l2 : list A) :
  StronglySorted R (l1 ++ l2) ->
  forall a b, In a l1 -> In b l2 -> R a b.
Proof.
  induction l1 as [|x r IH]; intros S a b Ha Hb; [destruct Ha|].
  cbn [app] in S. apply StronglySorted_inv in S. destruct S as [S F].
  destruct Ha as [<-|Ha].
  - rewrite Forall_forall in F. apply F. apply in_or_app. right; exact Hb.
  - apply (IH S a b Ha Hb).
Qed.

(** X13. The ranking shows at most five agents, all of them agents of the
    list, in descending order of [total_sales]; no agent left out has sold
    more than one that is shown; and a list that is already in descending
    order comes back as it is, ties included. *)
Theorem ranking_is_the_top_five (employees : list EmployeeRow.t) :
  List.length (ranking employees) = Nat.min 5 (List.length employees)
  /\ (forall a, In a (ranking employees) -> In a employees)
  /\ StronglySorted
       (fun x y => (EmployeeRow.total_sales y <= EmployeeRow.total_sales x)%Q)
       (ranking employees)
  /\ (forall a b, In a (ranking employees) ->
                  In b employees -> ~ In b (ranking employees) ->
                  (EmployeeRow.total_sales b <= EmployeeRow.total_sales a)%Q)
  /\ (StronglySorted
        (fun x y => (EmployeeRow.total_sales y <= EmployeeRow.total_sales x)%Q)
        employees ->
      sort_by_sales employees = employees).
Proof.
  unfold ranking.
  pose proof (sort_by_sales_perm employees) as P.
  pose proof (sort_by_sales_sorted employees) as S.
  split; [|split; [|split; [|split]]].
  - rewrite length_firstn, (Permutation_length P). reflexivity.
  - intros a Ha. apply (Permutation_in _ (Permutation_sym P)).
    rewrite <- (firstn_skipn 5 (sort_by_sales employees)).
    apply in_or_app. left; exact Ha.
  - rewrite <- (firstn_skipn 5 (sort_by_sales employees)) in S.
    clear P. revert S.
    generalize (skipn 5 (sort_by_sales employees)) as tl.
    induction (firstn 5 (sort_by_sales employees)) as [|x r IH];
      intros tl S; [constructor|].
    cbn [app] in S. apply StronglySorted_inv in S. destruct S as [S F].
    constructor; [apply (IH tl S)|].
    rewrite Forall_forall in *. intros y Hy. apply F.
    apply in_or_app. left; exact Hy.
  - intros a b Ha Hb Nb.
    rewrite <- (firstn_skipn 5 (sort_by_sales employees)) in S.
    apply (StronglySorted_app_inv _ _ _ S a b Ha).
    apply (Permutation_in _ P) in Hb.
    rewrite <- (firstn_skipn 5 (sort_by_sales employees)) in Hb.
    apply in_app_or in Hb. destruct Hb as [Hb|Hb]; [contradiction|exact Hb].
  - clear P S. induction 1 as [|a r Hr IH Ha]; [reflexivity|].
    cbn [sort_by_sales fold_right]. fold (sort_by_sales r). rewrite IH.
    destruct r as [|b r']; [reflexivity|].
    cbn [insert_by_sales].
    rewrite Forall_forall in Ha.
    assert (E : Qle_bool (EmployeeRow.total_sales b)
                  (EmployeeRow.total_sales a) = true)
      by (apply Qle_bool_iff, Ha; left; reflexivity).
    rewrite E. reflexivity.
Qed.

Lemma ranking_is_the_top_five_witness :
  sort_by_sales (get_employees shop_with_sales) = get_employees shop_with_sales.
Proof.
  destruct (ranking_is_the_top_five (get_employees shop_with_sales))
    as [_ [_ [_ [_ H]]]].
  apply H. cbn.
  constructor; [constructor; [constructor|constructor]|].
  constructor; [|constructor].
  vm_compute. discriminate.
Defined.

(** ** The case editor *)

Lemma editor_set_quantity_length (f : Z -> Z) (idx : nat)
    (items : list EditorItem.t) :
  List.length (editor_set_quantity f idx items) = List.length items.
Proof.
  revert idx. induction items as [|i r IH]; intros [|n]; cbn;
    try reflexivity.
  rewrite IH. reflexivity.
Qed.

Lemma editor_set_quantity_Forall (f : Z -> Z) (idx : nat)
    (items : list EditorItem.t) :
  (forall q, 1 <= q -> 1 <= f q) ->
  Forall (fun i => 1 <= EditorItem.quantity i) items ->
  Forall (fun i => 1 <= EditorItem.quantity i)
         (editor_set_quantity f idx items).
Proof.
  intros Hf H. revert idx.
  induction H as [|i r Hi Hr IH]; intros [|n]; cbn [editor_set_quantity];
    constructor; auto.
  cbn. apply Hf. exact Hi.
Qed.

(** X14. In the case editor no button brings a quantity below one: the minus
    button stops at 1 whatever the quantity was, and adding a product, raising
    a quantity or removing a row keeps every quantity at 1 or more once they
    all are. Plus followed by minus on the same row restores the list, and
    neither changes the number of rows. *)
Theorem editor_quantities_stay_positive (items : list EditorItem.t)
    (idx : nat) (p : Product.t) :
  (forall i, nth_error (editor_minus idx items) idx = Some i ->
             1 <= EditorItem.quantity i)
  /\ List.length (editor_minus idx items) = List.length items
  /\ List.length (editor_plus idx items) = List.length items
  /\ (Forall (fun i => 1 <= EditorItem.quantity i) items ->
      Forall (fun i => 1 <= EditorItem.quantity i) (editor_minus idx items)
      /\ Forall (fun i => 1 <= EditorItem.quantity i) (editor_plus idx items)
      /\ Forall (fun i => 1 <= EditorItem.quantity i)
           (editor_remove idx items)
      /\ Forall (fun i => 1 <= EditorItem.quantity i) (editor_add p items)
      /\ editor_minus idx (editor_plus idx items) = items).
Proof.
  split; [|split; [|split]].
  - revert idx. unfold editor_minus.
    induction items as [|i r IH]; intros [|n] x; cbn; try discriminate.
    + intro E. injection E as <-. cbn. lia.
    + apply IH.
  - apply editor_set_quantity_length.
  - apply editor_set_quantity_length.
  - intro H. split; [|split; [|split; [|split]]].
    + apply editor_set_quantity_Forall; [intros; lia|exact H].
    + apply editor_set_quantity_Forall; [intros; lia|exact H].
    + revert idx. induction H as [|i r Hi Hr IH]; intros [|n]; cbn;
        auto.
    + unfold editor_add. apply Forall_app. split; [exact H|].
      constructor; [cbn; lia|constructor].
    + unfold editor_minus, editor_plus. revert idx.
      induction H as [|i r Hi Hr IH]; intros [|n]; cbn; try reflexivity.
      * destruct i as [pid pn pc pp q pr]. cbn in *. f_equal. f_equal. lia.
      * rewrite IH. reflexivity.
Qed.

Lemma editor_quantities_stay_positive_witness :
  editor_minus 0 (editor_plus 0
    (editor_add {| Product.id := 1; Product.name := "Brinco Argola";
                   Product.category := "brinco"; Product.price := 100;
                   Product.photo := None; Product.status := "active" |} []))
  = editor_add {| Product.id := 1; Product.name := "Brinco Argola";
                  Product.category := "brinco"; Product.price := 100;
                  Product.photo := None; Product.status := "active" |} [].
Proof.
  destruct (editor_quantities_stay_positive
              (editor_add {| Product.id := 1; Product.name := "Brinco Argola";
                             Product.category := "brinco";
                             Product.price := 100; Product.photo := None;
                             Product.status := "active" |} [])
              0%nat
              {| Product.id := 1; Product.name := "Brinco Argola";
                 Product.category := "brinco"; Product.price := 100;
                 Product.photo := None; Product.status := "active" |})
    as [_ [_ [_ H]]].
  apply H. repeat constructor. cbn. lia.
Defined.




(** ** The two stock views *)

Lemma map_item_allCommissionedItems (cases : list CaseRow.t) :
  map CommissionedItem.item (allCommissionedItems cases)
  = items_in_field cases.
Proof.
  unfold allCommissionedItems, items_in_field.
  induction (activeCases cases) as [|c r IH]; [reflexivity|].
  cbn [flat_map]. rewrite map_app, IH, map_map. cbn.
  rewrite map_id. reflexivity.
Qed.

Lemma stock_get_set (acc : list (Z * Z)) (key v key' : Z) :
  stock_get (stock_set acc key v) key'
  = if key =? key' then v else stock_get acc key'.
Proof.
  induction acc as [|[k w] rest IH]; cbn [stock_set stock_get].
  - destruct (key =? key'); reflexivity.
  - destruct (k =? key) eqn:E; cbn [stock_get].
    + apply Z.eqb_eq in E. subst k.
      destruct (key =? key'); reflexivity.
    + rewrite IH. destruct (k =? key') eqn:K; [|reflexivity].
      apply Z.eqb_eq in K. subst k. rewrite Z.eqb_sym, E. reflexivity.
Qed.

Lemma NoDup_snoc {A : Type} (l : list A) (a : A) :
  NoDup l -> ~ In a l -> NoDup (l ++ [a]).
Proof.
  intros H N. induction H as [|x r Hx Hr IH]; cbn.
  - constructor; [intros []|constructor].
  - constructor.
    + intro I. apply in_app_or in I. destruct I as [I|[<-|[]]].
      * contradiction.
      * apply N. left; reflexivity.
    + apply IH. intro I. apply N. right; exact I.
Qed.

Lemma summarize_keys (acc : list (Z * ProductSummary.t)) (item : ItemRow.t)
    (key : Z) :
  In key (map fst (summarize acc item))
  <-> key = ItemRow.product_id item \/ In key (map fst acc).
Proof.
  induction acc as [|[k entry] rest IH]; cbn [summarize].
  - cbn. intuition congruence.
  - destruct (k =? ItemRow.product_id item) eqn:E.
    + apply Z.eqb_eq in E. cbn [map fst In]. intuition congruence.
    + destruct (ItemRow.product_id item <? k); cbn [map fst In].
      * intuition congruence.
      * rewrite IH. intuition congruence.
Qed.

Lemma summarize_sorted (acc : list (Z * ProductSummary.t))
    (item : ItemRow.t) :
  StronglySorted Z.lt (map fst acc) ->
  StronglySorted Z.lt (map fst (summarize acc item)).
Proof.
  induction acc as [|[k entry] rest IH]; intro S; cbn [summarize].
  - cbn. constructor; constructor.
  - cbn [map fst] in S. apply StronglySorted_inv in S. destruct S as [S F].
    destruct (k =? ItemRow.product_id item) eqn:E.
    + cbn [map fst]. constructor; assumption.
    + destruct (ItemRow.product_id item <? k) eqn:L.
      * apply Z.ltb_lt in L. cbn [map fst].
        constructor; [constructor; assumption|].
        constructor; [exact L|].
        revert F. apply Forall_impl. intros x Hx. lia.
      * apply Z.ltb_ge in L. apply Z.eqb_neq in E. cbn [map fst].
        constructor; [apply IH; exact S|].
        apply Forall_forall. intros x Hx. apply summarize_keys in Hx.
        destruct Hx as [->|Hx]; [lia|].
        rewrite Forall_forall in F. apply F. exact Hx.
Qed.

Lemma find_above (acc : list (Z * ProductSummary.t)) (key : Z) :
  Forall (Z.lt key) (map fst acc) ->
  find (fun e => fst e =? key) acc = None.
Proof.
  induction acc as [|[k entry] rest IH]; intro F; [reflexivity|].
  cbn [map fst] in F. apply Forall_cons_iff in F. destruct F as [L F].
  cbn [find fst].
  assert (N : (k =? key) = false) by (apply Z.eqb_neq; lia).
  rewrite N. apply IH. exact F.
Qed.

Lemma summarize_find_other (acc : list (Z * ProductSummary.t))
    (item : ItemRow.t) (key : Z) :
  key <> ItemRow.product_id item ->
  find (fun e => fst e =? key) (summarize acc item)
  = find (fun e => fst e =? key) acc.
Proof.
  intro N. induction acc as [|[k entry] rest IH]; cbn [summarize].
  - cbn [find fst]. apply Z.eqb_neq in N. rewrite Z.eqb_sym, N. reflexivity.
  - destruct (k =? ItemRow.product_id item) eqn:E.
    + cbn [find fst]. apply Z.eqb_eq in E.
      assert (K : (k =? key) = false) by (apply Z.eqb_neq; congruence).
      rewrite K. reflexivity.
    + destruct (ItemRow.product_id item <? k).
      * cbn [find fst]. apply Z.eqb_neq in N. rewrite (Z.eqb_sym _ key), N.
        reflexivity.
      * cbn [find fst]. destruct (k =? key); [reflexivity|exact IH].
Qed.

Lemma summarize_find_same (acc : list (Z * ProductSummary.t))
    (item : ItemRow.t) :
  StronglySorted Z.lt (map fst acc) ->
  option_map snd
    (find (fun e => fst e =? ItemRow.product_id item) (summarize acc item))
  = Some
      match find (fun e => fst e =? ItemRow.product_id item) acc with
      | Some e =>
          {| ProductSummary.name := ProductSummary.name (snd e);
             ProductSummary.category := ProductSummary.category (snd e);
             ProductSummary.total_qty :=
               ProductSummary.total_qty (snd e) + ItemRow.quantity item;
             ProductSummary.total_value :=
               (ProductSummary.total_value (snd e)
                + ItemRow.price_at_time item
                  * inject_Z (ItemRow.quantity item))%Q;
             ProductSummary.photo := ProductSummary.photo (snd e) |}
      | None =>
          {| ProductSummary.name := ItemRow.product_name item;
             ProductSummary.category := ItemRow.product_category item;
             ProductSummary.total_qty := 0 + ItemRow.quantity item;
             ProductSummary.total_value :=
               (0 + ItemRow.price_at_time item
                    * inject_Z (ItemRow.quantity item))%Q;
             ProductSummary.photo := ItemRow.product_photo item |}
      end.
Proof.
  induction acc as [|[k entry] rest IH]; intro S; cbn [summarize].
  - cbn [find fst]. rewrite Z.eqb_refl. reflexivity.
  - cbn [map fst] in S. apply StronglySorted_inv in S. destruct S as [S F].
    destruct (k =? ItemRow.product_id item) eqn:E.
    + cbn [find fst]. rewrite E. reflexivity.
    + destruct (ItemRow.product_id item <? k) eqn:L.
      * apply Z.ltb_lt in L. cbn [find fst]. rewrite Z.eqb_refl, E.
        rewrite find_above; [reflexivity|].
        revert F. apply Forall_impl. intros x Hx. lia.
      * cbn [find fst]. rewrite E. apply IH. exact S.
Qed.

Lemma items_of_product_snoc (key : Z) (items : list ItemRow.t)
    (i : ItemRow.t) :
  items_of_product key (items ++ [i])
  = items_of_product key items
    ++ (if ItemRow.product_id i =? key then [i] else []).
Proof. unfold items_of_product. rewrite filter_app. reflexivity. Qed.

Lemma productSummary_snoc (all : list CommissionedItem.t)
    (x : CommissionedItem.t) :
  productSummary (all ++ [x])
  = summarize (productSummary all) (CommissionedItem.item x).
Proof. unfold productSummary. rewrite fold_left_app. reflexivity. Qed.

Lemma productSummary_grouped (all : list CommissionedItem.t) :
  StronglySorted Z.lt (map fst (productSummary all))
  /\ forall key,
       option_map snd (find (fun e => fst e =? key) (productSummary all))
       = grouped key (map CommissionedItem.item all).
Proof.
  induction all as [|x all [S G]] using rev_ind.
  - split; [constructor|]. intro key. reflexivity.
  - rewrite productSummary_snoc. split; [apply summarize_sorted; exact S|].
    intro key. rewrite map_app. cbn [map]. unfold grouped.
    rewrite items_of_product_snoc.
    destruct (Z.eq_dec key (ItemRow.product_id (CommissionedItem.item x)))
      as [->|N].
    + rewrite Z.eqb_refl, (summarize_find_same _ _ S).
      specialize (G (ItemRow.product_id (CommissionedItem.item x))).
      unfold grouped in G.
      destruct (find _ (productSummary all)) as [[k e]|];
        destruct (items_of_product _ (map CommissionedItem.item all))
          as [|first rest]; cbn [option_map snd] in G; try discriminate G.
      * pose proof (f_equal (fun o => match o with
                                      | Some v => v
                                      | None => e
                                      end) G) as He.
        cbv beta iota in He. clear G. subst e. cbn [snd app].
        cbn [ProductSummary.name ProductSummary.category
             ProductSummary.total_qty ProductSummary.total_value
             ProductSummary.photo].
        unfold running_value.
        change (first :: rest ++ [CommissionedItem.item x])
          with ((first :: rest) ++ [CommissionedItem.item x]).
        rewrite !fold_left_app. reflexivity.
      * reflexivity.
    + rewrite (summarize_find_other _ _ _ N), G. unfold grouped.
      assert (E : (ItemRow.product_id (CommissionedItem.item x) =? key)
                  = false) by (apply Z.eqb_neq; intro X; apply N; symmetry;
                               exact X).
      rewrite E, app_nil_r. reflexivity.
Qed.

Lemma sorted_find_In (l : list (Z * ProductSummary.t)) (key : Z)
    (entry : ProductSummary.t) :
  StronglySorted Z.lt (map fst l) -> In (key, entry) l ->
  find (fun e => fst e =? key) l = Some (key, entry).
Proof.
  induction l as [|[k e] r IH]; intros S H; [destruct H|].
  cbn [map fst] in S. apply StronglySorted_inv in S. destruct S as [S F].
  cbn [find fst]. destruct H as [H|H].
  - injection H as -> ->. rewrite Z.eqb_refl. reflexivity.
  - assert (N : (k =? key) = false).
    { apply Z.eqb_neq. rewrite Forall_forall in F.
      specialize (F key (in_map fst _ _ H)). cbn in F. lia. }
    rewrite N. apply IH; assumption.
Qed.

Lemma quantity_of_items_of_product (key : Z) (items : list ItemRow.t) :
  forall a,
  fold_left (fun acc i => acc + ItemRow.quantity i)
            (items_of_product key items) a
  = a + quantity_of key items.
Proof.
  unfold items_of_product.
  induction items as [|i r IH]; intro a; cbn [filter quantity_of];
    [cbn; lia|].
  destruct (ItemRow.product_id i =? key); cbn [fold_left]; rewrite IH; lia.
Qed.

Lemma grouped_qty (key : Z) (items : list ItemRow.t) :
  match grouped key items with
  | Some g => ProductSummary.total_qty g
  | None => 0
  end = quantity_of key items.
Proof.
  pose proof (quantity_of_items_of_product key items 0) as H.
  unfold grouped. destruct (items_of_product key items) as [|first rest].
  - cbn in H. lia.
  - cbn [ProductSummary.total_qty]. rewrite H. lia.
Qed.

Lemma summary_qty_grouped (all : list CommissionedItem.t) (key : Z) :
  summary_qty (productSummary all) key
  = quantity_of key (map CommissionedItem.item all).
Proof.
  destruct (productSummary_grouped all) as [_ G].
  rewrite <- grouped_qty, <- G. unfold summary_qty.
  destruct (find _ (productSummary all)); reflexivity.
Qed.

Lemma totalInField_running_value (all : list CommissionedItem.t) :
  totalInField all = running_value (map CommissionedItem.item all).
Proof.
  unfold totalInField, running_value. generalize 0%Q.
  induction all as [|x r IH]; intro a; [reflexivity|].
  cbn [map fold_left]. apply IH.
Qed.

Lemma productSummary_conserves_totals_aux (cases : list CaseRow.t) :
  StronglySorted Z.lt (map fst (productSummary (allCommissionedItems cases)))
  /\ forall key, summary_qty (productSummary (allCommissionedItems cases)) key
                 = quantity_of key (items_in_field cases).
Proof.
  split.
  - apply productSummary_grouped.
  - intro key. rewrite summary_qty_grouped, map_item_allCommissionedItems.
    reflexivity.
Qed.

(** X16. Grouping the commissioned items by product: the summary has one
    entry per product that occurs among the items of the cases that are not
    idle, and, the product ids being row ids below 2^32 - 1, the view lists
    the entries in ascending order of product id.  An entry shows name,
    category and photo as the first item of its product shows them; its
    quantity is the number of pieces of
    that product; and its value is the running total of the items of that
    product alone, added item after item from 0 in the order of the
    listing.  "Total em Consignação" is the running total of all the items
    in that order. *)
Theorem productSummary_groups_by_product (cases : list CaseRow.t) :
  let all := allCommissionedItems cases in
  let items := items_in_field cases in
  (Forall (fun i => 0 <= ItemRow.product_id i < 4294967295) items ->
   StronglySorted Z.lt (map fst (productSummary all)))
  /\ NoDup (map fst (productSummary all))
  /\ (forall key, In key (map fst (productSummary all))
                  <-> In key (map ItemRow.product_id items))
  /\ (forall key entry, In (key, entry) (productSummary all)
                        <-> grouped key items = Some entry)
  /\ (forall key, summary_qty (productSummary all) key
                  = quantity_of key items)
  /\ totalInField all = running_value items.
Proof.
  intros all items. subst all items.
  destruct (productSummary_grouped (allCommissionedItems cases)) as [S G].
  rewrite map_item_allCommissionedItems in G.
  assert (K : forall key entry,
            In (key, entry) (productSummary (allCommissionedItems cases))
            <-> grouped key (items_in_field cases) = Some entry).
  { intros key entry. rewrite <- G. split.
    - intro H. rewrite (sorted_find_In _ _ _ S H). reflexivity.
    - intro H.
      destruct (find _ (productSummary (allCommissionedItems cases)))
        as [[k e]|] eqn:F; [|discriminate H].
      cbn in H. injection H as ->. apply find_some in F.
      destruct F as [F E]. cbn in E. apply Z.eqb_eq in E. subst k.
      exact F. }
  split; [intros _; exact S|]. split; [|split; [|split; [exact K|split]]].
  - clear - S. induction S as [|a l _ IH F]; constructor; [|exact IH].
    intro I. rewrite Forall_forall in F. specialize (F a I). lia.
  - intro key. split.
    + intro H. apply in_map_iff in H. destruct H as [[k e] [<- H]].
      apply K in H. cbn [fst]. unfold grouped in H.
      destruct (items_of_product k (items_in_field cases))
        as [|first rest] eqn:F; [discriminate H|].
      assert (I : In first (items_of_product k (items_in_field cases)))
        by (rewrite F; left; reflexivity).
      apply filter_In in I. destruct I as [I E]. apply Z.eqb_eq in E.
      rewrite <- E. apply in_map. exact I.
    + intro H. apply in_map_iff in H. destruct H as [i [<- H]].
      assert (I : In i (items_of_product (ItemRow.product_id i)
                          (items_in_field cases)))
        by (apply filter_In; split; [exact H|apply Z.eqb_refl]).
      destruct (grouped (ItemRow.product_id i) (items_in_field cases))
        as [g|] eqn:Gr.
      * apply K in Gr. apply (in_map fst) in Gr. exact Gr.
      * unfold grouped in Gr.
        destruct (items_of_product _ (items_in_field cases));
          [destruct I|discriminate Gr].
  - intro key. rewrite summary_qty_grouped, map_item_allCommissionedItems.
    reflexivity.
  - rewrite totalInField_running_value, map_item_allCommissionedItems.
    reflexivity.
Qed.

Lemma productSummary_groups_by_product_witness :
  StronglySorted Z.lt
    (map fst (productSummary (allCommissionedItems [mala_mista_listed])))
  /\ exists entry,
       In (2, entry) (productSummary (allCommissionedItems [mala_mista_listed]))
       /\ ProductSummary.total_qty entry = 4
       /\ ProductSummary.total_value entry
          = (0 + 3000 * inject_Z 1 + 2900 * inject_Z 3)%Q.
Proof.
  destruct (productSummary_groups_by_product [mala_mista_listed])
    as [S [_ [_ [K _]]]].
  split.
  - apply S. repeat constructor; cbn; lia.
  - eexists. split; [apply K; reflexivity|]. split; reflexivity.
Defined.

Lemma fieldStock_fold_items (items : list ItemRow.t) :
  forall (acc : list (Z * Z)) (key : Z),
  stock_get
    (fold_left
       (fun acc item =>
          stock_set acc (ItemRow.product_id item)
            (stock_get acc (ItemRow.product_id item) + ItemRow.quantity item))
       items acc) key
  = stock_get acc key + quantity_of key items.
Proof.
  induction items as [|i r IH]; intros acc key; cbn [fold_left quantity_of];
    [lia|].
  rewrite IH, stock_get_set.
  destruct (ItemRow.product_id i =? key) eqn:E; [|lia].
  apply Z.eqb_eq in E. subst key. lia.
Qed.

Lemma quantity_of_app (key : Z) (l1 l2 : list ItemRow.t) :
  quantity_of key (l1 ++ l2) = quantity_of key l1 + quantity_of key l2.
Proof. induction l1 as [|i r IH]; cbn [app quantity_of]; lia. Qed.

(** X17. The number "em campo" on a product card is the number of pieces of
    that product among the listed items of the cases that are not idle, and it
    is the quantity that the commissioned-products view shows for the same
    product; a product that no such case holds shows 0. *)
Theorem inField_counts_pieces (cases : list CaseRow.t) (p : Product.t) :
  inField cases p = quantity_of (Product.id p) (items_in_field cases)
  /\ inField cases p
     = summary_qty (productSummary (allCommissionedItems cases))
         (Product.id p)
  /\ (~ In (Product.id p) (map ItemRow.product_id (items_in_field cases)) ->
      inField cases p = 0).
Proof.
  assert (G : forall key,
            stock_get (fieldStock cases) key
            = quantity_of key (items_in_field cases)).
  { intro key. unfold fieldStock, items_in_field.
    change (filter (fun c => negb (String.eqb (CaseRow.status c) "PARADO"))
              cases) with (activeCases cases).
    assert (F : forall acc,
              stock_get
                (fold_left
                   (fun acc c =>
                      fold_left
                        (fun acc item =>
                           stock_set acc (ItemRow.product_id item)
                             (stock_get acc (ItemRow.product_id item)
                              + ItemRow.quantity item))
                        (CaseRow.items c) acc)
                   (activeCases cases) acc) key
              = stock_get acc key
                + quantity_of key (flat_map CaseRow.items (activeCases cases))).
    { induction (activeCases cases) as [|c r IH]; intro acc;
        cbn [fold_left flat_map]; [cbn; lia|].
      rewrite IH, fieldStock_fold_items, quantity_of_app. lia. }
    rewrite F. cbn. lia. }
  unfold inField. split; [apply G|]. split.
  - rewrite G.
    destruct (productSummary_conserves_totals_aux cases) as [_ H].
    symmetry. apply H.
  - intro N. rewrite G. clear G.
    induction (items_in_field cases) as [|i r IH]; [reflexivity|].
    cbn [quantity_of]. cbn [map In] in N.
    destruct (ItemRow.product_id i =? Product.id p) eqn:E.
    + apply Z.eqb_eq in E. exfalso. apply N. left; exact E.
    + assert (Z0 : quantity_of (Product.id p) r = 0)
        by (apply IH; intro I; apply N; right; exact I).
      lia.
Qed.

(** ** Referential integrity over the reachable states *)

Lemma table_ok_empty {R : Type} (key : R -> Z) : table_ok key empty_table.
Proof. split; [constructor|]. split; [intros r []|cbn; lia]. Qed.

Lemma table_ok_append {R : Type} (key : R -> Z) (t : table R) (r : R) :
  table_ok key t -> key r = next_id t -> table_ok key (append_row t r).
Proof.
  intros [N [A S]] K. unfold table_ok, append_row, next_id in *.
  cbn [rows seq]. split; [|split].
  - rewrite map_app. cbn [map]. apply NoDup_snoc; [exact N|].
    intro I. apply in_map_iff in I. destruct I as [x [Hx Hin]].
    specialize (A x Hin). lia.
  - intros x Hx. apply in_app_or in Hx. destruct Hx as [Hx|[<-|[]]].
    + specialize (A x Hx). lia.
    + lia.
  - lia.
Qed.

Lemma table_ok_map {R : Type} (key : R -> Z) (t : table R) (f : R -> R) :
  (forall r, key (f r) = key r) ->
  table_ok key t -> table_ok key (with_rows t (map f (rows t))).
Proof.
  intros K [N [A S]]. unfold table_ok, with_rows. cbn [rows seq].
  split; [|split; [|exact S]].
  - rewrite map_map. rewrite (map_ext _ key K). exact N.
  - intros x Hx. apply in_map_iff in Hx. destruct Hx as [y [<- Hy]].
    rewrite K. apply A. exact Hy.
Qed.

Lemma NoDup_map_filter {R : Type} (key : R -> Z) (f : R -> bool)
    (l : list R) :
  NoDup (map key l) -> NoDup (map key (filter f l)).
Proof.
  induction l as [|a r IH]; intro N; [constructor|].
  cbn [map] in N. apply NoDup_cons_iff in N. destruct N as [Na Nr].
  cbn [filter]. destruct (f a); [|apply IH; exact Nr].
  cbn [map]. constructor; [|apply IH; exact Nr].
  intro I. apply Na. apply in_map_iff in I. destruct I as [x [Hx Hin]].
  apply filter_In in Hin. rewrite <- Hx. apply in_map. apply Hin.
Qed.

Lemma table_ok_filter {R : Type} (key : R -> Z) (t : table R)
    (f : R -> bool) :
  table_ok key t -> table_ok key (with_rows t (filter f (rows t))).
Proof.
  intros [N [A S]]. unfold table_ok, with_rows. cbn [rows seq].
  split; [|split; [|exact S]].
  - apply NoDup_map_filter. exact N.
  - intros x Hx. apply filter_In in Hx. apply A. apply Hx.
Qed.

Lemma existsb_app_l {A : Type} (f : A -> bool) (l1 l2 : list A) :
  existsb f l1 = true -> existsb f (l1 ++ l2) = true.
Proof. intro H. rewrite existsb_app, H. reflexivity. Qed.

Lemma existsb_filter_other {A : Type} (key : A -> Z) (id k : Z)
    (l : list A) :
  k <> id ->
  existsb (fun x => key x =? k) (filter (fun x => negb (key x =? id)) l)
  = existsb (fun x => key x =? k) l.
Proof.
  intro N. induction l as [|a r IH]; [reflexivity|].
  cbn [filter existsb]. destruct (key a =? id) eqn:E; cbn [negb].
  - rewrite IH. apply Z.eqb_eq in E.
    assert (F : (key a =? k) = false) by (apply Z.eqb_neq; lia).
    rewrite F. reflexivity.
  - cbn [existsb]. rewrite IH. reflexivity.
Qed.

Lemma set_total_value_employee_id (total_value : Q) (id : Z) (c : Case.t) :
  Case.employee_id (set_total_value total_value id c) = Case.employee_id c.
Proof. unfold set_total_value. destruct (Case.id c =? id); reflexivity. Qed.

Lemma In_item_rows_product (caseId first : Z) (items : list Item.t)
    (i : CaseItem.t) :
  In i (item_rows caseId first items) ->
  exists item, In item items /\ CaseItem.product_id i = Item.product_id item.
Proof.
  revert first. induction items as [|item rest IH]; intros first H;
    [destruct H|].
  destruct H as [<-|H].
  - exists item. split; [left; reflexivity|reflexivity].
  - destruct (IH _ H) as [x [Hx E]]. exists x. split; [right|]; assumption.
Qed.

Lemma referential_frame (d d' : database) :
  employees d' = employees d -> products d' = products d ->
  cases d' = cases d -> case_items d' = case_items d ->
  manual_commissions d' = manual_commissions d ->
  referential d -> referential d'.
Proof.
  intros Ee Ep Ec Ei Em [H1 H2 H3 H4 H5 H6].
  constructor; unfold employee_ref_ok, employee_exists, product_exists in *;
    rewrite ?Ee, ?Ep, ?Ec, ?Ei, ?Em; assumption.
Qed.

Lemma referential_employees (d : database) (t : table Employee.t) :
  table_ok Employee.id t ->
  (forall k, employee_exists d k = true ->
             existsb (fun e => Employee.id e =? k) (rows t) = true) ->
  referential d -> referential (set_employees d t).
Proof.
  intros T M [H1 H2 H3 H4 H5 H6]. constructor; cbn; try assumption.
  - intros c Hc. specialize (H4 c Hc).
    unfold employee_ref_ok in *. destruct (Case.employee_id c); [|reflexivity].
    apply M. exact H4.
  - intros m Hm. apply M. apply (H6 m Hm).
Qed.

Lemma referential_products (d : database) (t : table Product.t) :
  table_ok Product.id t ->
  (forall k, product_exists d k = true ->
             existsb (fun p => Product.id p =? k) (rows t) = true) ->
  referential d -> referential (set_products d t).
Proof.
  intros T M [H1 H2 H3 H4 H5 H6]. constructor; cbn; try assumption.
  intros i Hi. apply M. apply (H5 i Hi).
Qed.

Lemma referential_cases (d d' : database) :
  employees d' = employees d -> products d' = products d ->
  manual_commissions d' = manual_commissions d ->
  table_ok Case.id (cases d') ->
  (forall c, In c (rows (cases d')) ->
             employee_ref_ok d (Case.employee_id c) = true) ->
  (forall i, In i (rows (case_items d')) ->
             product_exists d (CaseItem.product_id i) = true) ->
  referential d -> referential d'.
Proof.
  intros Ee Ep Em T A P [H1 H2 H3 H4 H5 H6].
  constructor; unfold employee_ref_ok, employee_exists, product_exists in *;
    rewrite ?Ee, ?Ep, ?Em; assumption.
Qed.

Lemma referential_delete_employees_id (id : Z) (d : database) :
  foreign_keys d = true -> referential d ->
  referential (snd (delete_employees_id id d)).
Proof.
  intros F R. unfold delete_employees_id, route, bind, delete_employee, ret.
  destruct (0 <? count_cases_in_field d id); [exact R|].
  destruct (fk_check d _) eqn:K; [|exact R]. cbn [snd].
  unfold fk_check in K. rewrite F in K. apply negb_true_iff in K.
  assert (M : forall k, employee_exists d k = true ->
                        employee_referenced d k = true ->
                        existsb (fun e => Employee.id e =? k)
                          (filter (fun e => negb (Employee.id e =? id))
                                  (rows (employees d))) = true).
  { intros k X Y. destruct (Z.eq_dec k id) as [->|N].
    - rewrite X, Y in K. discriminate.
    - rewrite existsb_filter_other by exact N. exact X. }
  destruct R as [H1 H2 H3 H4 H5 H6]. constructor; cbn; try assumption.
  - apply (table_ok_filter Employee.id (employees d)). exact H1.
  - intros c Hc. specialize (H4 c Hc). unfold employee_ref_ok in *.
    destruct (Case.employee_id c) as [k|] eqn:E; [|reflexivity].
    apply M; [exact H4|]. unfold employee_referenced.
    apply orb_true_iff. left. apply existsb_exists. exists c.
    split; [exact Hc|]. rewrite E. cbn. apply Z.eqb_refl.
  - intros m Hm. apply M; [apply (H6 m Hm)|]. unfold employee_referenced.
    apply orb_true_iff. right. apply existsb_exists. exists m.
    split; [exact Hm|]. apply Z.eqb_refl.
Qed.

Lemma referential_post_cases (clock_Date clock_now : Z) (name : string)
    (employee_id : option Z) (photo : option string) (items : list Item.t)
    (d : database) :
  foreign_keys d = true -> referential d ->
  referential (snd (post_cases clock_Date clock_now name employee_id photo
                      items d)).
Proof.
  intros F R. rewrite post_cases_run.
  destruct (fk_check d _) eqn:K; [|exact R]. cbn [snd].
  unfold fk_check in K. rewrite F in K. unfold references_resolve in K.
  apply andb_true_iff in K. destruct K as [Ka Kp].
  rewrite forallb_forall in Kp.
  apply (referential_cases d); try reflexivity; [| | |exact R];
    cbn [cases case_items rows seq].
  - pose proof (cases_ok d R) as T.
    apply (table_ok_map Case.id
             (append_row (cases d) _)
             (set_total_value (loop_total items 0) (next_id (cases d))));
      [apply set_total_value_id|].
    apply table_ok_append; [exact T|reflexivity].
  - intros c Hc. apply in_map_iff in Hc. destruct Hc as [c1 [<- Hc]].
    rewrite set_total_value_employee_id.
    apply in_app_or in Hc. destruct Hc as [Hc|[<-|[]]].
    + apply (case_agents_exist d R c1 Hc).
    + exact Ka.
  - intros i Hi. apply in_app_or in Hi. destruct Hi as [Hi|Hi].
    + apply (item_products_exist d R i Hi).
    + apply In_item_rows_product in Hi. destruct Hi as [item [Hitem ->]].
      apply Kp. exact Hitem.
Qed.

Lemma referential_put_cases_id (caseId : Z) (name : string)
    (employee_id : option Z) (status : string)
    (items : option (list Item.t)) (d : database) :
  foreign_keys d = true -> referential d ->
  referential (snd (put_cases_id caseId name employee_id status items d)).
Proof.
  intros F R.
  assert (Agent : forall c,
            (negb (case_exists d caseId) || employee_ref_ok d employee_id)
            = true ->
            In c (rows (cases d)) ->
            employee_ref_ok d
              (Case.employee_id (set_scalars name employee_id status caseId c))
            = true).
  { intros c K Hc. unfold set_scalars.
    destruct (Case.id c =? caseId) eqn:E;
      [|apply (case_agents_exist d R c Hc)].
    cbn [Case.employee_id]. apply orb_true_iff in K. destruct K as [K|K];
      [|exact K].
    apply negb_true_iff in K. unfold case_exists in K.
    assert (X : existsb (fun c0 => Case.id c0 =? caseId) (rows (cases d))
                = true)
      by (apply existsb_exists; exists c; split; assumption).
    rewrite X in K. discriminate. }
  destruct items as [items|].
  - rewrite put_cases_id_run_items.
    destruct (fk_check d _) eqn:K; [|exact R]. cbn [snd].
    unfold fk_check in K. rewrite F in K.
    apply andb_true_iff in K. destruct K as [Ka Kp].
    rewrite forallb_forall in Kp.
    apply (referential_cases d); try reflexivity; [| | |exact R];
      cbn [cases case_items with_rows rows seq].
    + rewrite map_map.
      apply (table_ok_map Case.id (cases d)
               (fun c => set_total_value (loop_total items 0) caseId
                           (set_scalars name employee_id status caseId c))).
      * intro c. rewrite set_total_value_id. apply set_scalars_id.
      * apply (cases_ok d R).
    + intros c Hc. apply in_map_iff in Hc. destruct Hc as [c1 [<- Hc]].
      apply in_map_iff in Hc. destruct Hc as [c2 [<- Hc]].
      rewrite set_total_value_employee_id. apply Agent; assumption.
    + intros i Hi. apply in_app_or in Hi. destruct Hi as [Hi|Hi].
      * apply filter_In in Hi. apply (item_products_exist d R i), Hi.
      * apply In_item_rows_product in Hi. destruct Hi as [item [Hitem ->]].
        specialize (Kp item Hitem). apply andb_true_iff in Kp. apply Kp.
  - rewrite put_cases_id_run_scalars.
    destruct (fk_check d _) eqn:K; [|exact R]. cbn [snd].
    unfold fk_check in K. rewrite F in K.
    apply (referential_cases d); try reflexivity; [| | |exact R];
      cbn [cases case_items with_rows rows seq].
    + apply (table_ok_map Case.id (cases d)); [apply set_scalars_id|].
      apply (cases_ok d R).
    + intros c Hc. apply in_map_iff in Hc. destruct Hc as [c1 [<- Hc]].
      apply Agent; assumption.
    + apply (item_products_exist d R).
Qed.

Lemma referential_delete_cases_id (id : Z) (d : database) :
  referential d -> referential (snd (delete_cases_id id d)).
Proof.
  intro R. rewrite delete_cases_id_run. cbn [snd].
  apply (referential_cases d); try reflexivity; [| | |exact R];
    cbn [cases case_items set_cases set_logs set_case_items with_rows rows seq].
  - apply (table_ok_filter Case.id (cases d)). apply (cases_ok d R).
  - intros c Hc. apply filter_In in Hc. apply (case_agents_exist d R c), Hc.
  - intros i Hi. apply filter_In in Hi. apply (item_products_exist d R i), Hi.
Qed.

Lemma referential_serve (r : request) (d : database) :
  foreign_keys d = true -> referential d -> referential (snd (serve r d)).
Proof.
  intros F R. destruct r; cbn [serve].
  - apply referential_employees; [| |exact R].
    + apply table_ok_append; [apply (employees_ok d R)|reflexivity].
    + intros k X. apply existsb_app_l. exact X.
  - apply referential_employees; [| |exact R].
    + apply (table_ok_map Employee.id (employees d));
        [|apply (employees_ok d R)].
      intro e. destruct (Employee.id e =? id); reflexivity.
    + intros k X. cbn [with_rows rows].
      rewrite (existsb_map_id Employee.id); [exact X|].
      intro e. destruct (Employee.id e =? id); reflexivity.
  - apply referential_delete_employees_id; assumption.
  - apply referential_products; [| |exact R].
    + apply table_ok_append; [apply (products_ok d R)|reflexivity].
    + intros k X. apply existsb_app_l. exact X.
  - apply referential_products; [| |exact R].
    + apply (table_ok_map Product.id (products d));
        [|apply (products_ok d R)].
      intro p. destruct (Product.id p =? id); reflexivity.
    + intros k X. cbn [with_rows rows].
      rewrite (existsb_map_id Product.id); [exact X|].
      intro p. destruct (Product.id p =? id); reflexivity.
  - apply referential_products; [| |exact R].
    + apply (table_ok_map Product.id (products d));
        [|apply (products_ok d R)].
      intro p. destruct (Product.id p =? id); reflexivity.
    + intros k X. cbn [with_rows rows].
      rewrite (existsb_map_id Product.id); [exact X|].
      intro p. destruct (Product.id p =? id); reflexivity.
  - apply referential_post_cases; assumption.
  - apply referential_put_cases_id; assumption.
  - apply referential_delete_cases_id. exact R.
  - apply (referential_frame d); try reflexivity. exact R.
  - unfold post_manual_commissions, route, bind, insert_manual_commission,
      ret.
    destruct (fk_check d _) eqn:K; [|exact R]. cbn [snd].
    unfold fk_check in K. rewrite F in K.
    destruct R as [H1 H2 H3 H4 H5 H6]. constructor; cbn; try assumption.
    intros m Hm. apply in_app_or in Hm. destruct Hm as [Hm|[<-|[]]].
    + apply (H6 m Hm).
    + exact K.
  - destruct R as [H1 H2 H3 H4 H5 H6]. constructor; cbn; try assumption.
    intros m Hm. apply filter_In in Hm. apply (H6 m), Hm.
  - apply (referential_frame d); [| | | | |exact R];
      unfold post_whatsapp_send, route;
      destruct (find _ (rows (employees d))); reflexivity.
Qed.

Lemma referential_empty (fk : bool) : referential (empty_db fk).
Proof.
  constructor; try apply table_ok_empty; intros x [].
Qed.

Lemma reachable_invariants (d : database) :
  reachable true d -> foreign_keys d = true /\ consistent d /\ referential d.
Proof.
  induction 1 as [|d r _ [F [C R]]].
  - split; [reflexivity|]. split; [|apply referential_empty].
    constructor.
    + intros c [].
    + intros i [].
    + intros c [].
  - split; [|split].
    + rewrite serve_foreign_keys. exact F.
    + apply consistent_serve; assumption.
    + apply referential_serve; assumption.
Qed.

(** ** The case listing over the reachable states *)

Lemma filter_none {A : Type} (f : A -> bool) (l : list A) :
  (forall x, In x l -> f x = false) -> filter f l = [].
Proof.
  intro H. induction l as [|a r IH]; [reflexivity|].
  cbn [filter]. rewrite (H a (or_introl eq_refl)).
  apply IH. intros x Hx. apply H. right; exact Hx.
Qed.

Lemma filter_unique {A : Type} (key : A -> Z) (k : Z) (l : list A) :
  NoDup (map key l) ->
  existsb (fun x => key x =? k) l = true ->
  exists x, find (fun x => key x =? k) l = Some x
            /\ filter (fun x => key x =? k) l = [x].
Proof.
  induction l as [|a r IH]; intros N E; [discriminate|].
  cbn [map] in N. apply NoDup_cons_iff in N. destruct N as [Na Nr].
  cbn [existsb find filter] in *. destruct (key a =? k) eqn:K.
  - exists a. split; [reflexivity|]. f_equal. apply filter_none.
    intros x Hx. apply Z.eqb_neq. intro X. apply Na.
    apply Z.eqb_eq in K. rewrite K, <- X. apply in_map. exact Hx.
  - cbn [orb] in E. apply (IH Nr E).
Qed.

Lemma listed_value_columns (l : list ItemRow.t) :
  listed_value l = line_total (map item_columns l).
Proof. unfold listed_value, line_total. rewrite map_map. reflexivity. Qed.

Lemma select_case_items_lists (d : database) (caseId : Z) :
  referential d ->
  map item_columns (select_case_items d caseId) = items_of d caseId
  /\ Forall (shows_product d) (select_case_items d caseId).
Proof.
  intro R. unfold select_case_items, items_of.
  assert (P : forall i,
            In i (filter (fun ci => CaseItem.case_id ci =? caseId)
                         (rows (case_items d))) ->
            product_exists d (CaseItem.product_id i) = true).
  { intros i Hi. apply filter_In in Hi. apply (item_products_exist d R i), Hi. }
  induction (filter (fun ci => CaseItem.case_id ci =? caseId)
                    (rows (case_items d))) as [|ci r IH].
  - split; [reflexivity|constructor].
  - destruct IH as [IH1 IH2]; [intros i Hi; apply P; right; exact Hi|].
    destruct (products_ok d R) as [N _].
    destruct (filter_unique Product.id (CaseItem.product_id ci) _ N
                (P ci (or_introl eq_refl))) as [p [Hfind Hfilter]].
    cbn [flat_map]. rewrite Hfilter. cbn [map app]. split.
    + rewrite IH1. destruct ci; reflexivity.
    + constructor; [|exact IH2]. exists p. cbn. repeat split. exact Hfind.
Qed.

Lemma joined_employees_none (d : database) (c : Case.t) :
  Case.employee_id c = None -> joined_employees d c = [].
Proof.
  intro E. unfold joined_employees. rewrite E. apply filter_none.
  reflexivity.
Qed.

Lemma joined_employees_one (d : database) (c : Case.t) (k : Z) :
  referential d -> In c (rows (cases d)) -> Case.employee_id c = Some k ->
  exists e, find (fun e => Employee.id e =? k) (rows (employees d)) = Some e
            /\ joined_employees d c = [e].
Proof.
  intros R Hc E. pose proof (case_agents_exist d R c Hc) as X.
  rewrite E in X. cbn in X. destruct (employees_ok d R) as [N _].
  destruct (filter_unique Employee.id k _ N X) as [e [Hfind Hfilter]].
  exists e. split; [exact Hfind|].
  unfold joined_employees. rewrite E. cbn [null_eqb]. rewrite <- Hfilter.
  apply filter_ext. intro x. apply Z.eqb_sym.
Qed.

Lemma get_cases_lists (d : database) :
  consistent d -> referential d ->
  map case_columns (get_cases d) = rows (cases d)
  /\ Forall (fun r =>
               map item_columns (CaseRow.items r) = items_of d (CaseRow.id r)
               /\ (CaseRow.total_value r == listed_value (CaseRow.items r))%Q
               /\ Forall (shows_product d) (CaseRow.items r)
               /\ shows_agent d r)
            (get_cases d).
Proof.
  intros C R. unfold get_cases.
  assert (S : incl (rows (cases d)) (rows (cases d))) by apply incl_refl.
  revert S. generalize (rows (cases d)) at 1 3 4 5. intros l S.
  induction l as [|c r IH]; [split; [reflexivity|apply Forall_nil]|].
  destruct IH as [IH1 IH2]; [intros x Hx; apply S; right; exact Hx|].
  pose proof (S c (or_introl eq_refl)) as Hc.
  destruct (select_case_items_lists d (Case.id c) R) as [I1 I2].
  pose proof (totals_match d C c Hc) as T.
  cbn [flat_map]. remember (flat_map _ r) as rest eqn:Hrest. clear Hrest.
  destruct (Case.employee_id c) as [k|] eqn:E.
  - destruct (joined_employees_one d c k R Hc E) as [e [Hfind J]].
    rewrite J. cbn [map app]. split.
    + rewrite IH1. f_equal. clear - E. destruct c. cbn in E. subst.
      reflexivity.
    + constructor; [|exact IH2]. cbn [CaseRow.items CaseRow.id
        CaseRow.total_value].
      split; [exact I1|]. split; [|split; [exact I2|]].
      * rewrite listed_value_columns, I1, T. apply running_total_line_total.
      * unfold shows_agent. cbn [CaseRow.employee_id CaseRow.employee_name
          CaseRow.employee_whatsapp]. exists e.
        split; [exact Hfind|]. split; reflexivity.
  - rewrite (joined_employees_none d c E). cbn [map app]. split.
    + rewrite IH1. f_equal. clear - E. destruct c. cbn in E. subst.
      reflexivity.
    + constructor; [|exact IH2]. cbn [CaseRow.items CaseRow.id
        CaseRow.total_value].
      split; [exact I1|]. split; [|split; [exact I2|]].
      * rewrite listed_value_columns, I1, T. apply running_total_line_total.
      * unfold shows_agent. cbn [CaseRow.employee_id CaseRow.employee_name
          CaseRow.employee_whatsapp]. split; reflexivity.
Qed.

Lemma shop_reachable : reachable true shop.
Proof.
  unfold shop.
  apply (reachable_serve true _
           (POST_products "Anel Solitario" "anel" 3000 None)).
  apply (reachable_serve true _
           (POST_products "Brinco Argola" "brinco" 100 None)).
  apply (reachable_serve true _ (POST_employees "Bia" "5511888880000")).
  apply (reachable_serve true _ (POST_employees "Ana" "5511999990000")).
  apply reachable_start.
Qed.

Lemma shop_with_case_reachable : reachable true shop_with_case.
Proof.
  unfold shop_with_case.
  apply (reachable_serve true _
           (POST_cases 1700000000000 1700000000001 "Mala Julho" (Some 1) None
              [{| Item.product_id := 1; Item.quantity := 2;
                  Item.price := 100 |};
               {| Item.product_id := 2; Item.quantity := 1;
                  Item.price := 3000 |}])).
  apply shop_reachable.
Qed.

Lemma mala_julho_is_listed : get_cases shop_with_case = [mala_julho_listed].
Proof. reflexivity. Qed.

Lemma shop_with_sales_reachable : reachable true shop_with_sales.
Proof.
  unfold shop_with_sales.
  apply (reachable_serve true _ (POST_manual_commissions 1 "Oculos" 200 60)).
  apply (reachable_serve true _
           (POST_cases 1700000000000 1700000000001 "Mala Ouro" (Some 1) None
              [{| Item.product_id := 2; Item.quantity := 2;
                  Item.price := 3000 |}])).
  apply shop_reachable.
Qed.

(** X18. On a connection that enforces foreign keys the server never leaves a
    dangling reference or a duplicate id: in every database it can reach, the
    ids of agents, products and cases are distinct and were allocated by their
    tables, every case's agent exists, every line item's product exists, and
    every manual commission's agent exists. *)
Theorem reachable_references_resolve (d : database) :
  reachable true d -> referential d.
Proof.
  intro H.
  assert (G : foreign_keys d = true /\ referential d).
  { induction H as [|d r _ [F R]].
    - split; [reflexivity|apply referential_empty].
    - split.
      + rewrite serve_foreign_keys. exact F.
      + apply referential_serve; assumption. }
  apply G.
Qed.

Lemma reachable_references_resolve_witness : referential shop_with_sales.
Proof.
  apply (reachable_references_resolve shop_with_sales).
  exact shop_with_sales_reachable.
Defined.



Lemma running_total_columns (l : list ItemRow.t) :
  running_total (map item_columns l) = running_value l.
Proof.
  unfold running_total, running_value. generalize 0%Q.
  induction l as [|i r IH]; intro a; [reflexivity|].
  cbn [map fold_left]. apply IH.
Qed.

Lemma editor_total_open (caseObj : CaseRow.t) :
  editor_total (editor_open caseObj) = running_value (CaseRow.items caseObj).
Proof.
  unfold editor_total, editor_open, running_value. generalize 0%Q.
  induction (CaseRow.items caseObj) as [|i r IH]; intro a; [reflexivity|].
  cbn [map fold_left]. apply IH.
Qed.

(** X20. The total that the case editor displays when it opens on a listed
    case is the case's listed [total_value], on a connection that enforces
    foreign keys: the stored total is the running total of the case's line
    items in row order, the listing shows those items in that order, and
    the editor adds them up again item after item from 0.  The three are
    one and the same number, whatever the rounding of the additions. *)
Theorem editor_opens_on_the_stored_total (d : database)
    (caseObj : CaseRow.t) :
  reachable true d -> In caseObj (get_cases d) ->
  editor_total (editor_open caseObj) = CaseRow.total_value caseObj
  /\ CaseRow.total_value caseObj = running_value (CaseRow.items caseObj)
  /\ exists c, In c (rows (cases d))
               /\ Case.id c = CaseRow.id caseObj
               /\ Case.total_value c = CaseRow.total_value caseObj
               /\ Case.total_value c = running_total (items_of d (Case.id c)).
Proof.
  intros H Hin. destruct (reachable_invariants d H) as [_ [C R]].
  destruct (get_cases_lists d C R) as [L1 L2].
  rewrite Forall_forall in L2. destruct (L2 caseObj Hin) as [I _].
  assert (Hc : In (case_columns caseObj) (rows (cases d)))
    by (rewrite <- L1; apply in_map; exact Hin).
  pose proof (totals_match d C _ Hc) as T.
  cbn [case_columns Case.id Case.total_value] in T.
  assert (V : CaseRow.total_value caseObj
              = running_value (CaseRow.items caseObj))
    by (rewrite T, <- I; apply running_total_columns).
  split; [rewrite editor_total_open; symmetry; exact V|].
  split; [exact V|].
  exists (case_columns caseObj). split; [exact Hc|].
  split; [reflexivity|]. split; [reflexivity|exact T].
Qed.

Lemma editor_opens_on_the_stored_total_witness :
  editor_total (editor_open mala_julho_listed) = 3200%Q.
Proof.
  destruct (editor_opens_on_the_stored_total shop_with_case mala_julho_listed
              shop_with_case_reachable) as [E _].
  - rewrite mala_julho_is_listed. left. reflexivity.
  - rewrite E. reflexivity.
Defined.

Lemma reachable_post_cases (clock_Date clock_now : Z) (name : string)
    (employee_id : option Z) (photo : option string) (items : list Item.t)
    (d : database) :
  reachable true d ->
  reachable true (snd (post_cases clock_Date clock_now name employee_id photo
                         items d)).
Proof.
  intro H.
  apply (reachable_serve true d
           (POST_cases clock_Date clock_now name employee_id photo items)).
  exact H.
Qed.

Lemma post_cases_items_of_created (clock_Date clock_now : Z) (name : string)
    (employee_id : option Z) (photo : option string) (items : list Item.t)
    (d : database) :
  consistent d ->
  (foreign_keys d = true -> references_resolve d employee_id items = true) ->
  items_of (snd (post_cases clock_Date clock_now name employee_id photo
                   items d)) (next_id (cases d))
  = item_rows (next_id (cases d)) (next_id (case_items d)) items.
Proof.
  intros C Hfk. rewrite post_cases_run, (fk_check_of_premise _ _ Hfk).
  unfold items_of. cbn [snd case_items rows]. rewrite filter_app.
  unfold next_id at 1.
  rewrite (filter_fresh_nil _ _ (consistent_items_allocated d C)).
  apply filter_item_rows_same.
Qed.

Lemma post_cases_listing (clock_Date clock_now : Z) (name : string)
    (employee_id : option Z) (photo : option string) (items : list Item.t)
    (d : database) :
  reachable true d ->
  references_resolve d employee_id items = true ->
  let d' := snd (post_cases clock_Date clock_now name employee_id photo
                   items d) in
  exists before r,
    get_cases d' = before ++ [r]
    /\ map case_columns before = rows (cases d)
    /\ case_columns r
       = created_case d clock_Date clock_now name employee_id photo items
    /\ (CaseRow.total_value r == Qsum (map item_value items))%Q
    /\ map (fun i => (ItemRow.case_id i, ItemRow.product_id i,
                      ItemRow.quantity i, ItemRow.price_at_time i))
           (CaseRow.items r)
       = map (fun item => (next_id (cases d), Item.product_id item,
                           Item.quantity item, Item.price item)) items
    /\ Forall (shows_product d') (CaseRow.items r)
    /\ shows_agent d' r.
Proof.
  intros H Href d'.
  destruct (reachable_invariants d H) as [_ [C _]].
  destruct (reachable_invariants d'
              (reachable_post_cases clock_Date clock_now name employee_id
                 photo items d H)) as [_ [C' R']].
  destruct (get_cases_lists d' C' R') as [L1 L2].
  assert (Hfk : foreign_keys d = true ->
                references_resolve d employee_id items = true)
    by (intros _; exact Href).
  unfold d' in L1 at 2.
  rewrite (post_cases_stores_created_case _ _ _ _ _ _ _
             (case_ids_allocated d C) Hfk) in L1.
  apply map_eq_app in L1. destruct L1 as [before [last [E [Hb Hl]]]].
  destruct last as [|r [|x last]]; try discriminate Hl.
  assert (Hr : case_columns r
               = created_case d clock_Date clock_now name employee_id photo
                   items)
    by exact (f_equal (hd (case_columns r)) Hl).
  clear Hl. exists before, r. rewrite E in L2. apply Forall_app in L2.
  destruct L2 as [_ L2]. apply Forall_inv in L2.
  destruct L2 as [I [T [P A]]].
  assert (Hid : CaseRow.id r = next_id (cases d)).
  { change (CaseRow.id r) with (Case.id (case_columns r)). rewrite Hr.
    reflexivity. }
  rewrite Hid in I. unfold d' in I.
  rewrite (post_cases_items_of_created _ _ _ _ _ _ _ C Hfk) in I.
  split; [exact E|]. split; [exact Hb|]. split; [exact Hr|].
  split; [|split; [|split; assumption]].
  - change (CaseRow.total_value r) with (Case.total_value (case_columns r)).
    rewrite Hr. unfold created_case. cbn [Case.total_value].
    rewrite loop_total_Qsum. ring.
  - rewrite <- (item_rows_columns (next_id (cases d))
                  (next_id (case_items d)) items).
    rewrite <- I, map_map. reflexivity.
Qed.



(** ** The catalog and the listed cases *)

Lemma filter_map_key {A : Type} (key : A -> Z) (f : A -> A) (k : Z)
    (l : list A) :
  (forall x, key (f x) = key x) ->
  filter (fun x => key x =? k) (map f l)
  = map f (filter (fun x => key x =? k) l).
Proof.
  intro H. induction l as [|a r IH]; [reflexivity|].
  cbn [map filter]. rewrite H. destruct (key a =? k); cbn [map]; rewrite IH;
    reflexivity.
Qed.

Lemma select_case_items_catalog (d : database) (f : Product.t -> Product.t)
    (caseId : Z) :
  (forall p, Product.id (f p) = Product.id p) ->
  map item_columns
    (select_case_items
       (set_products d (with_rows (products d) (map f (rows (products d)))))
       caseId)
  = map item_columns (select_case_items d caseId).
Proof.
  intro H. unfold select_case_items.
  cbn [products case_items set_products with_rows rows].
  induction (filter (fun ci => CaseItem.case_id ci =? caseId)
                    (rows (case_items d))) as [|ci r IH]; [reflexivity|].
  cbn [flat_map]. rewrite !map_app, IH. f_equal.
  rewrite (filter_map_key Product.id f _ _ H), !map_map. reflexivity.
Qed.

Lemma get_cases_catalog (d : database) (f : Product.t -> Product.t) :
  (forall p, Product.id (f p) = Product.id p) ->
  map (fun r => (case_columns r, CaseRow.employee_name r,
                 CaseRow.employee_whatsapp r,
                 map item_columns (CaseRow.items r)))
      (get_cases
         (set_products d (with_rows (products d) (map f (rows (products d))))))
  = map (fun r => (case_columns r, CaseRow.employee_name r,
                   CaseRow.employee_whatsapp r,
                   map item_columns (CaseRow.items r)))
        (get_cases d).
Proof.
  intro H. unfold get_cases.
  cbn [cases set_products]. 
  induction (rows (cases d)) as [|c r IH]; [reflexivity|].
  cbn [flat_map]. rewrite !map_app. f_equal; [|exact IH].
  change (joined_employees
            (set_products d
               (with_rows (products d) (map f (rows (products d))))) c)
    with (joined_employees d c).
  destruct (joined_employees d c) as [|e es].
  - cbn [map]. cbn [CaseRow.items]. rewrite (select_case_items_catalog d f _ H).
    reflexivity.
  - rewrite !map_map. apply map_ext. intro x. cbn [CaseRow.items].
    rewrite (select_case_items_catalog d f _ H). reflexivity.
Qed.

Lemma In_get_cases_items (d : database) (r : CaseRow.t) :
  In r (get_cases d) ->
  CaseRow.items r = select_case_items d (CaseRow.id r).
Proof.
  unfold get_cases. intro H. apply in_flat_map in H.
  destruct H as [c [_ H]].
  destruct (joined_employees d c) as [|e es].
  - destruct H as [<-|[]]. reflexivity.
  - apply in_map_iff in H. destruct H as [x [<- _]]. reflexivity.
Qed.

Lemma In_select_case_items (d : database) (caseId : Z) (i : ItemRow.t) :
  In i (select_case_items d caseId) ->
  exists p, In p (rows (products d))
            /\ Product.id p = ItemRow.product_id i
            /\ ItemRow.product_name i = Product.name p
            /\ ItemRow.product_category i = Product.category p
            /\ ItemRow.product_photo i = Product.photo p.
Proof.
  unfold select_case_items. intro H. apply in_flat_map in H.
  destruct H as [ci [_ H]]. apply in_map_iff in H.
  destruct H as [p [<- Hp]]. apply filter_In in Hp. destruct Hp as [Hp E].
  exists p. split; [exact Hp|]. split; [apply Z.eqb_eq; exact E|].
  repeat split.
Qed.

(** X22. Line items keep the price they were assigned at: after [PUT
    /api/products/:id], whatever the new price, [GET /api/cases] lists the
    same cases with the same columns, [total_value] included, the same agents,
    and the same line items with the same [quantity] and [price_at_time]; what
    changes is that every listed item of that product now shows its new name,
    category and photo. *)
Theorem put_products_id_keeps_snapshots (id : Z) (name category : string)
    (price : Q) (photo : option string) (d : database) :
  let d' := snd (put_products_id id name category price photo d) in
  map (fun r => (case_columns r, CaseRow.employee_name r,
                 CaseRow.employee_whatsapp r,
                 map item_columns (CaseRow.items r)))
      (get_cases d')
  = map (fun r => (case_columns r, CaseRow.employee_name r,
                   CaseRow.employee_whatsapp r,
                   map item_columns (CaseRow.items r)))
        (get_cases d)
  /\ Forall (fun r =>
               Forall (fun i =>
                         ItemRow.product_id i = id ->
                         ItemRow.product_name i = name
                         /\ ItemRow.product_category i = category
                         /\ ItemRow.product_photo i = photo)
                      (CaseRow.items r))
            (get_cases d').
Proof.
  cbv zeta. split.
  - apply (get_cases_catalog d). intro p.
    destruct (Product.id p =? id); reflexivity.
  - apply Forall_forall. intros r Hr. rewrite (In_get_cases_items _ r Hr).
    apply Forall_forall. intros i Hi E.
    apply In_select_case_items in Hi.
    destruct Hi as [p [Hp [Hid [N [C P]]]]].
    rewrite N, C, P. clear N C P.
    unfold put_products_id, route, bind, update_product, ret in Hp.
    cbn [snd products set_products with_rows rows] in Hp.
    apply in_map_iff in Hp. destruct Hp as [p0 [<- _]].
    destruct (Product.id p0 =? id) eqn:K.
    + repeat split.
    + exfalso. apply Z.eqb_neq in K. apply K. rewrite <- E. exact Hid.
Qed.

(** ** Saving a case from the editor without touching it *)

Lemma same_case_refl (c : Case.t) : same_case c c.
Proof. unfold same_case. repeat split. Qed.

Lemma Forall2_map_self {A : Type} (P : A -> A -> Prop) (f : A -> A)
    (l : list A) :
  (forall x, In x l -> P x (f x)) -> Forall2 P l (map f l).
Proof.
  intro H. induction l as [|a r IH]; [constructor|].
  cbn [map]. constructor.
  - apply H. left; reflexivity.
  - apply IH. intros x Hx. apply H. right; exact Hx.
Qed.

Lemma NoDup_map_inj {A : Type} (key : A -> Z) (l : list A) (a b : A) :
  NoDup (map key l) -> In a l -> In b l -> key a = key b -> a = b.
Proof.
  induction l as [|x r IH]; intros N Ha Hb E; [destruct Ha|].
  cbn [map] in N. apply NoDup_cons_iff in N. destruct N as [Nx Nr].
  destruct Ha as [<-|Ha], Hb as [<-|Hb].
  - reflexivity.
  - exfalso. apply Nx. rewrite E. apply in_map. exact Hb.
  - exfalso. apply Nx. rewrite <- E. apply in_map. exact Ha.
  - apply IH; assumption.
Qed.

Lemma employee_exists_truthy (d : database) (k : Z) :
  referential d -> employee_exists d k = true -> truthy (Some k) = true.
Proof.
  intros R E. unfold employee_exists in E. apply existsb_exists in E.
  destruct E as [e [He Hk]]. apply Z.eqb_eq in Hk.
  destruct (employees_ok d R) as [_ [A _]]. specialize (A e He).
  cbn. apply negb_true_iff. apply Z.eqb_neq. lia.
Qed.

(** X23. Opening a listed case in the editor and saving it untouched changes
    nothing but rowids, on a connection that enforces foreign keys: the
    request is accepted; every case keeps its columns, the saved case's
    [total_value] being recomputed to the same number; every case keeps line
    items of the same content in the same order; and agents, products and
    manual commissions are as before. *)
Theorem editor_save_unchanged_keeps_the_ledger (d : database)
    (caseObj : CaseRow.t) :
  reachable true d -> In caseObj (get_cases d) ->
  let r := editor_handleSave caseObj (CaseRow.name caseObj)
             (editor_employeeId caseObj) (CaseRow.status caseObj)
             (editor_open caseObj) in
  let d' := snd (serve r d) in
  fst (serve r d) = res_json json_success
  /\ Forall2 same_case (rows (cases d)) (rows (cases d'))
  /\ (forall k, map item_content (items_of d' k)
                = map item_content (items_of d k))
  /\ employees d' = employees d /\ products d' = products d
  /\ manual_commissions d' = manual_commissions d.
Proof.
  intros H Hin. destruct (reachable_invariants d H) as [_ [C R]].
  destruct (get_cases_lists d C R) as [L1 L2].
  rewrite Forall_forall in L2. destruct (L2 caseObj Hin) as [I _].
  set (c0 := case_columns caseObj).
  assert (Hc0 : In c0 (rows (cases d)))
    by (rewrite <- L1; apply in_map; exact Hin).
  assert (Ex : case_exists d (CaseRow.id caseObj) = true).
  { unfold case_exists. apply existsb_exists. exists c0.
    split; [exact Hc0|apply Z.eqb_refl]. }
  pose proof (case_agents_exist d R c0 Hc0) as Ag.
  cbn [c0 case_columns Case.employee_id] in Ag.
  assert (Et : (if truthy (editor_employeeId caseObj)
                then editor_employeeId caseObj else None)
               = CaseRow.employee_id caseObj).
  { unfold editor_employeeId.
    destruct (CaseRow.employee_id caseObj) as [k|]; [|reflexivity].
    rewrite (employee_exists_truthy d k R Ag).
    rewrite (employee_exists_truthy d k R Ag). reflexivity. }
  set (g := fun ci => {| Item.product_id := CaseItem.product_id ci;
                         Item.quantity := CaseItem.quantity ci;
                         Item.price := CaseItem.price_at_time ci |}).
  assert (Hbody :
    map (fun i => {| Item.product_id := EditorItem.product_id i;
                     Item.quantity := EditorItem.quantity i;
                     Item.price := EditorItem.price_at_time i |})
        (editor_open caseObj)
    = map g (items_of d (CaseRow.id caseObj))).
  { unfold editor_open. rewrite <- I, !map_map. reflexivity. }
  assert (Href : foreign_keys d = true ->
                 references_resolve d (CaseRow.employee_id caseObj)
                   (map g (items_of d (CaseRow.id caseObj))) = true).
  { intros _. unfold references_resolve. rewrite Ag. cbn [andb].
    apply forallb_forall. intros item Hitem. apply in_map_iff in Hitem.
    destruct Hitem as [ci [<- Hci]]. apply filter_In in Hci.
    apply (item_products_exist d R ci), Hci. }
  cbv zeta. unfold editor_handleSave. cbn [serve]. rewrite Et, Hbody.
  rewrite put_cases_id_run_items,
    (put_cases_id_items_accepted _ _ _ _ Ex Href).
  cbn [fst snd cases case_items employees products manual_commissions
       with_rows rows].
  split; [reflexivity|]. split; [|split; [|repeat split]].
  - rewrite map_map. apply Forall2_map_self. intros c Hc.
    destruct (Z.eq_dec (Case.id c) (CaseRow.id caseObj)) as [E|N].
    + assert (Ec : c = c0).
      { destruct (cases_ok d R) as [ND _].
        apply (NoDup_map_inj Case.id (rows (cases d))); assumption. }
      pose proof (totals_match d C c0 Hc0) as T.
      rewrite Ec. unfold set_total_value, set_scalars.
      unfold c0 in *. cbn [case_columns Case.id]. rewrite Z.eqb_refl.
      cbn [Case.id]. rewrite Z.eqb_refl. unfold same_case.
      cbn [Case.id Case.name Case.employee_id Case.photo Case.delivery_date
           Case.return_date Case.status Case.total_value].
      repeat (split; [reflexivity|]).
      rewrite loop_total_Qsum.
      cbn [case_columns Case.id Case.total_value] in T.
      cbn [case_columns Case.total_value].
      rewrite T, running_total_line_total.
      unfold line_total. rewrite map_map.
      change (fun x => item_value (g x)) with subtotal. ring.
    + rewrite (set_scalars_other _ _ _ _ _ N),
        (set_total_value_other _ _ _ N).
      apply same_case_refl.
  - intro k. unfold items_of. cbn [case_items rows].
    destruct (Z.eq_dec k (CaseRow.id caseObj)) as [->|N].
    + rewrite items_of_after_replace.
      unfold item_content. rewrite item_rows_columns, map_map.
      apply map_ext_in. intros ci Hci. apply filter_In in Hci.
      destruct Hci as [_ Hci]. apply Z.eqb_eq in Hci. rewrite Hci.
      reflexivity.
    + rewrite filter_app.
      rewrite (filter_item_rows_other (CaseRow.id caseObj) k)
        by (intro X; apply N; symmetry; exact X).
      rewrite app_nil_r, filter_other_after_delete by exact N.
      reflexivity.
Qed.

Lemma editor_save_unchanged_keeps_the_ledger_witness :
  fst (serve (editor_handleSave mala_julho_listed "Mala Julho" (Some 1)
                "EM_CAMPO" (editor_open mala_julho_listed))
             shop_with_case)
  = res_json json_success.
Proof.
  destruct (editor_save_unchanged_keeps_the_ledger shop_with_case
              mala_julho_listed shop_with_case_reachable) as [E _].
  - rewrite mala_julho_is_listed. left. reflexivity.
  - exact E.
Defined.

(** ** The case that the scanner prints *)

Lemma hd_sort_by_id_latest (before : list CaseRow.t) (r : CaseRow.t) :
  (forall x, In x before -> CaseRow.id x < CaseRow.id r) ->
  hd_error (sort_by_id (before ++ [r])) = Some r.
Proof.
  intro H. induction before as [|a l IH]; [reflexivity|].
  cbn [app]. unfold sort_by_id in *. cbn [fold_right].
  destruct (fold_right insert_by_id [] (l ++ [r])) as [|b t];
    [discriminate IH; intros x Hx; apply H; right; exact Hx|].
  assert (E : b = r).
  { assert (X : hd_error (b :: t) = Some r)
      by (apply IH; intros x Hx; apply H; right; exact Hx).
    injection X as X. exact X. }
  subst b. cbn [insert_by_id].
  assert (N : (CaseRow.id r <=? CaseRow.id a) = false)
    by (apply Z.leb_gt; apply H; left; reflexivity).
  rewrite N. reflexivity.
Qed.

Section ScannerPrint.

Variable toLowerCase : string -> string.

(** X24. The case that the scanner prints after a save, on a connection that
    enforces foreign keys. When the save is accepted, the case with the
    largest id that [handleSave] picks from the new listing is the case it has
    just created, with the name typed in and the total of the scan. When the
    save is rejected, because an item matched no product or the agent is gone,
    the answer is a 500 that [handleSave] does not look at, and the case it
    picks is the one it would have picked before the save: the newest older
    case. Hypothesis: the scan is not empty. *)
Theorem scanner_prints_the_latest_case (clock_Date clock_now : Z)
    (products : list Product.t) (caseName : string)
    (selectedEmployee : option Z) (scannedItems : list ScannedItem.t)
    (d : database) :
  reachable true d -> scannedItems <> [] ->
  exists req,
    scanner_handleSave toLowerCase clock_Date clock_now products caseName
      selectedEmployee scannedItems = Some req
    /\ (references_resolve d selectedEmployee
          (itemsToSave toLowerCase products scannedItems) = true ->
        exists r,
          scanner_createdCase (get_cases (snd (serve req d))) = Some r
          /\ CaseRow.id r = next_id (cases d)
          /\ CaseRow.name r = caseName
          /\ CaseRow.total_value r = scanner_totalValue scannedItems)
    /\ (references_resolve d selectedEmployee
          (itemsToSave toLowerCase products scannedItems) = false ->
        status_code (fst (serve req d)) = 500
        /\ scanner_createdCase (get_cases (snd (serve req d)))
           = scanner_createdCase (get_cases d)).
Proof.
  intros H Hne.
  exists (POST_cases clock_Date clock_now caseName selectedEmployee None
            (itemsToSave toLowerCase products scannedItems)).
  split; [destruct scannedItems; [contradiction|reflexivity]|].
  destruct (reachable_invariants d H) as [F [C R]].
  cbn [serve]. split; intro Href.
  - destruct (post_cases_listing clock_Date clock_now caseName
                selectedEmployee None
                (itemsToSave toLowerCase products scannedItems) d H Href)
      as [before [r [E [Hb [Hr _]]]]].
    assert (Hid : CaseRow.id r = next_id (cases d)).
    { change (CaseRow.id r) with (Case.id (case_columns r)). rewrite Hr.
      reflexivity. }
    exists r. unfold scanner_createdCase. rewrite E.
    split; [|split; [exact Hid|split]].
    + apply hd_sort_by_id_latest. intros x Hx. rewrite Hid.
      assert (Hc : In (case_columns x) (rows (cases d)))
        by (rewrite <- Hb; apply in_map; exact Hx).
      pose proof (case_ids_allocated d C _ Hc) as A.
      cbn [case_columns Case.id] in A. unfold next_id. lia.
    + change (CaseRow.name r) with (Case.name (case_columns r)). rewrite Hr.
      reflexivity.
    + change (CaseRow.total_value r)
        with (Case.total_value (case_columns r)).
      rewrite Hr. cbn [created_case Case.total_value].
      apply loop_total_itemsToSave.
  - rewrite post_cases_run. unfold fk_check. rewrite F, Href.
    split; reflexivity.
Qed.

End ScannerPrint.

Lemma scanner_prints_the_latest_case_witness :
  exists req,
    scanner_handleSave (fun s => s) 1700000000000 1700000000001
      (get_products shop_with_case) "Mala Scanner" (Some 1)
      [{| ScannedItem.name := "Pulseira Nova";
          ScannedItem.category := "pulseira";
          ScannedItem.price := 80; ScannedItem.quantity := 1 |}] = Some req
    /\ status_code (fst (serve req shop_with_case)) = 500
    /\ scanner_createdCase (get_cases (snd (serve req shop_with_case)))
       = Some mala_julho_listed.
Proof.
  destruct (scanner_prints_the_latest_case (fun s => s) 1700000000000
              1700000000001 (get_products shop_with_case) "Mala Scanner"
              (Some 1%Z)
              [{| ScannedItem.name := "Pulseira Nova";
                  ScannedItem.category := "pulseira";
                  ScannedItem.price := 80; ScannedItem.quantity := 1%Z |}]
              shop_with_case shop_with_case_reachable)
    as [req [E [_ N]]].
  - discriminate.
  - exists req. split; [exact E|].
    destruct N as [S P]; [reflexivity|].
    split; [exact S|]. rewrite P. reflexivity.
Defined.

(** ** The agent and product editors *)

Lemma map_update_other {A : Type} (key : A -> Z) (g : A -> A) (k : Z)
    (l : list A) :
  ~ In k (map key l) ->
  map (fun y => if key y =? k then g y else y) l = l.
Proof.
  intro N. induction l as [|a r IH]; [reflexivity|].
  cbn [map]. rewrite IH by (intro X; apply N; right; exact X).
  assert (E : (key a =? k) = false)
    by (apply Z.eqb_neq; intro X; apply N; left; exact X).
  rewrite E. reflexivity.
Qed.

Lemma map_update_unique {A : Type} (key : A -> Z) (g : A -> A) (l : list A)
    (x : A) :
  NoDup (map key l) -> In x l ->
  exists before after,
    l = before ++ x :: after
    /\ map (fun y => if key y =? key x then g y else y) l
       = before ++ g x :: after.
Proof.
  induction l as [|a r IH]; intros N Hx; [destruct Hx|].
  cbn [map] in N. pose proof N as N'.
  apply NoDup_cons_iff in N. destruct N as [Na Nr].
  destruct (Z.eq_dec (key a) (key x)) as [E|D].
  - assert (Ea : a = x)
      by (apply (NoDup_map_inj key (a :: r));
          [exact N'|left; reflexivity|exact Hx|exact E]).
    subst a. exists [], r. split; [reflexivity|].
    cbn [map app]. rewrite Z.eqb_refl.
    rewrite (map_update_other key g (key x) r Na). reflexivity.
  - destruct Hx as [->|Hx]; [contradiction D; reflexivity|].
    destruct (IH Nr Hx) as [before [after [E1 E2]]].
    exists (a :: before), after. split; [rewrite E1; reflexivity|].
    cbn [map app]. apply Z.eqb_neq in D. rewrite D, E2. reflexivity.
Qed.

(** X25. The agent editor changes exactly the agent it was opened on, on a
    connection that enforces foreign keys: saving a listed agent sends the
    update to her id (no listed agent has the id 0 that stands for "new"), her
    row takes the new name and contact in place, and every other row of the
    table stays where and as it was; saving from "Nova Vendedora" appends one
    row under the next id. *)
Theorem employee_editor_saves_one_agent (d : database) (e : EmployeeRow.t)
    (name whatsapp : string) :
  reachable true d ->
  let d' := snd (serve (employee_handleSave e name whatsapp) d) in
  (In e (get_employees d) ->
   exists before old after,
     rows (employees d) = before ++ old :: after
     /\ Employee.id old = EmployeeRow.id e
     /\ rows (employees d')
        = before ++ {| Employee.id := Employee.id old;
                       Employee.name := name;
                       Employee.whatsapp := whatsapp |} :: after)
  /\ (EmployeeRow.id e = 0 ->
      rows (employees d')
      = rows (employees d)
        ++ [{| Employee.id := next_id (employees d); Employee.name := name;
               Employee.whatsapp := whatsapp |}]).
Proof.
  intros H d'. subst d'. destruct (reachable_invariants d H) as [_ [_ R]].
  destruct (employees_ok d R) as [N [A _]]. split.
  - intro Hin. unfold get_employees in Hin. apply in_map_iff in Hin.
    destruct Hin as [old [<- Hold]]. cbn [EmployeeRow.id].
    destruct (map_update_unique Employee.id
                (fun x => {| Employee.id := Employee.id x;
                             Employee.name := name;
                             Employee.whatsapp := whatsapp |})
                _ old N Hold) as [before [after [E1 E2]]].
    exists before, old, after. split; [exact E1|]. split; [reflexivity|].
    unfold employee_handleSave. cbn [EmployeeRow.id].
    assert (Z0 : (Employee.id old =? 0) = false)
      by (apply Z.eqb_neq; specialize (A old Hold); lia).
    rewrite Z0. exact E2.
  - intro E. unfold employee_handleSave. rewrite E. reflexivity.
Qed.

Lemma employee_editor_saves_one_agent_witness :
  exists before old after,
    rows (employees shop) = before ++ old :: after
    /\ Employee.id old = 2
    /\ rows (employees
               (snd (serve (employee_handleSave
                              {| EmployeeRow.id := 2;
                                 EmployeeRow.name := "Bia";
                                 EmployeeRow.whatsapp := "5511888880000";
                                 EmployeeRow.total_sales := 0 |}
                              "Beatriz" "5511777770000") shop)))
       = before ++ {| Employee.id := Employee.id old;
                      Employee.name := "Beatriz";
                      Employee.whatsapp := "5511777770000" |} :: after.
Proof.
  destruct (employee_editor_saves_one_agent shop
              {| EmployeeRow.id := 2; EmployeeRow.name := "Bia";
                 EmployeeRow.whatsapp := "5511888880000";
                 EmployeeRow.total_sales := 0 |}
              "Beatriz" "5511777770000" shop_reachable) as [H _].
  apply H. right. left. reflexivity.
Defined.

(** X26. The product editor changes exactly the product it was opened on, on a
    connection that enforces foreign keys: saving a listed product sends the
    update to its id, its row takes the new name, category, price and photo in
    place and keeps its status, and every other row of the catalog stays where
    and as it was; saving from "Novo Produto" appends one active row under the
    next id. The photo that is stored is the editor's string. *)
Theorem product_editor_saves_one_product (d : database) (p : Product.t)
    (name category : string) (price : Q) (photo : string) :
  reachable true d ->
  let d' := snd (serve (product_handleSave p name category price photo) d) in
  (In p (get_products d) ->
   exists before after,
     rows (products d) = before ++ p :: after
     /\ rows (products d')
        = before ++ {| Product.id := Product.id p; Product.name := name;
                       Product.category := category; Product.price := price;
                       Product.photo := Some photo;
                       Product.status := Product.status p |} :: after)
  /\ (Product.id p = 0 ->
      rows (products d')
      = rows (products d)
        ++ [{| Product.id := next_id (products d); Product.name := name;
               Product.category := category; Product.price := price;
               Product.photo := Some photo; Product.status := "active" |}]).
Proof.
  intros H d'. subst d'. destruct (reachable_invariants d H) as [_ [_ R]].
  destruct (products_ok d R) as [N [A _]]. split.
  - intro Hin. unfold get_products in Hin. apply filter_In in Hin.
    destruct Hin as [Hin _].
    destruct (map_update_unique Product.id
                (fun x => {| Product.id := Product.id x; Product.name := name;
                             Product.category := category;
                             Product.price := price;
                             Product.photo := Some photo;
                             Product.status := Product.status x |})
                _ p N Hin) as [before [after [E1 E2]]].
    exists before, after. split; [exact E1|].
    unfold product_handleSave.
    assert (Z0 : (Product.id p =? 0) = false)
      by (apply Z.eqb_neq; specialize (A p Hin); lia).
    rewrite Z0. exact E2.
  - intro E. unfold product_handleSave. rewrite E. reflexivity.
Qed.

Lemma product_editor_saves_one_product_witness :
  exists before after,
    rows (products shop)
    = before ++ {| Product.id := 1; Product.name := "Brinco Argola";
                   Product.category := "brinco"; Product.price := 100;
                   Product.photo := None; Product.status := "active" |}
             :: after
    /\ rows (products
               (snd (serve (product_handleSave
                              {| Product.id := 1;
                                 Product.name := "Brinco Argola";
                                 Product.category := "brinco";
                                 Product.price := 100; Product.photo := None;
                                 Product.status := "active" |}
                              "Brinco Argola" "brinco" 120
                              (product_editor_photo
                                 {| Product.id := 1;
                                    Product.name := "Brinco Argola";
                                    Product.category := "brinco";
                                    Product.price := 100;
                                    Product.photo := None;
                                    Product.status := "active" |})) shop)))
       = before ++ {| Product.id := 1; Product.name := "Brinco Argola";
                      Product.category := "brinco"; Product.price := 120;
                      Product.photo := Some ""%string;
                      Product.status := "active" |} :: after.
Proof.
  destruct (product_editor_saves_one_product shop
              {| Product.id := 1; Product.name := "Brinco Argola";
                 Product.category := "brinco"; Product.price := 100;
                 Product.photo := None; Product.status := "active" |}
              "Brinco Argola" "brinco" 120
              (product_editor_photo
                 {| Product.id := 1; Product.name := "Brinco Argola";
                    Product.category := "brinco"; Product.price := 100;
                    Product.photo := None; Product.status := "active" |})
              shop_reachable) as [H _].
  apply H. left. reflexivity.
Defined.
